(** * hh_it_scrapper: the vacancy ingestion pipeline

    A shallow embedding of the two generations of the scraper that live in
    the repository:

    - [Monolith]: the single-file program [main.go] (package [main] with
      [SafeMap], [fetchAndStoreVacancies], [fetchVacancyDetails],
      [processVacancy], [md5Hash]);
    - [Modular]: the refactored program (package [main] on top of the
      packages [api], [storage], [config] and [logger]).

    Both programs talk to two outside parties, the hh.ru HTTP API and a
    MongoDB collection.  Their answers are taken from an environment
    ([Env]); everything the programs do to the outside world is appended to
    a chronological trace of events, so that "how many requests were made"
    and "what was written" are statements about that trace.

    Code that runs inside a goroutine is written once, as a program over
    atomic actions ([Prog]); it is given a sequential meaning ([interp]) and
    an interleaved one (the worker pools [Monolith.pool_run], [Modular.pool_run]). *)

From Stdlib Require Import ZArith List Lia Bool.
From stdpp Require Import base option list gmap sets strings.

Local Open Scope string_scope.
Local Open Scope list_scope.
Local Open Scope Z_scope.

(** ** Machine integers *)

(** Go's [int64] (and [int] on the amd64 target of the Dockerfile):
    arithmetic wraps around modulo 2^64 into the signed range. *)
Definition wrap64 (z : Z) : Z := (z + 2 ^ 63) mod 2 ^ 64 - 2 ^ 63.

Definition in_int64 (z : Z) : Prop := - 2 ^ 63 <= z < 2 ^ 63.

(** ** JSON documents *)

(** What [json.Unmarshal] puts behind an [interface{}].  Arrays and nested
    objects are never inspected by the programs and are kept opaque. *)
Inductive JValue : Type :=
| JNull
| JBool (b : bool)
| JNumber (n : Z)
| JString (s : string)
| JCompound.

#[global] Instance JValue_eq_dec : EqDecision JValue.
Proof. solve_decision. Defined.

(** [map[string]interface{}] *)
Abbreviation Doc := (gmap string JValue).

(** ** Answers of the HTTP API *)

(** The body of a response, as the program gets to see it: [ioutil.ReadAll]
    may fail, [json.Unmarshal] may fail, or an object comes out. *)
Inductive Body (A : Type) : Type :=
| BodyUnreadable
| BodyMalformed
| BodyJSON (a : A).
Arguments BodyUnreadable {A}.
Arguments BodyMalformed {A}.
Arguments BodyJSON {A} a.

(** One HTTP exchange: [http.NewRequest] may fail, [client.Do] may fail, or
    a response with a status code and a body arrives. *)
Inductive Reply (A : Type) : Type :=
| NewRequestError
| TransportError
| Response (status : Z) (body : Body A).
Arguments NewRequestError {A}.
Arguments TransportError {A}.
Arguments Response {A} status body.

(** The request could be built and was handed to [client.Do]: with
    [NewRequestError] the function returns before anything is sent. *)
Definition built {A : Type} (resp : Reply A) : bool :=
  match resp with
  | NewRequestError => false
  | _ => true
  end.

(** The fields of a search page that the programs read: [pages], and the
    [id] of every element of [items]. *)
Record SearchPage : Type := mkSearchPage {
  Pages : Z;
  Items : list string
}.

Definition http_StatusOK : Z := 200.
Definition http_StatusBadRequest : Z := 400.
Definition http_StatusForbidden : Z := 403.
Definition http_StatusNotFound : Z := 404.
Definition http_StatusTooManyRequests : Z := 429.

(** ** Events, worlds and environments

    [EvSearch] and [EvFetch] are put on the trace where the program turns
    to a request, at its [http.NewRequest].  When the reply is
    [NewRequestError] the request could not be built and nothing was sent;
    with every other reply ([built]) the event stands for a request that
    went out, whether or not [client.Do] brought a response.  Where a
    statement below counts the requests that were sent, it is made of
    replies that are [built]. *)

Section Runtime.

(** The type of log lines differs between the two programs. *)
Context {Msg : Type}.

Inductive Event : Type :=
| EvSearch (page : Z)                      (* GET /vacancies?...&page=N *)
| EvFetch (vacancyID : string)             (* GET /vacancies/ID *)
| EvExists (hash : string) (found : bool)  (* lookup in the hash set *)
| EvAdd (hash : string)                    (* insertion in the hash set *)
| EvUpsert (data : Doc) (ok : bool)        (* collection.UpdateOne *)
| EvSaved                                  (* atomic.AddInt64(savedCount, 1) *)
| EvSleep (d : Z)                          (* time.Sleep *)
| EvLog (m : Msg).

(** The mutable state of a run. *)
Record World : Type := mkWorld {
  vacancyIDs : gset string;          (* existingVacancyIDs *)
  descriptionHashes : gset string;   (* existingDescriptionHashes *)
  savedCount : Z;
  trace : list Event
}.

Definition emit (e : Event) (w : World) : World :=
  mkWorld (vacancyIDs w) (descriptionHashes w) (savedCount w) (trace w ++ [e]).

(** Projections of a trace. *)
Definition searches (t : list Event) : list Z :=
  omap (λ e, match e with EvSearch p => Some p | _ => None end) t.

Definition fetches (t : list Event) : list string :=
  omap (λ e, match e with EvFetch k => Some k | _ => None end) t.

Definition upserts (t : list Event) : list (Doc * bool) :=
  omap (λ e, match e with EvUpsert d ok => Some (d, ok) | _ => None end) t.

Definition logged (t : list Event) : list Msg :=
  omap (λ e, match e with EvLog m => Some m | _ => None end) t.

Definition sleeps (t : list Event) : list Z :=
  omap (λ e, match e with EvSleep d => Some d | _ => None end) t.

(** Number of detail requests already made for a key. *)
Definition attempts (k : string) (t : list Event) : nat :=
  length (filter (λ k', k' = k) (fetches t)).

(** The outside world.  The answer to a detail request may change from
    one request for a key to the next; the answer of the collection may
    depend on every call it has seen. *)
Record Env : Type := mkEnv {
  searchPage : Z → Reply SearchPage;
  fetchDetail : string → nat → Reply Doc;
  updateOne : list (Doc * bool) → Doc → bool   (* true: err == nil *)
}.

(** ** Programs over atomic actions *)

Inductive Action : Type → Type :=
| HttpSearch (page : Z) : Action (Reply SearchPage)
| HttpDetail (vacancyID : string) : Action (Reply Doc)
| HashExists (hash : string) : Action bool
| HashAdd (hash : string) : Action unit
| UpdateOne (data : Doc) : Action bool
| AddSaved : Action unit
| Sleep (d : Z) : Action unit
| Log (m : Msg) : Action unit.

Inductive Prog (A : Type) : Type :=
| Ret (a : A)
| Do {X : Type} (act : Action X) (k : X → Prog A).
Arguments Ret {A} a.
Arguments Do {A X} act k.

Fixpoint bind {A B : Type} (p : Prog A) (f : A → Prog B) : Prog B :=
  match p with
  | Ret a => f a
  | Do act k => Do act (λ x, bind (k x) f)
  end.

Definition call {X : Type} (act : Action X) : Prog X := Do act Ret.

Variable env : Env.

(** One atomic action, performed on the world. *)
Definition perform {X : Type} (act : Action X) (w : World) : X * World :=
  match act in Action T return T * World with
  | HttpSearch page => (searchPage env page, emit (EvSearch page) w)
  | HttpDetail k => (fetchDetail env k (attempts k (trace w)), emit (EvFetch k) w)
  | HashExists h =>
      let found := bool_decide (h ∈ descriptionHashes w) in
      (found, emit (EvExists h found) w)
  | HashAdd h =>
      (tt, emit (EvAdd h)
             (mkWorld (vacancyIDs w) ({[h]} ∪ descriptionHashes w)
                      (savedCount w) (trace w)))
  | UpdateOne data =>
      let ok := updateOne env (upserts (trace w)) data in
      (ok, emit (EvUpsert data ok) w)
  | AddSaved =>
      (tt, emit EvSaved
             (mkWorld (vacancyIDs w) (descriptionHashes w)
                      (wrap64 (savedCount w + 1)) (trace w)))
  | Sleep d => (tt, emit (EvSleep d) w)
  | Log m => (tt, emit (EvLog m) w)
  end.

(** Sequential execution: the program runs alone, from start to end. *)
Fixpoint interp {A : Type} (p : Prog A) (w : World) : A * World :=
  match p with
  | Ret a => (a, w)
  | Do act k => let '(x, w') := perform act w in interp (k x) w'
  end.

(** ** Goroutines

    Inside a worker pool the actions of several programs interleave.  A
    detail request is not atomic there: it is sent at one moment and
    answered at a later one, and other goroutines run in between. *)
Inductive Thread (A : Type) : Type :=
| Running (p : Prog A)
| Awaiting (resp : Reply Doc) (k : Reply Doc → Prog A).
Arguments Running {A} p.
Arguments Awaiting {A} resp k.

(** One move of a goroutine that has not reached its end. *)
Definition thread_step {A : Type} (t : Thread A) (w : World) : Thread A * World :=
  match t with
  | Running (Ret a) => (t, w)
  | Running (Do act k) =>
      match act in Action T return (T → Prog A) → Thread A * World with
      | HttpDetail id => λ k,
          let '(resp, w') := perform (HttpDetail id) w in (Awaiting resp k, w')
      | HttpSearch page => λ k,
          let '(x, w') := perform (HttpSearch page) w in (Running (k x), w')
      | HashExists h => λ k,
          let '(x, w') := perform (HashExists h) w in (Running (k x), w')
      | HashAdd h => λ k,
          let '(x, w') := perform (HashAdd h) w in (Running (k x), w')
      | UpdateOne data => λ k,
          let '(x, w') := perform (UpdateOne data) w in (Running (k x), w')
      | AddSaved => λ k,
          let '(x, w') := perform AddSaved w in (Running (k x), w')
      | Sleep d => λ k,
          let '(x, w') := perform (Sleep d) w in (Running (k x), w')
      | Log m => λ k,
          let '(x, w') := perform (Log m) w in (Running (k x), w')
      end k
  | Awaiting resp k => (Running (k resp), w)
  end.

(** A goroutine whose detail request is on the wire. *)
Definition in_flight {A : Type} (t : Thread A) : bool :=
  match t with
  | Awaiting _ _ => true
  | Running _ => false
  end.

(** Number of moves a program makes, as a goroutine, when nothing else
    runs in between. *)
Fixpoint moves {A : Type} (p : Prog A) (w : World) : nat :=
  match p with
  | Ret _ => O
  | Do act k =>
      let '(x, w') := perform act w in
      match act with
      | HttpDetail _ => S (S (moves (k x) w'))
      | _ => S (moves (k x) w')
      end
  end.

End Runtime.

Arguments Event : clear implicits.
Arguments World : clear implicits.
Arguments Action : clear implicits.
Arguments Prog : clear implicits.
Arguments Thread : clear implicits.
Arguments Ret {Msg A} a.
Arguments Do {Msg A X} act k.
Arguments Running {Msg A} p.
Arguments Awaiting {Msg A} resp k.

Notation "'let*' x ':=' p 'in' q" := (bind p (λ x, q))
  (at level 10, x name, p at level 100, q at level 200, only parsing).

(** ** Terminal outcomes *)

(** Neither program has a type of outcomes: what became of a key is what
    the program wrote about it in its logs.  The five outcomes below name
    the terminal log lines. *)
Inductive FetchOutcome : Type :=
| Stored
| SkippedDuplicate
| SkippedNotFound
| SkippedInvalid
| Failed.

#[global] Instance FetchOutcome_eq_dec : EqDecision FetchOutcome.
Proof. solve_decision. Defined.

(** * The single-file program *)

Module Monolith.

Definition PerPage : Z := 100.
Definition MaxConcurrency : nat := 10.
Definition RetryDelay : Z := 10 * 1000000000.   (* 10 * time.Second *)
Definition MaxRetries : Z := 3.

(** [ErrRetryable], [ErrNonRetryable]; [nil] is [None]. *)
Inductive error : Type :=
| ErrRetryable
| ErrNonRetryable.

(** Log lines; [success.log] gets [MsgDuplicate] and [MsgStored], the
    standard logger [MsgTotalPages], [MsgProcessingPage], [MsgLoaded],
    [MsgJobStarted] and [MsgJobCompleted], [error.log] the others. *)
Inductive Msg : Type :=
| MsgCreateRequest (vacancyID : string)
| MsgHTTPGet (vacancyID : string)
| MsgReadBody (vacancyID : string)
| MsgParseJSON (vacancyID : string)
| MsgNoDescription (vacancyID : string)
| MsgDuplicate (vacancyID : string)
| MsgInsertion (vacancyID : string)
| MsgStored (vacancyID : string)
| MsgNotFound (vacancyID : string)
| MsgWillRetry (status : Z) (vacancyID : string)
| MsgUnexpectedStatus (status : Z) (vacancyID : string)
| MsgRetryable (vacancyID : string) (attempt : Z)
| MsgMaxRetries (vacancyID : string)
| MsgPageCreateRequest (page : Z)
| MsgPageFetch (page : Z)
| MsgPageReadBody (page : Z)
| MsgPageParseJSON (page : Z)
| MsgTotalPages (totalPages : Z)
| MsgProcessingPage (page : Z) (new : nat)
| MsgPageHTTPError (page : Z) (status : Z)
| MsgPageUnexpectedStatus (status : Z) (page : Z)
| MsgLoaded (ids hashes : nat)
| MsgJobStarted
| MsgJobFailed
| MsgJobCompleted.

(** The outcome a log line announces for a key, if it is terminal. *)
Definition terminal (k : string) (m : Msg) : option FetchOutcome :=
  match m with
  | MsgStored k' => if decide (k' = k) then Some Stored else None
  | MsgDuplicate k' => if decide (k' = k) then Some SkippedDuplicate else None
  | MsgNotFound k' => if decide (k' = k) then Some SkippedNotFound else None
  | MsgNoDescription k' | MsgParseJSON k' =>
      if decide (k' = k) then Some SkippedInvalid else None
  | MsgMaxRetries k' => if decide (k' = k) then Some Failed else None
  | _ => None
  end.

(** The terminal outcomes logged for a key, oldest first. *)
Definition outcomes (k : string) (t : list (Event Msg)) : list FetchOutcome :=
  omap (terminal k) (logged t).

Module SafeMap.
Definition Exists (key : string) : Prog Msg bool := call (HashExists key).
Definition Add (key : string) : Prog Msg unit := call (HashAdd key).
End SafeMap.

Section Program.

(** [md5Hash]: the hexadecimal MD5 digest of a text; any function does. *)
Variable md5Hash : string → string.

Definition log (m : Msg) : Prog Msg unit := call (Log m).

Definition processVacancy (vacancyID : string) : Prog Msg (option error) :=
  let* resp := call (HttpDetail vacancyID) in
  match resp with
  | NewRequestError =>
      let* _ := log (MsgCreateRequest vacancyID) in Ret (Some ErrRetryable)
  | TransportError =>
      let* _ := log (MsgHTTPGet vacancyID) in Ret (Some ErrRetryable)
  | Response status body =>
      if (status =? http_StatusOK)%Z then
        match body with
        | BodyUnreadable =>
            let* _ := log (MsgReadBody vacancyID) in Ret (Some ErrRetryable)
        | BodyMalformed =>
            let* _ := log (MsgParseJSON vacancyID) in Ret (Some ErrNonRetryable)
        | BodyJSON vacancyData =>
            match vacancyData !! "description" with
            | Some (JString description) =>
                let descriptionHash := md5Hash description in
                let* found := SafeMap.Exists descriptionHash in
                if found : bool then
                  let* _ := log (MsgDuplicate vacancyID) in Ret None
                else
                  let vacancyData :=
                    <["description_hash" := JString descriptionHash]> vacancyData in
                  let* ok := call (UpdateOne vacancyData) in
                  if ok : bool then
                    let* _ := SafeMap.Add descriptionHash in
                    let* _ := log (MsgStored vacancyID) in
                    Ret None
                  else
                    let* _ := log (MsgInsertion vacancyID) in
                    Ret (Some ErrRetryable)
            | _ =>
                let* _ := log (MsgNoDescription vacancyID) in
                Ret (Some ErrNonRetryable)
            end
        end
      else if (status =? http_StatusNotFound)%Z then
        let* _ := log (MsgNotFound vacancyID) in Ret (Some ErrNonRetryable)
      else if (status =? http_StatusForbidden)%Z
              || (status =? http_StatusTooManyRequests)%Z then
        let* _ := log (MsgWillRetry status vacancyID) in Ret (Some ErrRetryable)
      else
        let* _ := log (MsgUnexpectedStatus status vacancyID) in
        Ret (Some ErrRetryable)
  end.

(** The [for] loop in the goroutine of [fetchVacancyDetails].  The loop
    has no bound of its own, so the model takes fuel; [None] is only
    returned when the fuel runs out. *)
Fixpoint retryLoop (fuel : nat) (vacancyID : string) (retries : Z)
  : Prog Msg (option unit) :=
  match fuel with
  | O => Ret None
  | S fuel =>
      let* err := processVacancy vacancyID in
      match err with
      | Some ErrRetryable =>
          if retries <? MaxRetries then
            let retries := wrap64 (retries + 1) in
            let* _ := log (MsgRetryable vacancyID retries) in
            let* _ := call (Sleep RetryDelay) in
            retryLoop fuel vacancyID retries
          else
            let* _ := log (MsgMaxRetries vacancyID) in Ret (Some tt)
      | Some ErrNonRetryable => Ret (Some tt)
      | None =>
          let* _ := call AddSaved in Ret (Some tt)
      end
  end.

(** The goroutine between [sem <- struct{}{}] and [<-sem]. *)
Definition worker (vacancyID : string) : Prog Msg (option unit) :=
  retryLoop (S (Z.to_nat MaxRetries)) vacancyID 0.

Variable env : Env.

(** [fetchVacancyDetails] when the goroutines happen to run one at a
    time, in the order of the slice.  [pool_run] below has every other
    interleaving. *)
Definition fetchVacancyDetails (vacancyIDs : list string) (w : World Msg)
  : World Msg :=
  foldl (λ w vacancyID, (interp env (worker vacancyID) w).2) w vacancyIDs.

(** *** The worker pool of [fetchVacancyDetails] *)

Inductive Goroutine : Type :=
| GSend (vacancyID : string)            (* at [sem <- struct{}{}] *)
| GLoop (t : Thread Msg (option unit))  (* in the loop, holding a slot *)
| GDone                                 (* slot given back; [wg.Done()] due *)
| GExit.

Record PoolState : Type := mkPool {
  world : World Msg;
  sem : nat;                      (* len(sem) *)
  wg : nat;                       (* counter of the WaitGroup *)
  todo : list string;             (* what the [range] loop has left *)
  goroutines : list Goroutine;
  returned : bool                 (* [wg.Wait()] is over *)
}.

Definition pool_start (vacancyIDs : list string) (w : World Msg) : PoolState :=
  mkPool w 0 0 vacancyIDs [] false.

(** The scheduler picks the function itself or one of its goroutines. *)
Inductive Tick : Type :=
| Main
| Go (i : nat).

Definition main_step (s : PoolState) : PoolState :=
  match todo s with
  | vacancyID :: rest =>
      mkPool (world s) (sem s) (S (wg s)) rest
              (goroutines s ++ [GSend vacancyID]) (returned s)
  | [] =>
      if decide (wg s = 0%nat)
      then mkPool (world s) (sem s) (wg s) [] (goroutines s) true
      else s
  end.

Definition go_step (i : nat) (s : PoolState) : PoolState :=
  match goroutines s !! i with
  | Some (GSend vacancyID) =>
      if decide (sem s < MaxConcurrency)%nat
      then mkPool (world s) (S (sem s)) (wg s) (todo s)
             (<[i := GLoop (Running (worker vacancyID))]> (goroutines s))
             (returned s)
      else s
  | Some (GLoop (Running (Ret _))) =>
      mkPool (world s) (pred (sem s)) (wg s) (todo s)
              (<[i := GDone]> (goroutines s)) (returned s)
  | Some (GLoop t) =>
      let '(t', w') := thread_step env t (world s) in
      mkPool w' (sem s) (wg s) (todo s)
              (<[i := GLoop t']> (goroutines s)) (returned s)
  | Some GDone =>
      mkPool (world s) (sem s) (pred (wg s)) (todo s)
              (<[i := GExit]> (goroutines s)) (returned s)
  | Some GExit | None => s
  end.

Definition pool_step (t : Tick) (s : PoolState) : PoolState :=
  match t with
  | Main => main_step s
  | Go i => go_step i s
  end.

Definition pool_run (schedule : list Tick) (s : PoolState) : PoolState :=
  foldl (λ s t, pool_step t s) s schedule.

(** Goroutines that hold a slot of the semaphore. *)
Definition holds_slot (g : Goroutine) : bool :=
  match g with
  | GLoop _ => true
  | _ => false
  end.

Definition holders (s : PoolState) : nat :=
  length (filter (λ g, holds_slot g = true) (goroutines s)).

(** Goroutines whose detail request is on the wire. *)
Definition fetching (g : Goroutine) : bool :=
  match g with
  | GLoop t => in_flight t
  | _ => false
  end.

Definition inFlight (s : PoolState) : nat :=
  length (filter (λ g, fetching g = true) (goroutines s)).


(** *** The pagination loop *)

(** [details] stands for one complete execution of
    [fetchVacancyDetails], under whatever interleaving. *)
Variable details : list string → World Msg → World Msg.

Definition say (m : Msg) (w : World Msg) : World Msg := emit (EvLog m) w.

(** The [for] loop of [fetchAndStoreVacancies]; [None] when the fuel
    runs out before the loop is left.  The branch for a [nil] response
    next to a [nil] error has no counterpart: [client.Do] returns one or
    the other. *)
Fixpoint pageLoop (fuel : nat) (page totalPages : Z) (w : World Msg)
  : option (option error) * World Msg :=
  match fuel with
  | O => (None, w)
  | S fuel =>
      let '(resp, w) := perform env (HttpSearch page) w in
      match resp with
      | NewRequestError =>
          pageLoop fuel (wrap64 (page + 1)) totalPages
                   (say (MsgPageCreateRequest page) w)
      | TransportError =>
          pageLoop fuel (wrap64 (page + 1)) totalPages
                   (say (MsgPageFetch page) w)
      | Response status body =>
          if status =? http_StatusOK then
            match body with
            | BodyUnreadable =>
                pageLoop fuel (wrap64 (page + 1)) totalPages
                         (say (MsgPageReadBody page) w)
            | BodyMalformed =>
                pageLoop fuel (wrap64 (page + 1)) totalPages
                         (say (MsgPageParseJSON page) w)
            | BodyJSON searchResp =>
                let '(totalPages, w) :=
                  if page =? 0
                  then (Pages searchResp, say (MsgTotalPages (Pages searchResp)) w)
                  else (totalPages, w) in
                let new :=
                  filter (λ id, id ∉ vacancyIDs w) (Items searchResp) in
                let w := say (MsgProcessingPage page (length new)) w in
                let w := details new w in
                if page >=? wrap64 (totalPages - 1)
                then (Some None, w)
                else pageLoop fuel (wrap64 (page + 1)) totalPages w
            end
          else
            let w :=
              if (status =? http_StatusBadRequest)
                 || (status =? http_StatusForbidden)
                 || (status =? http_StatusNotFound)
              then say (MsgPageHTTPError page status) w
              else say (MsgPageUnexpectedStatus status page) w in
            if page >=? wrap64 (totalPages - 1)
            then (Some None, w)
            else pageLoop fuel (wrap64 (page + 1)) totalPages w
      end
  end.

Definition fetchAndStoreVacancies (fuel : nat) (w : World Msg)
  : option (option error) * World Msg :=
  pageLoop fuel 0 0 w.

(** *** The process *)

(** What [main] is started with and what it meets at start-up. *)
Record Invocation : Type := mkInvocation {
  logs_open : bool;
    (* [init]: the directory [logs] and both log files can be opened *)
  parses : bool;                       (* flag.Parse accepts the command line *)
  flag_from : string;                  (* --from *)
  flag_to : string;                    (* --to *)
  MONGO_URI : string;
  BEARER_TOKEN : string;
  connects : bool;                     (* mongo.Connect returns no error *)
  stored : option (list (string * string));
    (* the [id] and [description_hash] of every stored document; [None]
       when the scan of the collection fails *)
  disconnects : bool                   (* client.Disconnect returns no error *)
}.

(** How the process ends: with [os.Exit(1)] or one of the [Fatal] calls
    before the job is started ([Fatal]); inside [flag.Parse], which prints
    the usage and leaves with [os.Exit] ([Usage]); or after the count has
    been printed ([Printed]).  In the last case the deferred
    [client.Disconnect] still runs: when it fails, [errorLogger.Fatalf]
    ends the process with status 1, and [fatalOnDisconnect] is [true]. *)
Inductive Exit : Type :=
| Fatal
| Usage
| Printed (saved : Z) (fatalOnDisconnect : bool).

Definition loadExistingData (docs : list (string * string))
  : gset string * gset string :=
  foldl (λ acc doc,
           ({[doc.1]} ∪ acc.1,
            if decide (doc.2 = "") then acc.2 else {[doc.2]} ∪ acc.2))
        (∅, ∅) docs.

Definition main (inv : Invocation) (fuel : nat) : option Exit * World Msg :=
  let nothing := mkWorld ∅ ∅ 0 [] in
  if negb (logs_open inv) then (Some Fatal, nothing)
  else if negb (parses inv) then (Some Usage, nothing)
  else if decide (flag_from inv = "" ∨ flag_to inv = "") then (Some Fatal, nothing)
  else if decide (BEARER_TOKEN inv = "") then (Some Fatal, nothing)
  else if decide (MONGO_URI inv = "") then (Some Fatal, nothing)
  else if negb (connects inv) then (Some Fatal, nothing)
  else
    match stored inv with
    | None => (Some Fatal, nothing)
    | Some docs =>
        let '(existingVacancyIDs, existingDescriptionHashes) :=
          loadExistingData docs in
        let w :=
          say MsgJobStarted
            (say (MsgLoaded (size existingVacancyIDs)
                            (size existingDescriptionHashes))
                 (mkWorld existingVacancyIDs existingDescriptionHashes 0 [])) in
        match fetchAndStoreVacancies fuel w with
        | (None, w) => (None, w)
        | (Some err, w) =>
            let w :=
              match err with
              | Some _ => say MsgJobFailed w
              | None => say MsgJobCompleted w
              end in
            (Some (Printed (savedCount w) (negb (disconnects inv))), w)
        end
    end.

End Program.

End Monolith.

(** * The refactored program *)

Module Modular.

(** ** Errors

    The errors of the packages are built with [fmt.Errorf]; [%w] wraps an
    error, and [errors.Is] looks through the wrappers. *)
Inductive Text : Type :=
| TCreateRequest        (* "failed to create request: %w" *)
| THTTPRequest          (* "HTTP request failed: %w" *)
| TReadBody             (* "failed to read response body: %w" *)
| TParseJSON            (* "failed to parse JSON: %w" *)
| TNotFound             (* "vacancy not found: %w" *)
| TRateLimited          (* "rate limited: %w" *)
| TVacancyDetails       (* "failed to get vacancy details: %w" *)
| TInsertion.           (* "MongoDB insertion error: %w" *)

Inductive error : Type :=
| ErrVacancyNotFound                       (* api.ErrVacancyNotFound *)
| ErrRateLimited                           (* api.ErrRateLimited *)
| ErrForeign                               (* from net/http, io, json, mongo *)
| ErrCanceled                              (* ctx.Err() *)
| ErrUnexpectedStatus (code : Z)           (* "unexpected status code: %d" *)
| ErrInvalidDescription (vacancyID : string)
| Wrap (text : Text) (err : error).

#[global] Instance Text_eq_dec : EqDecision Text.
Proof. solve_decision. Defined.

#[global] Instance error_eq_dec : EqDecision error.
Proof. solve_decision. Defined.

Fixpoint errors_Is (err target : error) : bool :=
  if decide (err = target) then true
  else match err with
       | Wrap _ err => errors_Is err target
       | _ => false
       end.

(** Log lines; [MsgRetrying], [MsgFailed], [MsgPageFailed],
    [MsgProcessFailed] and [MsgJobFailed] go to [logger.Error], the others
    to [logger.Info]. *)
Inductive Msg : Type :=
| MsgNotFound (vacancyID : string)
| MsgDuplicate (vacancyID : string)
| MsgStored (vacancyID : string)
| MsgRetrying (vacancyID : string) (attempt maxRetries : Z) (err : error)
| MsgFailed (vacancyID : string) (maxRetries : Z) (err : error)
| MsgPageFailed (page : Z) (err : error)
| MsgTotalPages (totalPages : Z)
| MsgProcessingPage (page : Z) (new : nat)
| MsgProcessFailed (err : error)
| MsgJobStarted
| MsgJobFailed (err : error)
| MsgJobCompleted.

(** The outcome a log line announces for a key, if it is terminal. *)
Definition terminal (k : string) (m : Msg) : option FetchOutcome :=
  match m with
  | MsgStored k' => if decide (k' = k) then Some Stored else None
  | MsgDuplicate k' => if decide (k' = k) then Some SkippedDuplicate else None
  | MsgNotFound k' => if decide (k' = k) then Some SkippedNotFound else None
  | MsgFailed k' _ _ => if decide (k' = k) then Some Failed else None
  | _ => None
  end.

Definition outcomes (k : string) (t : list (Event Msg)) : list FetchOutcome :=
  omap (terminal k) (logged t).

Definition log (m : Msg) : Prog Msg unit := call (Log m).

(** ** Package [config] *)

Record AppConfig : Type := mkAppConfig {
  StartDate : string;
  EndDate : string;
  BearerToken : string;
  MongoURI : string;
  MaxRetries : Z;
  RetryDelay : Z;
  Concurrency : Z;
  PerPage : Z;
  Area : string;
  ProfessionalRole : string
}.

Definition LoadConfig (from to BEARER_TOKEN MONGO_URI : string) : AppConfig :=
  mkAppConfig from to BEARER_TOKEN MONGO_URI
              3 (10 * 1000000000) 10 100 "113" "96".

(** ** Package [api] *)

Module api.

Definition GetVacancyIDs (page : Z) : Prog Msg (list string * Z + error) :=
  let* resp := call (HttpSearch page) in
  match resp with
  | NewRequestError => Ret (inr (Wrap TCreateRequest ErrForeign))
  | TransportError => Ret (inr (Wrap THTTPRequest ErrForeign))
  | Response status body =>
      if negb (status =? http_StatusOK) then Ret (inr (ErrUnexpectedStatus status))
      else
        match body with
        | BodyUnreadable => Ret (inr (Wrap TReadBody ErrForeign))
        | BodyMalformed => Ret (inr (Wrap TParseJSON ErrForeign))
        | BodyJSON searchResp => Ret (inl (Items searchResp, Pages searchResp))
        end
  end.

Definition GetVacancyDetails (vacancyID : string) : Prog Msg (Doc + error) :=
  let* resp := call (HttpDetail vacancyID) in
  match resp with
  | NewRequestError => Ret (inr (Wrap TCreateRequest ErrForeign))
  | TransportError => Ret (inr (Wrap THTTPRequest ErrForeign))
  | Response status body =>
      if status =? http_StatusOK then
        match body with
        | BodyUnreadable => Ret (inr (Wrap TReadBody ErrForeign))
        | BodyMalformed => Ret (inr (Wrap TParseJSON ErrForeign))
        | BodyJSON data => Ret (inl data)
        end
      else if status =? http_StatusNotFound then
        Ret (inr (Wrap TNotFound ErrVacancyNotFound))
      else if (status =? http_StatusForbidden)
              || (status =? http_StatusTooManyRequests) then
        Ret (inr (Wrap TRateLimited ErrRateLimited))
      else Ret (inr (ErrUnexpectedStatus status))
  end.

End api.

(** ** Package [storage] *)

Module storage.

Definition LoadExistingData (docs : list (string * string))
  : gset string * gset string :=
  foldl (λ acc doc,
           ({[doc.1]} ∪ acc.1,
            if decide (doc.2 = "") then acc.2 else {[doc.2]} ∪ acc.2))
        (∅, ∅) docs.

Definition VacancyExists (id : string) (w : World Msg) : bool :=
  bool_decide (id ∈ vacancyIDs w).

Definition DescriptionHashExists (hash : string) : Prog Msg bool :=
  call (HashExists hash).

Definition AddDescriptionHash (hash : string) : Prog Msg unit :=
  call (HashAdd hash).

Definition UpsertVacancy (data : Doc) : Prog Msg (option error) :=
  let* ok := call (UpdateOne data) in
  Ret (if ok : bool then None else Some ErrForeign).

End storage.

(** ** Package [main] *)

Section Program.

(** [api.MD5Hash]: the hexadecimal MD5 digest of a text; any function does. *)
Variable MD5Hash : string → string.

Definition processVacancy (vacancyID : string) : Prog Msg (option error) :=
  let* got := api.GetVacancyDetails vacancyID in
  match got with
  | inr err =>
      if errors_Is err ErrVacancyNotFound then
        let* _ := log (MsgNotFound vacancyID) in Ret None
      else Ret (Some (Wrap TVacancyDetails err))
  | inl data =>
      match data !! "description" with
      | Some (JString description) =>
          if decide (description = "") then
            Ret (Some (ErrInvalidDescription vacancyID))
          else
            let descriptionHash := MD5Hash description in
            let* found := storage.DescriptionHashExists descriptionHash in
            if found : bool then
              let* _ := log (MsgDuplicate vacancyID) in Ret None
            else
              let data := <["description_hash" := JString descriptionHash]> data in
              let* err := storage.UpsertVacancy data in
              match err with
              | Some err => Ret (Some (Wrap TInsertion err))
              | None =>
                  let* _ := storage.AddDescriptionHash descriptionHash in
                  let* _ := call AddSaved in
                  let* _ := log (MsgStored vacancyID) in
                  Ret None
              end
      | _ => Ret (Some (ErrInvalidDescription vacancyID))
      end
  end.

(** The [for] loop in the goroutine of [fetchAndProcessVacancies]; [None]
    is only returned when the fuel runs out, which stands for a loop that
    has not come to its end. *)
Fixpoint retryLoop (fuel : nat) (maxRetries retryDelay : Z)
  (vacancyID : string) (retries : Z) : Prog Msg (option unit) :=
  match fuel with
  | O => Ret None
  | S fuel =>
      if retries <=? maxRetries then
        let* err := processVacancy vacancyID in
        match err with
        | None => Ret (Some tt)
        | Some err =>
            if retries <? maxRetries then
              let* _ :=
                log (MsgRetrying vacancyID (wrap64 (retries + 1)) maxRetries err) in
              let* _ := call (Sleep retryDelay) in
              retryLoop fuel maxRetries retryDelay vacancyID (wrap64 (retries + 1))
            else
              let* _ := log (MsgFailed vacancyID maxRetries err) in
              retryLoop fuel maxRetries retryDelay vacancyID (wrap64 (retries + 1))
        end
      else Ret (Some tt)
  end.

(** The goroutine up to its deferred calls.  The loop makes at most
    [maxRetries + 1] rounds, for which the fuel is enough, unless
    [maxRetries] is the largest [int]: then [retries <= maxRetries] holds
    for every value that [retries++] can reach, the loop of the program
    is left only when [processVacancy] returns [nil], and the model can
    run out of fuel.  A goroutine in that state keeps its slot and does
    not get to its deferred calls ([go_step]). *)
Definition worker (maxRetries retryDelay : Z) (vacancyID : string)
  : Prog Msg (option unit) :=
  retryLoop (Z.to_nat maxRetries + 2)%nat maxRetries retryDelay vacancyID 0.

Variable env : Env.

(** [fetchAndProcessVacancies] when the context is never cancelled and the
    goroutines happen to run one at a time, in the order of the slice. *)
Definition fetchAndProcessVacancies (ids : list string)
  (maxRetries retryDelay : Z) (w : World Msg) : option error * World Msg :=
  (None,
   foldl (λ w vacancyID, (interp env (worker maxRetries retryDelay vacancyID) w).2)
         w ids).

(** *** The worker pool of [fetchAndProcessVacancies] *)

Inductive Goroutine : Type :=
| GLoop (t : Thread Msg (option unit))  (* in the loop, holding a slot *)
| GDone                                 (* slot given back; [wg.Done()] due *)
| GExit.

Record PoolState : Type := mkPool {
  world : World Msg;
  sem : nat;                      (* len(sem) *)
  wg : nat;                       (* counter of the WaitGroup *)
  todo : list string;             (* what the [range] loop has left *)
  goroutines : list Goroutine;
  cancelled : bool;               (* ctx.Done() is closed *)
  returned : option (option error)
}.

Definition pool_start (ids : list string) (w : World Msg) : PoolState :=
  mkPool w 0 0 ids [] false None.

(** The scheduler picks the function itself, at its [select] with either
    of the two cases or at [wg.Wait()], or one of the goroutines; the
    context may be cancelled at any time. *)
Inductive Tick : Type :=
| Cancel
| MainDone       (* case <-ctx.Done() *)
| Main           (* case sem <- struct{}{}, and wg.Wait() *)
| Go (i : nat).

Definition cancel_step (s : PoolState) : PoolState :=
  mkPool (world s) (sem s) (wg s) (todo s) (goroutines s) true (returned s).

Definition done_step (s : PoolState) : PoolState :=
  match returned s, todo s with
  | None, _ :: _ =>
      if cancelled s
      then mkPool (world s) (sem s) (wg s) (todo s) (goroutines s) true
                  (Some (Some ErrCanceled))
      else s
  | _, _ => s
  end.

Definition main_step (maxRetries retryDelay : Z) (s : PoolState) : PoolState :=
  match returned s, todo s with
  | None, vacancyID :: rest =>
      if decide (sem s < 10)%nat
      then mkPool (world s) (S (sem s)) (S (wg s)) rest
             (goroutines s
                ++ [GLoop (Running (worker maxRetries retryDelay vacancyID))])
             (cancelled s) None
      else s
  | None, [] =>
      if decide (wg s = 0%nat)
      then mkPool (world s) (sem s) (wg s) [] (goroutines s) (cancelled s)
                  (Some None)
      else s
  | Some _, _ => s
  end.

Definition go_step (i : nat) (s : PoolState) : PoolState :=
  match goroutines s !! i with
  | Some (GLoop (Running (Ret (Some _)))) =>
      mkPool (world s) (pred (sem s)) (wg s) (todo s)
             (<[i := GDone]> (goroutines s)) (cancelled s) (returned s)
  | Some (GLoop (Running (Ret None))) => s
  | Some (GLoop t) =>
      let '(t', w') := thread_step env t (world s) in
      mkPool w' (sem s) (wg s) (todo s)
             (<[i := GLoop t']> (goroutines s)) (cancelled s) (returned s)
  | Some GDone =>
      mkPool (world s) (sem s) (pred (wg s)) (todo s)
             (<[i := GExit]> (goroutines s)) (cancelled s) (returned s)
  | Some GExit | None => s
  end.

Definition pool_step (maxRetries retryDelay : Z) (t : Tick) (s : PoolState)
  : PoolState :=
  match t with
  | Cancel => cancel_step s
  | MainDone => done_step s
  | Main => main_step maxRetries retryDelay s
  | Go i => go_step i s
  end.

Definition pool_run (maxRetries retryDelay : Z) (schedule : list Tick)
  (s : PoolState) : PoolState :=
  foldl (λ s t, pool_step maxRetries retryDelay t s) s schedule.

Definition holds_slot (g : Goroutine) : bool :=
  match g with
  | GLoop _ => true
  | _ => false
  end.

Definition holders (s : PoolState) : nat :=
  length (filter (λ g, holds_slot g = true) (goroutines s)).

Definition fetching (g : Goroutine) : bool :=
  match g with
  | GLoop t => in_flight t
  | _ => false
  end.

Definition inFlight (s : PoolState) : nat :=
  length (filter (λ g, fetching g = true) (goroutines s)).

(** *** The pagination loop *)

(** [details] stands for one complete execution of
    [fetchAndProcessVacancies], under whatever interleaving; [ctxDone w]
    tells whether the context is found cancelled when the run has come to
    [w]. *)
Variable details : list string → Z → Z → World Msg → option error * World Msg.
Variable ctxDone : World Msg → bool.

Definition say (m : Msg) (w : World Msg) : World Msg := emit (EvLog m) w.

(** The [for] loop of [fetchAndStoreVacancies]; [None] when the fuel runs
    out before the function returns. *)
Fixpoint pageLoop (cfg : AppConfig) (fuel : nat) (page totalPages : Z)
  (w : World Msg) : option (Z * option error) * World Msg :=
  match fuel with
  | O => (None, w)
  | S fuel =>
      if ctxDone w then (Some (savedCount w, Some ErrCanceled), w)
      else
        let '(got, w) := interp env (api.GetVacancyIDs page) w in
        match got with
        | inr err =>
            pageLoop cfg fuel (wrap64 (page + 1)) totalPages
                     (say (MsgPageFailed page err) w)
        | inl (vacancyIDs, pages) =>
            let '(totalPages, w) :=
              if page =? 0
              then (pages, say (MsgTotalPages pages) w)
              else (totalPages, w) in
            let newIDs :=
              filter (λ id, storage.VacancyExists id w = false) vacancyIDs in
            let w := say (MsgProcessingPage page (length newIDs)) w in
            let w :=
              if decide (0 < length newIDs)%nat then
                match details newIDs (MaxRetries cfg) (RetryDelay cfg) w with
                | (Some err, w) => say (MsgProcessFailed err) w
                | (None, w) => w
                end
              else w in
            if page >=? wrap64 (totalPages - 1)
            then (Some (savedCount w, None), w)
            else pageLoop cfg fuel (wrap64 (page + 1)) totalPages w
        end
  end.

Definition fetchAndStoreVacancies (cfg : AppConfig) (fuel : nat) (w : World Msg)
  : option (Z * option error) * World Msg :=
  pageLoop cfg fuel 0 0
           (mkWorld (vacancyIDs w) (descriptionHashes w) 0 (trace w)).

End Program.

(** [context.Background()] is never cancelled. *)
Definition Background : World Msg → bool := λ _, false.

(** *** The process *)

Record Invocation : Type := mkInvocation {
  parses : bool;                       (* flag.Parse accepts the command line *)
  flag_from : string;                  (* --from *)
  flag_to : string;                    (* --to *)
  MONGO_URI : string;
  BEARER_TOKEN : string;
  logs_open : bool;
    (* [logger.NewAppLogger]: the directory [logs] and both log files can
       be opened *)
  connects : bool;                     (* storage.NewMongoStore returns no error *)
  stored : option (list (string * string))
    (* the [id] and [description_hash] of every stored document; [None]
       when the scan of the collection fails *)
}.

(** How the process ends: with one of the [Fatal] calls before the job is
    started ([Fatal]); inside [flag.Parse], which prints the usage and
    leaves with [os.Exit] ([Usage]); or with a normal return after the
    count has been printed ([Printed]).  The error of the deferred
    [Disconnect] is not looked at. *)
Inductive Exit : Type :=
| Fatal
| Usage
| Printed (saved : Z).

Definition main (MD5Hash : string → string) (env : Env)
  (details : list string → Z → Z → World Msg → option error * World Msg)
  (inv : Invocation) (fuel : nat) : option Exit * World Msg :=
  let nothing := mkWorld ∅ ∅ 0 [] in
  let cfg :=
    LoadConfig (flag_from inv) (flag_to inv) (BEARER_TOKEN inv) (MONGO_URI inv) in
  if negb (parses inv) then (Some Usage, nothing)
  else if decide (StartDate cfg = "" ∨ EndDate cfg = "") then (Some Fatal, nothing)
  else if decide (BearerToken cfg = "") then (Some Fatal, nothing)
  else if decide (MongoURI cfg = "") then (Some Fatal, nothing)
  else if negb (logs_open inv) then (Some Fatal, nothing)
  else if negb (connects inv) then (Some Fatal, nothing)
  else
    match stored inv with
    | None => (Some Fatal, nothing)
    | Some docs =>
        let '(existingVacancyIDs, existingDescriptionHashes) :=
          storage.LoadExistingData docs in
        let w :=
          say MsgJobStarted
              (mkWorld existingVacancyIDs existingDescriptionHashes 0 []) in
        match fetchAndStoreVacancies env details Background cfg fuel w with
        | (None, w) => (None, w)
        | (Some (savedCount, err), w) =>
            let w :=
              match err with
              | Some err => say (MsgJobFailed err) w
              | None => say MsgJobCompleted w
              end in
            (Some (Printed savedCount), w)
        end
    end.

End Modular.

(** * Observations and worked inputs *)

(** The events that a run added to the trace between two worlds. *)
Definition since {Msg : Type} (w w' : World Msg) : list (Event Msg) :=
  drop (length (trace w)) (trace w').

(** A reply that the remote client classes as a transient failure: the
    transport failed, or the status is none of 200, 404, 403 and 429. *)
Definition transient (resp : Reply Doc) : bool :=
  match resp with
  | NewRequestError => false
  | TransportError => true
  | Response status _ =>
      negb ((status =? http_StatusOK) || (status =? http_StatusNotFound)
            || (status =? http_StatusForbidden)
            || (status =? http_StatusTooManyRequests))
  end.

(** A search request that brings back a page. *)
Definition page_ok (resp : Reply SearchPage) : bool :=
  match resp with
  | Response status (BodyJSON _) => status =? http_StatusOK
  | _ => false
  end.

(** A search request after which the single-file program goes on to the
    next page without looking at [totalPages]: no response at all, or a
    response with status 200 whose body cannot be read or parsed. *)
Definition page_lost (resp : Reply SearchPage) : bool :=
  match resp with
  | NewRequestError | TransportError => true
  | Response status BodyUnreadable | Response status BodyMalformed =>
      status =? http_StatusOK
  | Response _ (BodyJSON _) => false
  end.

(** A search request answered with a status other than 200. *)
Definition page_refused (resp : Reply SearchPage) : bool :=
  match resp with
  | Response status _ => negb (status =? http_StatusOK)
  | _ => false
  end.

(** Stands in for MD5 in the worked inputs. *)
Definition digest (text : string) : string := text.

Definition vacancy (id description : string) : Doc :=
  {[ "id" := JString id; "description" := JString description ]}.

(** A start-up at which nothing goes wrong, over a collection that holds
    the given documents. *)
Definition monolith_start (docs : list (string * string)) : Monolith.Invocation :=
  Monolith.mkInvocation true true "2024-01-01" "2024-01-02"
                        "mongodb://mongodb:27017" "token" true (Some docs) true.

Definition modular_start (docs : list (string * string)) : Modular.Invocation :=
  Modular.mkInvocation true "2024-01-01" "2024-01-02" "mongodb://mongodb:27017"
                       "token" true true (Some docs).

(** A collection that accepts every write. *)
Definition accepting : list (Doc * bool) → Doc → bool := λ _ _, true.

(** One page with the single key "2", whose description is already in the
    collection under key "1". *)
Definition env_duplicate : Env :=
  mkEnv (λ _, Response 200 (BodyJSON (mkSearchPage 1 ["2"])))
        (λ _ _, Response 200 (BodyJSON (vacancy "2" "hello")))
        accepting.

(** One page with the single key "7", whose description is the empty
    string. *)
Definition env_empty_description : Env :=
  mkEnv (λ _, Response 200 (BodyJSON (mkSearchPage 1 ["7"])))
        (λ _ _, Response 200 (BodyJSON (vacancy "7" "")))
        accepting.

(** Page 0 is lost on the wire; every later page arrives, lists no key
    and announces a single page. *)
Definition env_first_page_lost : Env :=
  mkEnv (λ page, if page =? 0 then TransportError
                 else Response 200 (BodyJSON (mkSearchPage 1 [])))
        (λ _ _, TransportError)
        accepting.


(** Three pages announced; the request for page 2 is lost on the wire. *)
Definition env_last_page_lost : Env :=
  mkEnv (λ page, if page =? 2 then TransportError
                 else Response 200 (BodyJSON (mkSearchPage 3 [])))
        (λ _ _, TransportError)
        accepting.

(** Keys "1" and "2" carry the same description. *)
Definition env_same_text : Env :=
  mkEnv (λ _, Response 200 (BodyJSON (mkSearchPage 1 ["1"; "2"])))
        (λ k _, Response 200 (BodyJSON (vacancy k "hello")))
        accepting.

(** Both goroutines look the hash up before either of them adds it. *)
Definition monolith_race : list Monolith.Tick :=
  [Monolith.Main; Monolith.Main;
   Monolith.Go 0; Monolith.Go 1;          (* both take a slot *)
   Monolith.Go 0; Monolith.Go 1;          (* both requests sent *)
   Monolith.Go 0; Monolith.Go 1;          (* both answered *)
   Monolith.Go 0; Monolith.Go 1;          (* both look the hash up *)
   Monolith.Go 0; Monolith.Go 0; Monolith.Go 0; Monolith.Go 0;
   Monolith.Go 0; Monolith.Go 0;
   Monolith.Go 1; Monolith.Go 1; Monolith.Go 1; Monolith.Go 1;
   Monolith.Go 1; Monolith.Go 1;
   Monolith.Main].

Definition modular_race : list Modular.Tick :=
  [Modular.Main; Modular.Main;            (* both dispatched *)
   Modular.Go 0; Modular.Go 1;            (* both requests sent *)
   Modular.Go 0; Modular.Go 1;            (* both answered *)
   Modular.Go 0; Modular.Go 1;            (* both look the hash up *)
   Modular.Go 0; Modular.Go 0; Modular.Go 0; Modular.Go 0;
   Modular.Go 0; Modular.Go 0;
   Modular.Go 1; Modular.Go 1; Modular.Go 1; Modular.Go 1;
   Modular.Go 1; Modular.Go 1;
   Modular.Main].

Definition empty_world {Msg : Type} : World Msg := mkWorld ∅ ∅ 0 [].

(** The invariant of the worker pools: the goroutines in the loop are
    exactly those that took a slot of the semaphore and have not given it
    back, and the channel never holds more than its capacity. *)
Definition monolith_pool_inv (s : Monolith.PoolState) : Prop :=
  Monolith.holders s = Monolith.sem s
  ∧ (Monolith.sem s ≤ Monolith.MaxConcurrency)%nat.

Definition modular_pool_inv (s : Modular.PoolState) : Prop :=
  Modular.holders s = Modular.sem s ∧ (Modular.sem s ≤ 10)%nat.

(** Programs that never ask for a search page. *)
Definition is_search {Msg X : Type} (act : Action Msg X) : bool :=
  match act with
  | HttpSearch _ => true
  | _ => false
  end.

Fixpoint quiet {Msg A : Type} (p : Prog Msg A) : Prop :=
  match p with
  | Ret _ => True
  | Do act k => is_search act = false ∧ ∀ x, quiet (k x)
  end.

Definition quiet_thread {Msg A : Type} (t : Thread Msg A) : Prop :=
  match t with
  | Running p => quiet p
  | Awaiting _ k => ∀ resp, quiet (k resp)
  end.

Definition monolith_quiet (g : Monolith.Goroutine) : Prop :=
  match g with
  | Monolith.GLoop t => quiet_thread t
  | _ => True
  end.

Definition modular_quiet (g : Modular.Goroutine) : Prop :=
  match g with
  | Modular.GLoop t => quiet_thread t
  | _ => True
  end.

(** What a run of the worker pool may do to the world, as far as the
    pagination loop can tell: it adds events, none of them a search
    request, and leaves the set of known keys alone. *)
Definition pool_effect {Msg : Type} (w w' : World Msg) : Prop :=
  vacancyIDs w' = vacancyIDs w
  ∧ ∃ t, trace w' = trace w ++ t ∧ searches t = [].

(** A world with more events on its trace. *)
Definition extend {Msg : Type} (w : World Msg) (t : list (Event Msg)) : World Msg :=
  mkWorld (vacancyIDs w) (descriptionHashes w) (savedCount w) (trace w ++ t).

(** The situation of a key that is answered at its third request: the
    first two requests fail in transit, the third brings a document whose
    description is a non-empty text that the hash set does not know yet,
    and the collection accepts the document. *)
Definition answered_at_third {Msg : Type} (md5Hash : string → string) (env : Env)
  (k : string) (doc : Doc) (description : string) (w : World Msg) : Prop :=
  transient (fetchDetail env k (attempts k (trace w))) = true
  ∧ transient (fetchDetail env k (S (attempts k (trace w)))) = true
  ∧ (fetchDetail env k (S (S (attempts k (trace w))))
     = Response http_StatusOK (BodyJSON doc))
  ∧ doc !! "description" = Some (JString description)
  ∧ description ≠ ""
  ∧ (md5Hash description ∉ descriptionHashes w)
  ∧ updateOne env (upserts (trace w))
              (<["description_hash" := JString (md5Hash description)]> doc)
    = true.

(** Two requests for key "1" time out, the third one is answered. *)
Definition env_third_time : Env :=
  mkEnv (λ _, TransportError)
        (λ k n, if (n <? 2)%nat then Response 500 BodyUnreadable
                else Response 200 (BodyJSON (vacancy k "hello")))
        accepting.

(** One page with the single key "8", whose document has no description
    at all. *)
Definition env_no_description : Env :=
  mkEnv (λ _, Response 200 (BodyJSON (mkSearchPage 1 ["8"])))
        (λ _ _, Response 200 (BodyJSON {[ "id" := JString "8" ]}))
        accepting.

(** The whole single-file program on a worked input, its goroutines
    running one at a time. *)
Definition monolith_run (env : Env) (docs : list (string * string)) (fuel : nat)
  : option Monolith.Exit * World Monolith.Msg :=
  Monolith.main env (Monolith.fetchVacancyDetails digest env)
                (monolith_start docs) fuel.

(** The whole refactored program, likewise. *)
Definition modular_run (env : Env) (docs : list (string * string)) (fuel : nat)
  : option Modular.Exit * World Modular.Msg :=
  Modular.main digest env (Modular.fetchAndProcessVacancies digest env)
               (modular_start docs) fuel.

(** Three pages, all of which arrive; none lists a key. *)
Definition env_three_pages : Env :=
  mkEnv (λ _, Response 200 (BodyJSON (mkSearchPage 3 [])))
        (λ _ _, TransportError)
        accepting.

(** Five pages; the request for page 0 is lost on the wire. *)
Definition env_first_of_five_lost : Env :=
  mkEnv (λ page, if page =? 0 then TransportError
                 else Response 200 (BodyJSON (mkSearchPage 5 [])))
        (λ _ _, TransportError)
        accepting.

(** The situation of a key that is accepted at its first request: the
    request brings a document whose description is a non-empty text that
    the hash set does not know yet, and the collection accepts the
    document. *)
Definition answered_at_once {Msg : Type} (md5Hash : string → string) (env : Env)
  (k : string) (doc : Doc) (description : string) (w : World Msg) : Prop :=
  (fetchDetail env k (attempts k (trace w))
   = Response http_StatusOK (BodyJSON doc))
  ∧ doc !! "description" = Some (JString description)
  ∧ description ≠ ""
  ∧ (md5Hash description ∉ descriptionHashes w)
  ∧ updateOne env (upserts (trace w))
              (<["description_hash" := JString (md5Hash description)]> doc)
    = true.

(** The documents that a history of calls has left in the collection: an
    accepted document replaces the one with the same ["id"]. *)
Definition collection (history : list (Doc * bool)) : list Doc :=
  foldl (λ docs call,
           if call.2 : bool
           then call.1 :: filter (λ d, d !! "id" ≠ call.1 !! "id") docs
           else docs)
        [] history.

(** A collection with the unique index on ["description_hash"] that
    [init-mongo.js] creates: a document is refused when another document
    holds its hash. *)
Definition unique_index : list (Doc * bool) → Doc → bool :=
  λ history data,
    forallb (λ d, bool_decide (d !! "id" = data !! "id")
                  || negb (bool_decide (d !! "description_hash"
                                        = data !! "description_hash")))
            (collection history).

(** Keys "1" and "2" carry the same description, over the indexed
    collection. *)
Definition env_same_text_indexed : Env :=
  mkEnv (λ _, Response 200 (BodyJSON (mkSearchPage 1 ["1"; "2"])))
        (λ k _, Response 200 (BodyJSON (vacancy k "hello")))
        unique_index.

(** Goroutine 0 writes its document and then stalls before it adds the
    hash; goroutine 1 meanwhile uses up all its attempts; goroutine 0
    finishes last. *)
Definition monolith_stall : list Monolith.Tick :=
  [Monolith.Main; Monolith.Main; Monolith.Go 0; Monolith.Go 1]
  ++ repeat (Monolith.Go 0) 4
  ++ repeat (Monolith.Go 1) 40
  ++ repeat (Monolith.Go 0) 10
  ++ [Monolith.Main].

Definition modular_stall : list Modular.Tick :=
  [Modular.Main; Modular.Main]
  ++ repeat (Modular.Go 0) 4
  ++ repeat (Modular.Go 1) 40
  ++ repeat (Modular.Go 0) 10
  ++ [Modular.Main].

(** What the events of a run say when, of two keys, the first was stored
    and the second was skipped as a duplicate: one request for each, and a
    single write, of the first key's document. *)
Definition one_stored_one_skipped {Msg : Type}
  (outcomes : string → list (Event Msg) → list FetchOutcome)
  (first second : string) (data : Doc) (t : list (Event Msg)) : Prop :=
  outcomes first t = [Stored]
  ∧ outcomes second t = [SkippedDuplicate]
  ∧ upserts t = [(data, true)]
  ∧ fetches t = [first; second].

(** Twelve keys for a pool of ten. *)
Definition twelve_keys : list string :=
  ["a"; "b"; "c"; "d"; "e"; "f"; "g"; "h"; "i"; "j"; "k"; "l"].

(** All twelve goroutines of the single-file program are started and each
    tries once to take a slot. *)
Definition monolith_rush : list Monolith.Tick :=
  repeat Monolith.Main 12 ++ (Monolith.Go <$> seq 0 12).

(** The refactored program tries twelve times to start a goroutine. *)
Definition modular_rush : list Modular.Tick := repeat Modular.Main 12.
(** * Further observations *)

(** Number of writes that the collection accepted. *)
Definition written {Msg : Type} (t : list (Event Msg)) : nat :=
  length (filter (λ c, c.2 = true) (upserts t)).

(** The line by which the single-file program reports that it skipped a
    key as a duplicate. *)
Definition is_duplicate_line (m : Monolith.Msg) : bool :=
  match m with
  | Monolith.MsgDuplicate _ => true
  | _ => false
  end.

(** Number of keys that the single-file program skipped as duplicates. *)
Definition skipped_duplicates (t : list (Event Monolith.Msg)) : nat :=
  length (filter (λ m, is_duplicate_line m = true) (logged t)).

(** A document that carries the hash of its own description. *)
Definition hashed (md5Hash : string → string) (data : Doc) : Prop :=
  ∃ description,
    data !! "description" = Some (JString description)
    ∧ data !! "description_hash" = Some (JString (md5Hash description)).

(** An action shows on the trace as an event of a given kind, whatever
    its result. *)
Definition shows {Msg X : Type} (P : Event Msg → Prop) (act : Action Msg X)
  : Prop :=
  match act with
  | HttpSearch page => P (EvSearch page)
  | HttpDetail k => P (EvFetch k)
  | HashExists h => ∀ found, P (EvExists h found)
  | HashAdd h => P (EvAdd h)
  | UpdateOne data => ∀ ok, P (EvUpsert data ok)
  | AddSaved => P EvSaved
  | Sleep d => P (EvSleep d)
  | Log m => P (EvLog m)
  end.

(** Programs all of whose actions show as events of a given kind. *)
Fixpoint emits_only {Msg A : Type} (P : Event Msg → Prop) (p : Prog Msg A)
  : Prop :=
  match p with
  | Ret _ => True
  | Do act k => shows P act ∧ ∀ x, emits_only P (k x)
  end.

(** The same for a goroutine, also while its request is on the wire. *)
Definition thread_emits_only {Msg A : Type} (P : Event Msg → Prop)
  (t : Thread Msg A) : Prop :=
  match t with
  | Running p => emits_only P p
  | Awaiting _ k => ∀ resp, emits_only P (k resp)
  end.

(** What any piece of either program may do to the world: it leaves the
    set of known keys alone, it only adds to the set of known hashes, and
    it only adds events, here of a given kind. *)
Definition evolves {Msg : Type} (P : Event Msg → Prop) (w w' : World Msg)
  : Prop :=
  vacancyIDs w' = vacancyIDs w
  ∧ descriptionHashes w ⊆ descriptionHashes w'
  ∧ ∃ t, trace w' = trace w ++ t ∧ Forall P t.

(** The events of a worker pool of the single-file program that was
    given the keys [ids]. *)
Definition monolith_pool_event (md5Hash : string → string) (ids : list string)
  (e : Event Monolith.Msg) : Prop :=
  match e with
  | EvSearch _ => False
  | EvFetch k => k ∈ ids
  | EvUpsert data _ => hashed md5Hash data
  | EvSleep d => d = Monolith.RetryDelay
  | _ => True
  end.

(** The same for the refactored program: the description of a document
    that is written is moreover not empty. *)
Definition modular_pool_event (MD5Hash : string → string) (retryDelay : Z)
  (ids : list string) (e : Event Modular.Msg) : Prop :=
  match e with
  | EvSearch _ => False
  | EvFetch k => k ∈ ids
  | EvUpsert data _ =>
      hashed MD5Hash data ∧ data !! "description" ≠ Some (JString "")
  | EvSleep d => d = retryDelay
  | _ => True
  end.

(** The same for the goroutines of the pools, whatever they have still
    to run. *)
Definition monolith_goroutine_emits (md5Hash : string → string)
  (P : Event Monolith.Msg → Prop) (g : Monolith.Goroutine) : Prop :=
  match g with
  | Monolith.GSend k => emits_only P (Monolith.worker md5Hash k)
  | Monolith.GLoop t => thread_emits_only P t
  | _ => True
  end.

Definition modular_goroutine_emits (P : Event Modular.Msg → Prop)
  (g : Modular.Goroutine) : Prop :=
  match g with
  | Modular.GLoop t => thread_emits_only P t
  | _ => True
  end.

(** The lines that the pagination loop of the single-file program
    writes itself. *)
Definition is_page_line (m : Monolith.Msg) : bool :=
  match m with
  | Monolith.MsgPageCreateRequest _ | Monolith.MsgPageFetch _
  | Monolith.MsgPageReadBody _ | Monolith.MsgPageParseJSON _
  | Monolith.MsgTotalPages _ | Monolith.MsgProcessingPage _ _
  | Monolith.MsgPageHTTPError _ _ | Monolith.MsgPageUnexpectedStatus _ _ => true
  | _ => false
  end.

(** The lines of [error.log] by which the pagination loop of the
    single-file program reports that the request for a page has failed. *)
Definition monolith_page_failure (page : Z) (m : Monolith.Msg) : bool :=
  match m with
  | Monolith.MsgPageCreateRequest p | Monolith.MsgPageFetch p
  | Monolith.MsgPageReadBody p | Monolith.MsgPageParseJSON p
  | Monolith.MsgPageHTTPError p _ | Monolith.MsgPageUnexpectedStatus _ p =>
      p =? page
  | _ => false
  end.

(** The detail requests of a trace follow the pages: each of them is for
    a key that is not among [known] and that is listed by a search page
    which has arrived, the request for that page being among [seen] or
    earlier on the trace. *)
Fixpoint follows_pages {Msg : Type} (env : Env) (known : gset string)
  (seen : list Z) (t : list (Event Msg)) : Prop :=
  match t with
  | [] => True
  | EvSearch page :: t => follows_pages env known (page :: seen) t
  | EvFetch k :: t =>
      ((k ∉ known)
       ∧ ∃ page sp,
           page ∈ seen
           ∧ searchPage env page = Response http_StatusOK (BodyJSON sp)
           ∧ k ∈ Items sp)
      ∧ follows_pages env known seen t
  | _ :: t => follows_pages env known seen t
  end.

(** The counter follows a tally of the events: it has gone up, modulo
    2^64, by what the tally gives for the events since. *)
Definition counts {Msg : Type} (weight : list (Event Msg) → nat)
  (w w' : World Msg) : Prop :=
  in_int64 (savedCount w) →
  in_int64 (savedCount w')
  ∧ ∃ t, trace w' = trace w ++ t
         ∧ savedCount w' = wrap64 (savedCount w + Z.of_nat (weight t)).

(** What the single-file program counts: the writes that the collection
    accepted and the keys skipped as duplicates. *)
Definition monolith_weight (t : list (Event Monolith.Msg)) : nat :=
  (written t + skipped_duplicates t)%nat.

(** Goroutines that have not yet called [wg.Done()]. *)
Definition monolith_active (g : Monolith.Goroutine) : bool :=
  match g with
  | Monolith.GExit => false
  | _ => true
  end.

(** The same for the refactored program. *)
Definition modular_active (g : Modular.Goroutine) : bool :=
  match g with
  | Modular.GExit => false
  | _ => true
  end.

(** The counter of the WaitGroup is the number of goroutines that have
    not called [wg.Done()]; one goroutine is started for every key that
    the [range] loop has passed; and the function returns only once the
    loop is over and the counter is zero. *)
Definition monolith_wait_inv (n : nat) (s : Monolith.PoolState) : Prop :=
  Monolith.wg s
  = length (filter (λ g, monolith_active g = true) (Monolith.goroutines s))
  ∧ (length (Monolith.goroutines s) + length (Monolith.todo s) = n)%nat
  ∧ (Monolith.returned s = true → Monolith.todo s = [] ∧ Monolith.wg s = 0%nat).

(** The same for the refactored program, whose function may also return
    the error of the context, when the context is cancelled while a key
    waits for its goroutine. *)
Definition modular_wait_inv (n : nat) (s : Modular.PoolState) : Prop :=
  Modular.wg s
  = length (filter (λ g, modular_active g = true) (Modular.goroutines s))
  ∧ (length (Modular.goroutines s) + length (Modular.todo s) = n)%nat
  ∧ match Modular.returned s with
    | None => True
    | Some None => Modular.todo s = [] ∧ Modular.wg s = 0%nat
    | Some (Some err) =>
        err = Modular.ErrCanceled ∧ Modular.cancelled s = true
        ∧ Modular.todo s ≠ []
    end.

(** Replies to a request that was sent, after which [processVacancy] of
    the single-file program returns [ErrRetryable] without having looked
    at the document: no response, a body that cannot be read, or a status
    other than 200 and 404, among them 403 and 429. *)
Definition monolith_retried (resp : Reply Doc) : bool :=
  match resp with
  | NewRequestError => false
  | TransportError => true
  | Response status body =>
      if status =? http_StatusOK then
        match body with
        | BodyUnreadable => true
        | _ => false
        end
      else negb (status =? http_StatusNotFound)
  end.

(** Replies to a request that was sent, after which [processVacancy] of
    the refactored program returns an error without having looked at the
    store: any reply but a 404, and but a document whose description is a
    text that is not empty. *)
Definition modular_retried (resp : Reply Doc) : bool :=
  match resp with
  | NewRequestError => false
  | TransportError => true
  | Response status body =>
      if status =? http_StatusOK then
        match body with
        | BodyJSON data =>
            match data !! "description" with
            | Some (JString description) => bool_decide (description = "")
            | _ => true
            end
        | _ => true
        end
      else negb (status =? http_StatusNotFound)
  end.

(** A document that [processVacancy] of the single-file program gives up
    on: the body does not parse, or the description is missing or is not
    a text. *)
Definition monolith_unusable (resp : Reply Doc) : bool :=
  match resp with
  | Response status BodyMalformed => status =? http_StatusOK
  | Response status (BodyJSON data) =>
      (status =? http_StatusOK)
      && match data !! "description" with
         | Some (JString _) => false
         | _ => true
         end
  | _ => false
  end.

(** Where a goroutine gets to when it is left to run and no slot is
    handed out: from the loop, or past it, to its end; a goroutine at
    [sem <- struct{}{}] stays where it is. *)
Definition monolith_settle (g : Monolith.Goroutine) : Monolith.Goroutine :=
  match g with
  | Monolith.GSend k => Monolith.GSend k
  | _ => Monolith.GExit
  end.

(** What the moves of the goroutines leave alone: the [range] loop and
    the return of the function. *)
Definition monolith_same_call (s s' : Monolith.PoolState) : Prop :=
  Monolith.todo s' = Monolith.todo s
  ∧ Monolith.returned s' = Monolith.returned s.

(** What the moves of the goroutines of the refactored program leave
    alone: the [range] loop and the return of the function. *)
Definition modular_same_call (s s' : Modular.PoolState) : Prop :=
  Modular.todo s' = Modular.todo s
  ∧ Modular.returned s' = Modular.returned s.

(** Programs whose loop comes to its end: no way through them ends in
    [None], for want of fuel. *)
Fixpoint ends {Msg A : Type} (p : Prog Msg (option A)) : Prop :=
  match p with
  | Ret a => is_Some a
  | Do act k => ∀ x, ends (k x)
  end.

(** The same for a goroutine, also while its request is on the wire. *)
Definition thread_ends {Msg A : Type} (t : Thread Msg (option A)) : Prop :=
  match t with
  | Running p => ends p
  | Awaiting _ k => ∀ resp, ends (k resp)
  end.

Definition modular_goroutine_ends (g : Modular.Goroutine) : Prop :=
  match g with
  | Modular.GLoop t => thread_ends t
  | _ => True
  end.

(** The requests for details and the sleeps of a trace, in the order in
    which they happened. *)
Definition pace {Msg : Type} (t : list (Event Msg)) : list (string + Z) :=
  omap (λ e, match e with
             | EvFetch k => Some (inl k)
             | EvSleep d => Some (inr d)
             | _ => None
             end) t.

(** The request for a key brings a document whose description is a text
    that is not empty. *)
Definition brings {Msg : Type} (env : Env) (k : string) (doc : Doc)
  (description : string) (w : World Msg) : Prop :=
  (fetchDetail env k (attempts k (trace w))
   = Response http_StatusOK (BodyJSON doc))
  ∧ doc !! "description" = Some (JString description)
  ∧ description ≠ "".

(** What the events of a run say when two keys were both skipped as
    duplicates: one request for each, and no write. *)
Definition both_skipped {Msg : Type}
  (outcomes : string → list (Event Msg) → list FetchOutcome)
  (first second : string) (t : list (Event Msg)) : Prop :=
  outcomes first t = [SkippedDuplicate]
  ∧ outcomes second t = [SkippedDuplicate]
  ∧ upserts t = []
  ∧ fetches t = [first; second].

(** * Facts about the runtime *)

Section ListFacts.

Context {A : Type}.
Implicit Types (f : A → bool) (l : list A).

(** Replacing one element changes a count by what the old and the new
    element contribute. *)
Lemma count_insert f l (i : nat) (x y : A) :
  l !! i = Some x →
  (length (filter (λ a, f a = true) (<[i := y]> l)) + (if f x then 1 else 0)
   = length (filter (λ a, f a = true) l) + (if f y then 1 else 0))%nat.
Proof.
  revert i. induction l as [|a l IH]; intros i Hi; [done|].
  destruct i as [|i]; simpl in *.
  - injection Hi as ->. rewrite !filter_cons.
    destruct (f x), (f y); simpl; repeat case_decide; simpl; try done; lia.
  - specialize (IH i Hi). rewrite !filter_cons.
    case_decide; simpl; lia.
Qed.

Lemma count_app f l1 l2 :
  length (filter (λ a, f a = true) (l1 ++ l2))
  = (length (filter (λ a, f a = true) l1)
     + length (filter (λ a, f a = true) l2))%nat.
Proof. by rewrite filter_app, length_app. Qed.

Lemma count_le f g l :
  (∀ a, f a = true → g a = true) →
  (length (filter (λ a, f a = true) l)
   ≤ length (filter (λ a, g a = true) l))%nat.
Proof.
  intros Hfg. induction l as [|a l IH]; [done|].
  rewrite !filter_cons. repeat case_decide; simpl; try lia.
  exfalso. auto.
Qed.

Lemma count_pos f l (i : nat) (x : A) :
  l !! i = Some x → f x = true →
  (0 < length (filter (λ a, f a = true) l))%nat.
Proof.
  revert i. induction l as [|a l IH]; intros i Hi Hx; [done|].
  rewrite filter_cons. destruct i as [|i]; simpl in *.
  - injection Hi as ->. rewrite decide_True by done. simpl. lia.
  - case_decide; simpl; [lia|]. by eapply IH.
Qed.

End ListFacts.

(** * Facts about programs and traces *)

Section RuntimeFacts.

Context {Msg : Type}.
Variable env : Env.

Implicit Types (w : World Msg) (t : list (Event Msg)).

Lemma interp_bind {A B : Type} (p : Prog Msg A) (f : A → Prog Msg B) w :
  interp env (bind p f) w
  = let '(a, w') := interp env p w in interp env (f a) w'.
Proof.
  revert w. induction p as [a|X act k IH]; intros w; simpl; [done|].
  destruct (perform env act w) as [x w']. apply IH.
Qed.

Lemma since_app w w' t : trace w' = trace w ++ t → since w w' = t.
Proof. intros H. unfold since. by rewrite H, drop_app_length. Qed.

Lemma attempts_app (k : string) t1 t2 :
  attempts k (t1 ++ t2) = (attempts k t1 + attempts k t2)%nat.
Proof. unfold attempts, fetches. by rewrite omap_app, filter_app, length_app. Qed.

Lemma pool_effect_refl w : pool_effect w w.
Proof. split; [done|]. exists []. by rewrite app_nil_r. Qed.

Lemma pool_effect_trans w1 w2 w3 :
  pool_effect w1 w2 → pool_effect w2 w3 → pool_effect w1 w3.
Proof.
  intros [Hv1 (t1 & Ht1 & Hs1)] [Hv2 (t2 & Ht2 & Hs2)].
  split; [congruence|]. exists (t1 ++ t2). split.
  - by rewrite Ht2, Ht1, app_assoc.
  - unfold searches in *. by rewrite omap_app, Hs1, Hs2.
Qed.

Lemma perform_effect {X : Type} (act : Action Msg X) w :
  is_search act = false → pool_effect w (perform env act w).2.
Proof.
  intros Hq. destruct act; try discriminate Hq;
    (split; [done|]; eexists [_]; split; [reflexivity|done]).
Qed.

Lemma interp_effect {A : Type} (p : Prog Msg A) w :
  quiet p → pool_effect w (interp env p w).2.
Proof.
  revert w. induction p as [a|X act k IH]; intros w Hq; simpl.
  - apply pool_effect_refl.
  - destruct Hq as [Hact Hk].
    pose proof (perform_effect act w Hact) as Hp.
    destruct (perform env act w) as [x w']. simpl in Hp.
    eapply pool_effect_trans; [exact Hp | by apply IH].
Qed.

Lemma quiet_Ret {A : Type} (a : A) : quiet (Ret (Msg := Msg) a).
Proof. done. Qed.

Lemma quiet_bind {A B : Type} (p : Prog Msg A) (f : A → Prog Msg B) :
  quiet p → (∀ a, quiet (f a)) → quiet (bind p f).
Proof.
  intros Hp Hf. induction p as [a|X act k IH]; simpl; [apply Hf|].
  destruct Hp as [Hact Hk]. split; [done|]. intros x. by apply IH.
Qed.

Lemma quiet_call {X : Type} (act : Action Msg X) :
  is_search act = false → quiet (call act).
Proof. intros Hact. split; [done|]. by intros x. Qed.

(** One move of a goroutine is a pool effect and leaves the goroutine
    quiet. *)
Lemma thread_step_effect {A : Type} (t : Thread Msg A) w :
  quiet_thread t →
  pool_effect w (thread_step env t w).2 ∧ quiet_thread (thread_step env t w).1.
Proof.
  intros Hq. destruct t as [[a|X act k]|resp k].
  - split; [apply pool_effect_refl | done].
  - destruct Hq as [Hact Hk].
    destruct act; try discriminate Hact; simpl;
      (split; [|by try apply Hk]);
      (split; [done|]; eexists [_]; split; [reflexivity|done]).
  - split; [apply pool_effect_refl | apply Hq].
Qed.

Lemma pool_effect_searches w w' page :
  pool_effect (emit (EvSearch page) w) w' →
  searches (trace w') = searches (trace w) ++ [page].
Proof.
  intros [_ (t & Ht & Hs)]. unfold searches in *. rewrite Ht. simpl.
  by rewrite !omap_app, Hs, app_nil_r.
Qed.

Lemma pool_effect_emit_log w w' (m : Msg) :
  pool_effect w w' → pool_effect w (emit (EvLog m) w').
Proof.
  intros H. eapply pool_effect_trans; [exact H|].
  split; [done|]. by exists [EvLog m].
Qed.

End RuntimeFacts.

(** * The worker pools *)

Section MonolithPool.

Import Monolith.

Variable md5Hash : string → string.
Variable env : Env.

Implicit Types (s : PoolState) (schedule : list Tick).

Lemma monolith_inv_start ids w : monolith_pool_inv (pool_start ids w).
Proof. split; [done | unfold MaxConcurrency; simpl; lia]. Qed.

Lemma monolith_inv_main s : monolith_pool_inv s → monolith_pool_inv (main_step s).
Proof.
  intros [Hh Hs]. unfold main_step.
  destruct (todo s) as [|k rest].
  - case_decide; [split|]; done.
  - split; [|done]. unfold holders in *. simpl.
    rewrite count_app. simpl. rewrite Hh. simpl. lia.
Qed.

Lemma monolith_inv_go i s :
  monolith_pool_inv s → monolith_pool_inv (go_step md5Hash env i s).
Proof.
  intros [Hh Hs]. unfold go_step.
  destruct (goroutines s !! i) as [g|] eqn:Hi; [|done].
  destruct g as [k|t| |].
  - case_decide; [|done]. split; [|simpl; lia].
    unfold holders in *. simpl.
    pose proof (count_insert holds_slot _ i _
                  (GLoop (Running (worker md5Hash k))) Hi) as Hc.
    simpl in Hc. lia.
  - assert (Hpos : (0 < holders s)%nat)
      by (eapply count_pos; [exact Hi | done]).
    destruct t as [p|resp k].
    + destruct p as [a|X act k].
      * split; [|simpl; lia]. unfold holders in *. simpl.
        pose proof (count_insert holds_slot _ i _ GDone Hi) as Hc.
        simpl in Hc. lia.
      * destruct (thread_step env (Running (Do act k)) (world s)) as [t' w'].
        split; [|done]. unfold holders in *. simpl.
        pose proof (count_insert holds_slot _ i _ (GLoop t') Hi) as Hc.
        simpl in Hc. lia.
    + simpl. split; [|done]. unfold holders in *. simpl.
      pose proof (count_insert holds_slot _ i _
                    (GLoop (Running (k resp))) Hi) as Hc.
      simpl in Hc. lia.
  - split; [|done]. unfold holders in *. simpl.
    pose proof (count_insert holds_slot _ i _ GExit Hi) as Hc.
    simpl in Hc. lia.
  - done.
Qed.

Lemma monolith_inv_run schedule s :
  monolith_pool_inv s → monolith_pool_inv (pool_run md5Hash env schedule s).
Proof.
  revert s. induction schedule as [|t schedule IH]; intros s Hs; [done|].
  simpl. apply IH.
  destruct t; [by apply monolith_inv_main | by apply monolith_inv_go].
Qed.

Lemma monolith_inFlight_holders s : (inFlight s ≤ holders s)%nat.
Proof. apply count_le. by intros [ |[]| |]. Qed.

(** A goroutine at [sem <- struct{}{}] stays there while the channel is
    full, and enters the loop as soon as it is not. *)
Lemma monolith_send_blocks i k s :
  goroutines s !! i = Some (GSend k) →
  sem s = MaxConcurrency →
  go_step md5Hash env i s = s.
Proof.
  intros Hi Hfull. unfold go_step. rewrite Hi.
  rewrite decide_False by lia. done.
Qed.

Lemma monolith_send_enters i k s :
  goroutines s !! i = Some (GSend k) →
  (sem s < MaxConcurrency)%nat →
  goroutines (go_step md5Hash env i s) !! i
  = Some (GLoop (Running (worker md5Hash k)))
  ∧ sem (go_step md5Hash env i s) = S (sem s).
Proof.
  intros Hi Hroom. unfold go_step. rewrite Hi.
  rewrite decide_True by done. simpl. split; [|done].
  apply list_lookup_insert_eq. by eapply lookup_lt_Some.
Qed.

End MonolithPool.

Section ModularPool.

Import Modular.

Variable MD5Hash : string → string.
Variable env : Env.
Variables maxRetries retryDelay : Z.

Implicit Types (s : PoolState) (schedule : list Tick).

Lemma modular_inv_start ids w : modular_pool_inv (pool_start ids w).
Proof. split; [done | simpl; lia]. Qed.

Lemma modular_inv_main s :
  modular_pool_inv s →
  modular_pool_inv (main_step MD5Hash maxRetries retryDelay s).
Proof.
  intros [Hh Hs]. unfold main_step.
  destruct (returned s); [done|].
  destruct (todo s) as [|k rest].
  - case_decide; [split|]; done.
  - case_decide; [|done]. split; [|simpl; lia].
    unfold holders in *. simpl.
    rewrite count_app. simpl. rewrite Hh. simpl. lia.
Qed.

Lemma modular_inv_go i s :
  modular_pool_inv s → modular_pool_inv (go_step env i s).
Proof.
  intros [Hh Hs]. unfold go_step.
  destruct (goroutines s !! i) as [g|] eqn:Hi; [|done].
  destruct g as [t| |].
  - assert (Hpos : (0 < holders s)%nat)
      by (eapply count_pos; [exact Hi | done]).
    destruct t as [p|resp k].
    + destruct p as [[a|]|X act k].
      * split; [|simpl; lia]. unfold holders in *. simpl.
        pose proof (count_insert holds_slot _ i _ GDone Hi) as Hc.
        simpl in Hc. lia.
      * done.
      * destruct (thread_step env (Running (Do act k)) (world s)) as [t' w'].
        split; [|done]. unfold holders in *. simpl.
        pose proof (count_insert holds_slot _ i _ (GLoop t') Hi) as Hc.
        simpl in Hc. lia.
    + simpl. split; [|done]. unfold holders in *. simpl.
      pose proof (count_insert holds_slot _ i _
                    (GLoop (Running (k resp))) Hi) as Hc.
      simpl in Hc. lia.
  - split; [|done]. unfold holders in *. simpl.
    pose proof (count_insert holds_slot _ i _ GExit Hi) as Hc.
    simpl in Hc. lia.
  - done.
Qed.

Lemma modular_inv_run schedule s :
  modular_pool_inv s →
  modular_pool_inv (pool_run MD5Hash env maxRetries retryDelay schedule s).
Proof.
  revert s. induction schedule as [|t schedule IH]; intros s Hs; [done|].
  simpl. apply IH. destruct t.
  - done.
  - unfold pool_step, done_step.
    destruct (returned s), (todo s), (cancelled s); done.
  - by apply modular_inv_main.
  - by apply modular_inv_go.
Qed.

Lemma modular_inFlight_holders s : (inFlight s ≤ holders s)%nat.
Proof. apply count_le. by intros [[]| |]. Qed.

(** The [select] cannot take its send case while the channel is full, and
    starts a goroutine as soon as it is not. *)
Lemma modular_send_blocks k rest s :
  returned s = None → todo s = k :: rest → sem s = 10%nat →
  main_step MD5Hash maxRetries retryDelay s = s.
Proof.
  intros Hr Ht Hfull. unfold main_step. rewrite Hr, Ht.
  rewrite decide_False by lia. done.
Qed.

Lemma modular_send_enters k rest s :
  returned s = None → todo s = k :: rest → (sem s < 10)%nat →
  let s' := main_step MD5Hash maxRetries retryDelay s in
  goroutines s'
  = goroutines s ++ [GLoop (Running (worker MD5Hash maxRetries retryDelay k))]
  ∧ sem s' = S (sem s) ∧ todo s' = rest.
Proof.
  intros Hr Ht Hroom. unfold main_step. rewrite Hr, Ht.
  rewrite decide_True by done. done.
Qed.

End ModularPool.

(** * The serial run is one of the runs of the pool *)

Section MonolithSerial.

Import Monolith.

Variable md5Hash : string → string.
Variable env : Env.

Implicit Types (s : PoolState) (w : World Msg).

Lemma monolith_run_app sched1 sched2 s :
  pool_run md5Hash env (sched1 ++ sched2) s
  = pool_run md5Hash env sched2 (pool_run md5Hash env sched1 s).
Proof. apply foldl_app. Qed.

Lemma monolith_run_cons t sched s :
  pool_run md5Hash env (t :: sched) s
  = pool_run md5Hash env sched (pool_step md5Hash env t s).
Proof. done. Qed.

(** The function starts one goroutine for each key. *)
Lemma monolith_spawn_all ids w n gs :
  pool_run md5Hash env (repeat Main (length ids)) (mkPool w 0 n ids gs false)
  = mkPool w 0 (n + length ids) [] (gs ++ (GSend <$> ids)) false.
Proof.
  revert n gs. induction ids as [|k ids IH]; intros n gs.
  - simpl. by rewrite Nat.add_0_r, app_nil_r.
  - cbn [length repeat]. rewrite monolith_run_cons. cbn [pool_step].
    unfold main_step at 1. cbn [todo world sem wg goroutines returned].
    rewrite IH. cbn [fmap list_fmap length]. f_equal; [lia|].
    by rewrite <- app_assoc.
Qed.

(** A goroutine that is alone on the processor runs its program as
    [interp] does. *)
Lemma monolith_goroutine_runs (p : Prog Msg (option unit)) :
  ∀ w n m gs (i : nat),
    gs !! i = Some (GLoop (Running p)) →
    pool_run md5Hash env (repeat (Go i) (moves env p w))
             (mkPool w n m [] gs false)
    = mkPool (interp env p w).2 n m []
             (<[i := GLoop (Running (Ret (interp env p w).1))]> gs) false.
Proof.
  induction p as [a|X act k IH]; intros w n m gs i Hi.
  - simpl. by rewrite list_insert_id.
  - assert (Hlt : (i < length gs)%nat) by (by eapply lookup_lt_Some).
    cbn [moves interp].
    destruct act;
      cbn [perform]; cbn [repeat]; rewrite monolith_run_cons; cbn [pool_step];
      unfold go_step at 1; cbn [goroutines]; rewrite Hi;
      cbn [thread_step perform world sem wg todo goroutines returned];
      try (rewrite IH by (by apply list_lookup_insert_eq);
           by rewrite list_insert_insert_eq).
    (* the detail request takes two moves *)
    rewrite monolith_run_cons. cbn [pool_step].
    unfold go_step at 1. cbn [goroutines].
    rewrite list_lookup_insert_eq by done.
    cbn [thread_step world sem wg todo goroutines returned].
    rewrite list_insert_insert_eq.
    rewrite IH by (by apply list_lookup_insert_eq).
    by rewrite !list_insert_insert_eq.
Qed.

(** A goroutine that finds the channel empty takes a slot, runs, gives the
    slot back and reports to the WaitGroup. *)
Lemma monolith_goroutine_completes k w m gs (i : nat) :
  gs !! i = Some (GSend k) →
  pool_run md5Hash env
           (Go i :: repeat (Go i) (moves env (worker md5Hash k) w) ++ [Go i; Go i])
           (mkPool w 0 (S m) [] gs false)
  = mkPool (interp env (worker md5Hash k) w).2 0 m [] (<[i := GExit]> gs) false.
Proof.
  intros Hi.
  assert (Hlt : (i < length gs)%nat) by (by eapply lookup_lt_Some).
  rewrite monolith_run_cons. cbn [pool_step].
  unfold go_step at 1. cbn [goroutines sem]. rewrite Hi.
  rewrite decide_True by (unfold MaxConcurrency; lia).
  cbn [world sem wg todo goroutines returned].
  rewrite monolith_run_app.
  rewrite monolith_goroutine_runs by (by apply list_lookup_insert_eq).
  rewrite list_insert_insert_eq.
  rewrite !monolith_run_cons. cbn [pool_step pool_run foldl].
  unfold go_step at 2. cbn [goroutines].
  rewrite list_lookup_insert_eq by done.
  cbn [world sem wg todo goroutines returned Nat.pred].
  rewrite list_insert_insert_eq.
  unfold go_step. cbn [goroutines].
  rewrite list_lookup_insert_eq by done.
  cbn [world sem wg todo goroutines returned Nat.pred].
  by rewrite list_insert_insert_eq.
Qed.

Lemma monolith_serial_rest ids :
  ∀ pre w m,
    ∃ schedule,
      pool_run md5Hash env schedule
               (mkPool w 0 (m + length ids) [] (pre ++ (GSend <$> ids)) false)
      = mkPool (fetchVacancyDetails md5Hash env ids w) 0 m []
               (pre ++ ((λ _, GExit) <$> ids)) false.
Proof.
  induction ids as [|k ids IH]; intros pre w m.
  - exists []. simpl. by rewrite Nat.add_0_r.
  - destruct (IH (pre ++ [GExit]) (interp env (worker md5Hash k) w).2 m)
      as (rest & Hrest).
    exists ((Go (length pre)
             :: repeat (Go (length pre)) (moves env (worker md5Hash k) w)
             ++ [Go (length pre); Go (length pre)]) ++ rest).
    rewrite monolith_run_app.
    cbn [fmap list_fmap length].
    replace (m + S (length ids))%nat with (S (m + length ids)) by lia.
    rewrite (monolith_goroutine_completes k)
      by (by rewrite list_lookup_middle).
    rewrite insert_app_r_alt, Nat.sub_diag by done. cbn [insert list_insert].
    rewrite (cons_middle GExit), app_assoc. rewrite Hrest.
    by rewrite <- app_assoc.
Qed.

(** Running the goroutines one after the other is one of the schedules of
    the pool: it ends with [wg.Wait()] over, every goroutine gone and all
    slots free, in the world that [fetchVacancyDetails] computes. *)
Lemma monolith_serial_is_a_run ids w :
  ∃ schedule,
    pool_run md5Hash env schedule (pool_start ids w)
    = mkPool (fetchVacancyDetails md5Hash env ids w) 0 0 []
             ((λ _, GExit) <$> ids) true.
Proof.
  destruct (monolith_serial_rest ids [] w 0) as (rest & Hrest).
  exists (repeat Main (length ids) ++ rest ++ [Main]).
  rewrite !monolith_run_app. unfold pool_start.
  rewrite monolith_spawn_all. cbn [app Nat.add] in *. rewrite Hrest.
  cbn [pool_run foldl pool_step]. unfold main_step. cbn [todo wg].
  by rewrite decide_True.
Qed.

End MonolithSerial.

Section ModularSerial.

Import Modular.

Variable MD5Hash : string → string.
Variable env : Env.
Variables maxRetries retryDelay : Z.

Implicit Types (s : PoolState) (w : World Msg).

Lemma modular_run_app sched1 sched2 s :
  pool_run MD5Hash env maxRetries retryDelay (sched1 ++ sched2) s
  = pool_run MD5Hash env maxRetries retryDelay sched2
             (pool_run MD5Hash env maxRetries retryDelay sched1 s).
Proof. apply foldl_app. Qed.

Lemma modular_run_cons t sched s :
  pool_run MD5Hash env maxRetries retryDelay (t :: sched) s
  = pool_run MD5Hash env maxRetries retryDelay sched
             (pool_step MD5Hash env maxRetries retryDelay t s).
Proof. done. Qed.

Lemma modular_goroutine_runs (p : Prog Msg (option unit)) :
  ∀ w n m rest gs (i : nat),
    gs !! i = Some (GLoop (Running p)) →
    pool_run MD5Hash env maxRetries retryDelay (repeat (Go i) (moves env p w))
             (mkPool w n m rest gs false None)
    = mkPool (interp env p w).2 n m rest
             (<[i := GLoop (Running (Ret (interp env p w).1))]> gs) false None.
Proof.
  induction p as [a|X act k IH]; intros w n m rest gs i Hi.
  - simpl. by rewrite list_insert_id.
  - assert (Hlt : (i < length gs)%nat) by (by eapply lookup_lt_Some).
    cbn [moves interp].
    destruct act;
      cbn [perform]; cbn [repeat]; rewrite modular_run_cons; cbn [pool_step];
      unfold go_step at 1; cbn [goroutines]; rewrite Hi;
      cbn [thread_step perform world sem wg todo goroutines cancelled returned];
      try (rewrite IH by (by apply list_lookup_insert_eq);
           by rewrite list_insert_insert_eq).
    rewrite modular_run_cons. cbn [pool_step].
    unfold go_step at 1. cbn [goroutines].
    rewrite list_lookup_insert_eq by done.
    cbn [thread_step world sem wg todo goroutines cancelled returned].
    rewrite list_insert_insert_eq.
    rewrite IH by (by apply list_lookup_insert_eq).
    by rewrite !list_insert_insert_eq.
Qed.

(** The loops of the goroutines come to their end (as they do unless
    [maxRetries] is the largest [int]). *)
Hypothesis worker_ends :
  ∀ k w, (interp env (worker MD5Hash maxRetries retryDelay k) w).1 = Some tt.

(** The loop starts the goroutine of the next key, which runs, gives its
    slot back and reports to the WaitGroup before the loop goes on. *)
Lemma modular_key_completes k rest w gs :
  let i := length gs in
  pool_run MD5Hash env maxRetries retryDelay
           (Main :: repeat (Go i)
                      (moves env (worker MD5Hash maxRetries retryDelay k) w)
            ++ [Go i; Go i])
           (mkPool w 0 0 (k :: rest) gs false None)
  = mkPool (interp env (worker MD5Hash maxRetries retryDelay k) w).2 0 0 rest
           (gs ++ [GExit]) false None.
Proof.
  intros i.
  assert (Hi : ∀ g, (gs ++ [g]) !! i = Some g)
    by (intros g; apply list_lookup_middle; done).
  assert (Hins : ∀ g g', <[i := g']> (gs ++ [g]) = gs ++ [g']).
  { intros g g'. unfold i. rewrite insert_app_r_alt, Nat.sub_diag by done.
    done. }
  rewrite modular_run_cons. cbn [pool_step].
  unfold main_step at 1. cbn [returned todo sem].
  rewrite decide_True by lia.
  cbn [world sem wg todo goroutines cancelled returned].
  rewrite modular_run_app.
  rewrite modular_goroutine_runs by apply Hi.
  rewrite Hins, worker_ends.
  rewrite !modular_run_cons. cbn [pool_step pool_run foldl].
  unfold go_step at 2. cbn [goroutines]. rewrite Hi.
  cbn [world sem wg todo goroutines cancelled returned Nat.pred].
  rewrite Hins.
  unfold go_step. cbn [goroutines]. rewrite Hi.
  cbn [world sem wg todo goroutines cancelled returned Nat.pred].
  by rewrite Hins.
Qed.

Lemma modular_serial_rest ids :
  ∀ gs w,
    ∃ schedule,
      pool_run MD5Hash env maxRetries retryDelay schedule
               (mkPool w 0 0 ids gs false None)
      = mkPool (fetchAndProcessVacancies MD5Hash env ids maxRetries retryDelay w).2
               0 0 [] (gs ++ ((λ _, GExit) <$> ids)) false None.
Proof.
  induction ids as [|k ids IH]; intros gs w.
  - exists []. simpl. by rewrite app_nil_r.
  - destruct (IH (gs ++ [GExit])
                (interp env (worker MD5Hash maxRetries retryDelay k) w).2)
      as (rest & Hrest).
    eexists (_ ++ rest).
    rewrite modular_run_app, modular_key_completes, Hrest.
    cbn [fmap list_fmap]. by rewrite <- app_assoc.
Qed.

(** Running the goroutines one after the other is one of the schedules of
    the pool: it ends with [wg.Wait()] over and [nil] returned, every
    goroutine gone and all slots free, in the world that
    [fetchAndProcessVacancies] computes. *)
Lemma modular_serial_is_a_run ids w :
  ∃ schedule,
    pool_run MD5Hash env maxRetries retryDelay schedule (pool_start ids w)
    = mkPool (fetchAndProcessVacancies MD5Hash env ids maxRetries retryDelay w).2
             0 0 [] ((λ _, GExit) <$> ids) false (Some None).
Proof.
  destruct (modular_serial_rest ids [] w) as (rest & Hrest).
  exists (rest ++ [Main]).
  rewrite modular_run_app. unfold pool_start. rewrite Hrest.
  cbn [pool_run foldl pool_step app]. unfold main_step. cbn [returned todo wg].
  by rewrite decide_True.
Qed.

End ModularSerial.

(** * Facts about the single-file program *)

Lemma wrap64_small z : in_int64 z → wrap64 z = z.
Proof.
  unfold in_int64, wrap64. intros H.
  rewrite Z.mod_small; lia.
Qed.

Section TraceFacts.

Context {Msg : Type}.
Implicit Types (w : World Msg) (e : Event Msg).

Lemma attempts_snoc (k : string) e (t : list (Event Msg)) :
  attempts k (t ++ [e])
  = (attempts k t
     + match e with
       | EvFetch k' => if decide (k' = k) then 1 else 0
       | _ => 0
       end)%nat.
Proof.
  rewrite attempts_app. f_equal.
  destruct e; try done. unfold attempts. simpl.
  rewrite filter_cons. by case_decide.
Qed.

Lemma upserts_snoc e (t : list (Event Msg)) :
  upserts (t ++ [e])
  = upserts t
    ++ match e with
       | EvUpsert d ok => [(d, ok)]
       | _ => []
       end.
Proof. unfold upserts. rewrite omap_app. by destruct e. Qed.

End TraceFacts.

Ltac run_prog :=
  cbn [interp bind call perform Monolith.log Monolith.SafeMap.Exists
       Monolith.SafeMap.Add Modular.log Modular.storage.DescriptionHashExists
       Modular.storage.AddDescriptionHash Modular.storage.UpsertVacancy
       Modular.api.GetVacancyDetails Modular.api.GetVacancyIDs emit
       vacancyIDs descriptionHashes savedCount trace orb andb negb].

Ltac flat_world :=
  unfold emit, extend; cbn [vacancyIDs descriptionHashes savedCount trace];
  rewrite <- ?app_assoc; cbn [app].

Section MonolithFacts.

Import Monolith.

Variable md5Hash : string → string.
Variable env : Env.

Implicit Types (w : World Msg) (k : string).

Lemma monolith_processVacancy_quiet k : quiet (processVacancy md5Hash k).
Proof.
  unfold processVacancy, SafeMap.Exists, SafeMap.Add, log.
  repeat first
    [ apply quiet_bind | apply quiet_call; reflexivity | apply quiet_Ret
    | intro
    | match goal with
      | |- quiet (match ?x with _ => _ end) => destruct x
      end ].
Qed.

Lemma monolith_retryLoop_quiet fuel k retries :
  quiet (retryLoop md5Hash fuel k retries).
Proof.
  revert retries. induction fuel as [|fuel IH]; intros retries; cbn [retryLoop].
  - done.
  - apply quiet_bind; [apply monolith_processVacancy_quiet|].
    intros [[|]|].
    + destruct (retries <? MaxRetries).
      * unfold log.
        repeat first [ apply quiet_bind | apply quiet_call; reflexivity | intro ].
        apply IH.
      * unfold log.
        repeat first
          [ apply quiet_bind | apply quiet_call; reflexivity | apply quiet_Ret | intro ].
    + done.
    + repeat first
        [ apply quiet_bind | apply quiet_call; reflexivity | apply quiet_Ret | intro ].
Qed.

(** Whatever the goroutines do one after the other, the pagination loop
    sees a pool effect. *)
Lemma monolith_serial_effect ids w :
  pool_effect w (fetchVacancyDetails md5Hash env ids w).
Proof.
  unfold fetchVacancyDetails.
  revert w. induction ids as [|k ids IH]; intros w; cbn [foldl].
  - apply pool_effect_refl.
  - eapply pool_effect_trans; [|apply IH].
    apply interp_effect, monolith_retryLoop_quiet.
Qed.

(** One call of [processVacancy], case by case. *)

Lemma monolith_attempt_not_found k body w :
  fetchDetail env k (attempts k (trace w)) = Response http_StatusNotFound body →
  interp env (processVacancy md5Hash k) w
  = (Some ErrNonRetryable, extend w [EvFetch k; EvLog (MsgNotFound k)]).
Proof.
  intros H. unfold processVacancy. run_prog. rewrite H.
  simpl (_ =? _). run_prog. by flat_world.
Qed.

Lemma monolith_attempt_transient k w :
  transient (fetchDetail env k (attempts k (trace w))) = true →
  ∃ m, (∀ k', terminal k' m = None)
       ∧ interp env (processVacancy md5Hash k) w
         = (Some ErrRetryable, extend w [EvFetch k; EvLog m]).
Proof.
  intros H. unfold processVacancy. run_prog.
  destruct (fetchDetail env k (attempts k (trace w))) as [| |status body];
    [done| |].
  - exists (MsgHTTPGet k). split; [done|]. run_prog. by flat_world.
  - exists (MsgUnexpectedStatus status k). split; [done|].
    unfold transient in H.
    destruct (status =? http_StatusOK); [done|].
    destruct (status =? http_StatusNotFound); [done|].
    destruct (status =? http_StatusForbidden); [done|].
    destruct (status =? http_StatusTooManyRequests); [done|].
    run_prog. by flat_world.
Qed.

Lemma monolith_attempt_stored k doc description w :
  fetchDetail env k (attempts k (trace w)) = Response http_StatusOK (BodyJSON doc) →
  doc !! "description" = Some (JString description) →
  md5Hash description ∉ descriptionHashes w →
  updateOne env (upserts (trace w))
            (<["description_hash" := JString (md5Hash description)]> doc) = true →
  interp env (processVacancy md5Hash k) w
  = (None,
     mkWorld (vacancyIDs w) ({[md5Hash description]} ∪ descriptionHashes w)
             (savedCount w)
             (trace w ++ [EvFetch k;
                          EvExists (md5Hash description) false;
                          EvUpsert (<["description_hash" :=
                                       JString (md5Hash description)]> doc) true;
                          EvAdd (md5Hash description);
                          EvLog (MsgStored k)])).
Proof.
  intros Hresp Hdesc Hnew Hok. unfold processVacancy. run_prog.
  rewrite Hresp. simpl (_ =? _). cbv iota. rewrite Hdesc. run_prog.
  rewrite bool_decide_eq_false_2 by done. run_prog.
  rewrite !upserts_snoc, !app_nil_r, Hok. run_prog.
  by flat_world.
Qed.

Lemma monolith_attempt_duplicate k doc description w :
  fetchDetail env k (attempts k (trace w)) = Response http_StatusOK (BodyJSON doc) →
  doc !! "description" = Some (JString description) →
  md5Hash description ∈ descriptionHashes w →
  interp env (processVacancy md5Hash k) w
  = (None,
     mkWorld (vacancyIDs w) (descriptionHashes w) (savedCount w)
             (trace w ++ [EvFetch k;
                          EvExists (md5Hash description) true;
                          EvLog (MsgDuplicate k)])).
Proof.
  intros Hresp Hdesc Hold. unfold processVacancy. run_prog.
  rewrite Hresp. simpl (_ =? _). cbv iota. rewrite Hdesc. run_prog.
  rewrite bool_decide_eq_true_2 by done. run_prog.
  by flat_world.
Qed.

(** The loop of the goroutine, turn by turn. *)

Lemma monolith_loop_not_found fuel k retries body w :
  fetchDetail env k (attempts k (trace w)) = Response http_StatusNotFound body →
  interp env (retryLoop md5Hash (S fuel) k retries) w
  = (Some tt, extend w [EvFetch k; EvLog (MsgNotFound k)]).
Proof.
  intros H. cbn [retryLoop].
  by rewrite interp_bind, (monolith_attempt_not_found _ _ _ H).
Qed.

Lemma monolith_loop_retry fuel k retries w :
  retries < MaxRetries →
  transient (fetchDetail env k (attempts k (trace w))) = true →
  ∃ m, (∀ k', terminal k' m = None)
       ∧ interp env (retryLoop md5Hash (S fuel) k retries) w
         = interp env (retryLoop md5Hash fuel k (wrap64 (retries + 1)))
             (extend w [EvFetch k; EvLog m;
                        EvLog (MsgRetryable k (wrap64 (retries + 1)));
                        EvSleep RetryDelay]).
Proof.
  intros Hr H. destruct (monolith_attempt_transient _ _ H) as (m & Hm & Hrun).
  exists m. split; [done|]. cbn [retryLoop].
  rewrite interp_bind, Hrun. cbv iota.
  apply Z.ltb_lt in Hr. rewrite Hr. run_prog. by flat_world.
Qed.

Lemma monolith_loop_stored fuel k retries doc description w :
  fetchDetail env k (attempts k (trace w)) = Response http_StatusOK (BodyJSON doc) →
  doc !! "description" = Some (JString description) →
  md5Hash description ∉ descriptionHashes w →
  updateOne env (upserts (trace w))
            (<["description_hash" := JString (md5Hash description)]> doc) = true →
  interp env (retryLoop md5Hash (S fuel) k retries) w
  = (Some tt,
     mkWorld (vacancyIDs w) ({[md5Hash description]} ∪ descriptionHashes w)
             (wrap64 (savedCount w + 1))
             (trace w ++ [EvFetch k;
                          EvExists (md5Hash description) false;
                          EvUpsert (<["description_hash" :=
                                       JString (md5Hash description)]> doc) true;
                          EvAdd (md5Hash description);
                          EvLog (MsgStored k);
                          EvSaved])).
Proof.
  intros Hresp Hdesc Hnew Hok. cbn [retryLoop].
  rewrite interp_bind, (monolith_attempt_stored _ _ _ _ Hresp Hdesc Hnew Hok).
  run_prog. by flat_world.
Qed.

(** A key that is skipped as a duplicate is counted all the same: the
    loop cannot tell the two [nil] results of [processVacancy] apart. *)
Lemma monolith_loop_duplicate fuel k retries doc description w :
  fetchDetail env k (attempts k (trace w)) = Response http_StatusOK (BodyJSON doc) →
  doc !! "description" = Some (JString description) →
  md5Hash description ∈ descriptionHashes w →
  interp env (retryLoop md5Hash (S fuel) k retries) w
  = (Some tt,
     mkWorld (vacancyIDs w) (descriptionHashes w) (wrap64 (savedCount w + 1))
             (trace w ++ [EvFetch k;
                          EvExists (md5Hash description) true;
                          EvLog (MsgDuplicate k);
                          EvSaved])).
Proof.
  intros Hresp Hdesc Hold. cbn [retryLoop].
  rewrite interp_bind, (monolith_attempt_duplicate _ _ _ _ Hresp Hdesc Hold).
  run_prog. by flat_world.
Qed.

End MonolithFacts.

(** * Facts about the refactored program *)

Section ModularFacts.

Import Modular.

Variable MD5Hash : string → string.
Variable env : Env.

Implicit Types (w : World Msg) (k : string).

Lemma modular_processVacancy_quiet k : quiet (processVacancy MD5Hash k).
Proof.
  unfold processVacancy, api.GetVacancyDetails, storage.DescriptionHashExists,
    storage.AddDescriptionHash, storage.UpsertVacancy, log.
  repeat first
    [ apply quiet_bind | apply quiet_call; reflexivity | apply quiet_Ret
    | intro
    | match goal with
      | |- quiet (match ?x with _ => _ end) => destruct x
      end ].
Qed.

Lemma modular_retryLoop_quiet fuel maxRetries retryDelay k retries :
  quiet (retryLoop MD5Hash fuel maxRetries retryDelay k retries).
Proof.
  revert retries. induction fuel as [|fuel IH]; intros retries; cbn [retryLoop].
  - done.
  - destruct (retries <=? maxRetries); [|done].
    apply quiet_bind; [apply modular_processVacancy_quiet|].
    intros [err|]; [|done].
    destruct (retries <? maxRetries); unfold log;
      repeat first [ apply quiet_bind | apply quiet_call; reflexivity | intro ];
      apply IH.
Qed.

Lemma modular_serial_effect ids maxRetries retryDelay w :
  pool_effect w (fetchAndProcessVacancies MD5Hash env ids maxRetries retryDelay w).2.
Proof.
  unfold fetchAndProcessVacancies. cbn [snd].
  revert w. induction ids as [|k ids IH]; intros w; cbn [foldl].
  - apply pool_effect_refl.
  - eapply pool_effect_trans; [|apply IH].
    apply interp_effect, modular_retryLoop_quiet.
Qed.

(** One call of [processVacancy], case by case. *)

Lemma modular_attempt_not_found k body w :
  fetchDetail env k (attempts k (trace w)) = Response http_StatusNotFound body →
  interp env (processVacancy MD5Hash k) w
  = (None, extend w [EvFetch k; EvLog (MsgNotFound k)]).
Proof.
  intros H. unfold processVacancy. run_prog. rewrite H.
  simpl (_ =? _). run_prog. simpl (errors_Is _ _). run_prog. by flat_world.
Qed.

Lemma modular_attempt_transient k w :
  transient (fetchDetail env k (attempts k (trace w))) = true →
  ∃ err, interp env (processVacancy MD5Hash k) w = (Some err, extend w [EvFetch k]).
Proof.
  intros H. unfold processVacancy. run_prog.
  destruct (fetchDetail env k (attempts k (trace w))) as [| |status body];
    [done| |].
  - eexists. run_prog. simpl (errors_Is _ _). run_prog. by flat_world.
  - unfold transient in H.
    destruct (status =? http_StatusOK); [done|].
    destruct (status =? http_StatusNotFound); [done|].
    destruct (status =? http_StatusForbidden); [done|].
    destruct (status =? http_StatusTooManyRequests); [done|].
    eexists. run_prog. simpl (errors_Is _ _). run_prog. by flat_world.
Qed.

Lemma modular_attempt_invalid k doc w :
  fetchDetail env k (attempts k (trace w)) = Response http_StatusOK (BodyJSON doc) →
  (∀ description, doc !! "description" = Some (JString description) →
                  description = "") →
  interp env (processVacancy MD5Hash k) w
  = (Some (ErrInvalidDescription k), extend w [EvFetch k]).
Proof.
  intros Hresp Hdesc. unfold processVacancy. run_prog. rewrite Hresp.
  simpl (_ =? _). run_prog.
  destruct (doc !! "description") as [[| | |description|]|] eqn:E;
    try (run_prog; by flat_world).
  rewrite (Hdesc description eq_refl). run_prog. by flat_world.
Qed.

Lemma modular_attempt_stored k doc description w :
  fetchDetail env k (attempts k (trace w)) = Response http_StatusOK (BodyJSON doc) →
  doc !! "description" = Some (JString description) →
  description ≠ "" →
  MD5Hash description ∉ descriptionHashes w →
  updateOne env (upserts (trace w))
            (<["description_hash" := JString (MD5Hash description)]> doc) = true →
  interp env (processVacancy MD5Hash k) w
  = (None,
     mkWorld (vacancyIDs w) ({[MD5Hash description]} ∪ descriptionHashes w)
             (wrap64 (savedCount w + 1))
             (trace w ++ [EvFetch k;
                          EvExists (MD5Hash description) false;
                          EvUpsert (<["description_hash" :=
                                       JString (MD5Hash description)]> doc) true;
                          EvAdd (MD5Hash description);
                          EvSaved;
                          EvLog (MsgStored k)])).
Proof.
  intros Hresp Hdesc Hne Hnew Hok. unfold processVacancy. run_prog.
  rewrite Hresp. simpl (_ =? _). run_prog. rewrite Hdesc.
  rewrite decide_False by done. run_prog.
  rewrite bool_decide_eq_false_2 by done. run_prog.
  rewrite !upserts_snoc, !app_nil_r, Hok. run_prog.
  by flat_world.
Qed.

Lemma modular_attempt_duplicate k doc description w :
  fetchDetail env k (attempts k (trace w)) = Response http_StatusOK (BodyJSON doc) →
  doc !! "description" = Some (JString description) →
  description ≠ "" →
  MD5Hash description ∈ descriptionHashes w →
  interp env (processVacancy MD5Hash k) w
  = (None,
     extend w [EvFetch k; EvExists (MD5Hash description) true;
               EvLog (MsgDuplicate k)]).
Proof.
  intros Hresp Hdesc Hne Hold. unfold processVacancy. run_prog.
  rewrite Hresp. simpl (_ =? _). run_prog. rewrite Hdesc.
  rewrite decide_False by done. run_prog.
  rewrite bool_decide_eq_true_2 by done. run_prog.
  by flat_world.
Qed.

(** The loop of the goroutine, turn by turn. *)

Lemma modular_loop_nil fuel maxRetries retryDelay k retries w w' :
  retries <= maxRetries →
  interp env (processVacancy MD5Hash k) w = (None, w') →
  interp env (retryLoop MD5Hash (S fuel) maxRetries retryDelay k retries) w
  = (Some tt, w').
Proof.
  intros Hr Hrun. cbn [retryLoop]. apply Z.leb_le in Hr. rewrite Hr.
  by rewrite interp_bind, Hrun.
Qed.

Lemma modular_loop_err fuel maxRetries retryDelay k retries err w w' :
  retries < maxRetries →
  interp env (processVacancy MD5Hash k) w = (Some err, w') →
  interp env (retryLoop MD5Hash (S fuel) maxRetries retryDelay k retries) w
  = interp env
      (retryLoop MD5Hash fuel maxRetries retryDelay k (wrap64 (retries + 1)))
      (extend w' [EvLog (MsgRetrying k (wrap64 (retries + 1)) maxRetries err);
                  EvSleep retryDelay]).
Proof.
  intros Hr Hrun. cbn [retryLoop].
  assert (Hle : (retries <=? maxRetries) = true) by (apply Z.leb_le; lia).
  apply Z.ltb_lt in Hr. rewrite Hle, interp_bind, Hrun. cbv iota.
  rewrite Hr. run_prog. by flat_world.
Qed.

Lemma modular_loop_last fuel maxRetries retryDelay k err w w' :
  in_int64 (maxRetries + 1) →
  interp env (processVacancy MD5Hash k) w = (Some err, w') →
  interp env (retryLoop MD5Hash (S (S fuel)) maxRetries retryDelay k maxRetries) w
  = (Some tt, extend w' [EvLog (MsgFailed k maxRetries err)]).
Proof.
  intros Hin Hrun. cbn [retryLoop].
  rewrite Z.leb_refl, interp_bind, Hrun. cbv iota.
  rewrite Z.ltb_irrefl. run_prog.
  rewrite (wrap64_small _ Hin).
  assert (Hgt : (maxRetries + 1 <=? maxRetries) = false) by (apply Z.leb_gt; lia).
  rewrite Hgt. run_prog. by flat_world.
Qed.

End ModularFacts.

(** * Every run of a pool is a pool effect *)

Section MonolithPoolEffect.

Import Monolith.

Variable md5Hash : string → string.
Variable env : Env.

Lemma monolith_step_effect t (s : PoolState) :
  Forall monolith_quiet (goroutines s) →
  pool_effect (world s) (world (pool_step md5Hash env t s))
  ∧ Forall monolith_quiet (goroutines (pool_step md5Hash env t s)).
Proof.
  intros Hq. destruct t as [|i]; cbn [pool_step].
  - unfold main_step. destruct (todo s) as [|k rest].
    + case_decide; (split; [apply pool_effect_refl | done]).
    + split; [apply pool_effect_refl|]. simpl.
      apply Forall_app. split; [done|]. by constructor.
  - unfold go_step. destruct (goroutines s !! i) as [g|] eqn:Hi;
      [|split; [apply pool_effect_refl | done]].
    pose proof (Forall_lookup_1 _ _ _ _ Hq Hi) as Hg.
    destruct g as [k|t| |].
    + case_decide; (split; [apply pool_effect_refl|]); [|done].
      simpl. apply Forall_insert; [done|].
      apply monolith_retryLoop_quiet.
    + destruct (thread_step_effect env t (world s) Hg) as [He Ht].
      destruct t as [[a|X act k]|resp k].
      * split; [apply pool_effect_refl|]. simpl. by apply Forall_insert.
      * destruct (thread_step env _ (world s)) as [t' w'].
        split; [done|]. simpl. by apply Forall_insert.
      * destruct (thread_step env _ (world s)) as [t' w'].
        split; [done|]. simpl. by apply Forall_insert.
    + split; [apply pool_effect_refl|]. simpl. by apply Forall_insert.
    + split; [apply pool_effect_refl | done].
Qed.

Lemma monolith_run_effect_from schedule (s : PoolState) :
  Forall monolith_quiet (goroutines s) →
  pool_effect (world s) (world (pool_run md5Hash env schedule s)).
Proof.
  revert s. induction schedule as [|t schedule IH]; intros s Hq.
  - apply pool_effect_refl.
  - destruct (monolith_step_effect t s Hq) as [He Hq'].
    eapply pool_effect_trans; [exact He|]. by apply IH.
Qed.

(** Whatever the schedule, the pagination loop sees a pool effect. *)
Lemma monolith_run_effect schedule ids w :
  pool_effect w (world (pool_run md5Hash env schedule (pool_start ids w))).
Proof. by apply (monolith_run_effect_from schedule (pool_start ids w)). Qed.

End MonolithPoolEffect.

Section ModularPoolEffect.

Import Modular.

Variable MD5Hash : string → string.
Variable env : Env.
Variables maxRetries retryDelay : Z.

Lemma modular_step_effect t (s : PoolState) :
  Forall modular_quiet (goroutines s) →
  pool_effect (world s) (world (pool_step MD5Hash env maxRetries retryDelay t s))
  ∧ Forall modular_quiet
           (goroutines (pool_step MD5Hash env maxRetries retryDelay t s)).
Proof.
  intros Hq. destruct t as [| | |i]; cbn [pool_step].
  - split; [apply pool_effect_refl | done].
  - unfold done_step.
    destruct (returned s), (todo s), (cancelled s);
      (split; [apply pool_effect_refl | done]).
  - unfold main_step. destruct (returned s); [by split; [apply pool_effect_refl|]|].
    destruct (todo s) as [|k rest].
    + case_decide; (split; [apply pool_effect_refl | done]).
    + case_decide; (split; [apply pool_effect_refl|]); [|done].
      simpl. apply Forall_app. split; [done|]. constructor; [|done].
      apply modular_retryLoop_quiet.
  - unfold go_step. destruct (goroutines s !! i) as [g|] eqn:Hi;
      [|split; [apply pool_effect_refl | done]].
    pose proof (Forall_lookup_1 _ _ _ _ Hq Hi) as Hg.
    destruct g as [t| |].
    + destruct (thread_step_effect env t (world s) Hg) as [He Ht].
      destruct t as [[[a|]|X act k]|resp k].
      * split; [apply pool_effect_refl|]. simpl. by apply Forall_insert.
      * split; [apply pool_effect_refl | done].
      * destruct (thread_step env _ (world s)) as [t' w'].
        split; [done|]. simpl. by apply Forall_insert.
      * destruct (thread_step env _ (world s)) as [t' w'].
        split; [done|]. simpl. by apply Forall_insert.
    + split; [apply pool_effect_refl|]. simpl. by apply Forall_insert.
    + split; [apply pool_effect_refl | done].
Qed.

Lemma modular_run_effect_from schedule (s : PoolState) :
  Forall modular_quiet (goroutines s) →
  pool_effect (world s)
              (world (pool_run MD5Hash env maxRetries retryDelay schedule s)).
Proof.
  revert s. induction schedule as [|t schedule IH]; intros s Hq.
  - apply pool_effect_refl.
  - destruct (modular_step_effect t s Hq) as [He Hq'].
    eapply pool_effect_trans; [exact He|]. by apply IH.
Qed.

(** Whatever the schedule, the pagination loop sees a pool effect. *)
Lemma modular_run_effect schedule ids w :
  pool_effect w (world (pool_run MD5Hash env maxRetries retryDelay schedule
                                 (pool_start ids w))).
Proof. by apply (modular_run_effect_from schedule (pool_start ids w)). Qed.

End ModularPoolEffect.

(** * Facts about the pagination loops *)

Section MonolithPages.

Import Monolith.

Variable env : Env.
Variable details : list string → World Msg → World Msg.
Hypothesis details_effect : ∀ ids w, pool_effect w (details ids w).

Implicit Types (w : World Msg) (page totalPages : Z).

(** A page that is lost: the loop goes on with the next page and does not
    look at [totalPages]. *)
Lemma monolith_page_lost fuel page totalPages w :
  page_lost (searchPage env page) = true →
  ∃ w', pool_effect (emit (EvSearch page) w) w'
        ∧ pageLoop env details (S fuel) page totalPages w
          = pageLoop env details fuel (wrap64 (page + 1)) totalPages w'.
Proof.
  intros H. cbn [pageLoop perform].
  destruct (searchPage env page) as [| |status [| |sp]]; try done;
    try (eexists; split; [|reflexivity];
         apply pool_effect_emit_log, pool_effect_refl);
    simpl in H; rewrite H;
    (eexists; split; [|reflexivity];
     apply pool_effect_emit_log, pool_effect_refl).
Qed.

(** A page that is refused: the loop ends if [totalPages] says so. *)
Lemma monolith_page_refused fuel page totalPages w :
  page_refused (searchPage env page) = true →
  ∃ w', pool_effect (emit (EvSearch page) w) w'
        ∧ pageLoop env details (S fuel) page totalPages w
          = if page >=? wrap64 (totalPages - 1) then (Some None, w')
            else pageLoop env details fuel (wrap64 (page + 1)) totalPages w'.
Proof.
  intros H. cbn [pageLoop perform].
  destruct (searchPage env page) as [| |status body]; try done.
  simpl in H. apply negb_true_iff in H. rewrite H.
  eexists. split; [|reflexivity].
  destruct (_ || _); apply pool_effect_emit_log, pool_effect_refl.
Qed.

(** A page that arrives. *)
Lemma monolith_page_ok fuel page totalPages sp w :
  searchPage env page = Response http_StatusOK (BodyJSON sp) →
  ∃ w', pool_effect (emit (EvSearch page) w) w'
        ∧ pageLoop env details (S fuel) page totalPages w
          = let totalPages := if page =? 0 then Pages sp else totalPages in
            if page >=? wrap64 (totalPages - 1) then (Some None, w')
            else pageLoop env details fuel (wrap64 (page + 1)) totalPages w'.
Proof.
  intros H. cbn [pageLoop perform]. rewrite H. simpl (_ =? _). cbv iota.
  destruct (page =? 0); cbv iota beta zeta;
    (eexists; split; [|reflexivity]);
    (eapply pool_effect_trans; [|apply details_effect]);
    repeat apply pool_effect_emit_log; apply pool_effect_refl.
Qed.

(** Whatever comes back for a page that is neither the first nor, by
    [totalPages], the last: the loop goes on with the next page. *)
Lemma monolith_page_middle fuel page totalPages w :
  page ≠ 0 → page < wrap64 (totalPages - 1) →
  ∃ w', pool_effect (emit (EvSearch page) w) w'
        ∧ pageLoop env details (S fuel) page totalPages w
          = pageLoop env details fuel (wrap64 (page + 1)) totalPages w'.
Proof.
  intros Hne Hlt.
  assert (Hge : (page >=? wrap64 (totalPages - 1)) = false)
    by (rewrite Z.geb_leb; apply Z.leb_gt; lia).
  assert (H0 : (page =? 0) = false) by (by apply Z.eqb_neq).
  destruct (page_lost (searchPage env page)) eqn:Hlost.
  { by apply monolith_page_lost. }
  destruct (page_refused (searchPage env page)) eqn:Href.
  { destruct (monolith_page_refused fuel page totalPages w Href) as (w' & He & Hrun).
    exists w'. split; [done|]. by rewrite Hrun, Hge. }
  destruct (searchPage env page) as [| |status [| |sp]] eqn:Hresp; try done;
    simpl in Hlost, Href; apply negb_false_iff in Href; try congruence.
  apply Z.eqb_eq in Href. subst status.
  destruct (monolith_page_ok fuel page totalPages sp w Hresp) as (w' & He & Hrun).
  exists w'. split; [done|]. rewrite Hrun. cbv zeta. by rewrite H0, Hge.
Qed.

End MonolithPages.

Section ModularPages.

Import Modular.

Variable env : Env.
Variable details : list string → Z → Z → World Msg → option error * World Msg.
Hypothesis details_effect :
  ∀ ids maxRetries retryDelay w,
    pool_effect w (details ids maxRetries retryDelay w).2.
Variable cfg : AppConfig.

Implicit Types (w : World Msg) (page totalPages : Z).

(** A page that does not arrive: the loop goes on with the next page and
    does not look at [totalPages]. *)
Lemma modular_page_failed fuel page totalPages w :
  page_ok (searchPage env page) = false →
  ∃ w', pool_effect (emit (EvSearch page) w) w'
        ∧ pageLoop env details Background cfg (S fuel) page totalPages w
          = pageLoop env details Background cfg fuel (wrap64 (page + 1))
                     totalPages w'.
Proof.
  intros H. cbn [pageLoop Background]. run_prog.
  destruct (searchPage env page) as [| |status [| |sp]]; simpl in H;
    try destruct (status =? http_StatusOK); try done; run_prog;
    (eexists; split; [|reflexivity];
     apply pool_effect_emit_log, pool_effect_refl).
Qed.

(** A page that arrives. *)
Lemma modular_page_ok fuel page totalPages sp w :
  searchPage env page = Response http_StatusOK (BodyJSON sp) →
  ∃ w', pool_effect (emit (EvSearch page) w) w'
        ∧ pageLoop env details Background cfg (S fuel) page totalPages w
          = let totalPages := if page =? 0 then Pages sp else totalPages in
            if page >=? wrap64 (totalPages - 1)
            then (Some (savedCount w', None), w')
            else pageLoop env details Background cfg fuel (wrap64 (page + 1))
                          totalPages w'.
Proof.
  intros H. cbn [pageLoop Background]. run_prog. rewrite H.
  simpl (_ =? _). run_prog.
  set (found := if page =? 0 then _ else _).
  assert (Hfound : found.1 = (if page =? 0 then Pages sp else totalPages)
                   ∧ pool_effect (emit (EvSearch page) w) found.2).
  { unfold found. destruct (page =? 0); split; try done.
    - apply pool_effect_emit_log, pool_effect_refl.
    - apply pool_effect_refl. }
  destruct found as [tp w1]. cbn [fst snd] in Hfound.
  destruct Hfound as [-> Hw1].
  cbv zeta.
  match goal with
  | |- context [if decide ?P then ?a else ?b] =>
      set (w2 := if decide P then a else b)
  end.
  exists w2. split; [|done].
  unfold w2. case_decide.
  - match goal with
    | |- context [details ?a ?b ?c ?d] =>
        pose proof (details_effect a b c d) as Hd;
        destruct (details a b c d) as [[err|] w3]
    end; cbn [snd] in Hd.
    + apply pool_effect_emit_log.
      eapply pool_effect_trans; [|exact Hd]. by apply pool_effect_emit_log.
    + eapply pool_effect_trans; [|exact Hd]. by apply pool_effect_emit_log.
  - by apply pool_effect_emit_log.
Qed.

End ModularPages.

(** * The loops return *)

Section LoopsReturn.

Variable md5Hash : string → string.
Variable env : Env.

(** The goroutine of the single-file program leaves its loop: the fuel
    that [worker] gives is enough, whatever the outside world answers. *)
Lemma monolith_loop_returns fuel k retries (w : World Monolith.Msg) :
  0 <= retries <= Monolith.MaxRetries →
  (Z.to_nat (Monolith.MaxRetries - retries) < fuel)%nat →
  (interp env (Monolith.retryLoop md5Hash fuel k retries) w).1 = Some tt.
Proof.
  revert retries w. induction fuel as [|fuel IH]; intros retries w Hr Hfuel;
    [lia|].
  cbn [Monolith.retryLoop]. rewrite interp_bind.
  destruct (interp env (Monolith.processVacancy md5Hash k) w) as [[[|]|] w'];
    [|done|done].
  destruct (retries <? Monolith.MaxRetries) eqn:Hlt; [|done].
  apply Z.ltb_lt in Hlt. run_prog.
  unfold Monolith.MaxRetries in *.
  rewrite wrap64_small by (unfold in_int64; lia).
  apply IH; lia.
Qed.

Lemma monolith_worker_returns k (w : World Monolith.Msg) :
  (interp env (Monolith.worker md5Hash k) w).1 = Some tt.
Proof.
  apply monolith_loop_returns; unfold Monolith.MaxRetries; simpl; lia.
Qed.

(** So does the goroutine of the refactored program, for every number of
    retries that leaves room for one more in an [int]. *)
Lemma modular_loop_returns fuel maxRetries retryDelay k retries
  (w : World Modular.Msg) :
  0 <= retries →
  maxRetries + 1 < 2 ^ 63 →
  (Z.to_nat (maxRetries + 1 - retries) < fuel)%nat →
  (interp env (Modular.retryLoop md5Hash fuel maxRetries retryDelay k retries) w).1
  = Some tt.
Proof.
  revert retries w. induction fuel as [|fuel IH]; intros retries w Hr Hmax Hfuel;
    [lia|].
  cbn [Modular.retryLoop].
  destruct (retries <=? maxRetries) eqn:Hle; [|done].
  apply Z.leb_le in Hle. rewrite interp_bind.
  destruct (interp env (Modular.processVacancy md5Hash k) w) as [[err|] w'];
    [|done].
  destruct (retries <? maxRetries); run_prog;
    rewrite wrap64_small by (unfold in_int64; lia);
    apply IH; lia.
Qed.

Lemma modular_worker_returns maxRetries retryDelay k (w : World Modular.Msg) :
  maxRetries + 1 < 2 ^ 63 →
  (interp env (Modular.worker md5Hash maxRetries retryDelay k) w).1 = Some tt.
Proof. intros H. apply modular_loop_returns; lia. Qed.

(** The pagination loops need not return: when no page ever arrives,
    they ask for page after page. *)
Lemma monolith_pages_never_return
  (details : list string → World Monolith.Msg → World Monolith.Msg)
  fuel page totalPages (w : World Monolith.Msg) :
  (∀ q, page_lost (searchPage env q) = true) →
  (Monolith.pageLoop env details fuel page totalPages w).1 = None.
Proof.
  intros Hlost. revert page w. induction fuel as [|fuel IH]; intros page w;
    [done|].
  destruct (monolith_page_lost env details fuel page totalPages w (Hlost page))
    as (w' & _ & ->).
  apply IH.
Qed.

Lemma modular_pages_never_return
  (details : list string → Z → Z → World Modular.Msg
             → option Modular.error * World Modular.Msg)
  cfg fuel page totalPages (w : World Modular.Msg) :
  (∀ q, page_ok (searchPage env q) = false) →
  (Modular.pageLoop env details Modular.Background cfg fuel page totalPages w).1
  = None.
Proof.
  intros Hfail. revert page w. induction fuel as [|fuel IH]; intros page w;
    [done|].
  destruct (modular_page_failed env details cfg fuel page totalPages w
              (Hfail page)) as (w' & _ & ->).
  apply IH.
Qed.

End LoopsReturn.

(** * The statements of the specification *)

Section TraceComputations.

Context {Msg : Type}.
Implicit Types (w : World Msg) (t : list (Event Msg)).

Lemma attempts_extend (k : string) w t :
  attempts k (trace (extend w t)) = (attempts k (trace w) + attempts k t)%nat.
Proof. apply attempts_app. Qed.

Lemma attempts_cons_fetch (k : string) t :
  attempts k (EvFetch k :: t) = S (attempts k t).
Proof. unfold attempts. simpl. by rewrite filter_cons, decide_True. Qed.

Lemma attempts_cons_other (k k' : string) t :
  k' ≠ k → attempts k (EvFetch k' :: t) = attempts k t.
Proof. intros H. unfold attempts. simpl. by rewrite filter_cons, decide_False. Qed.

Lemma upserts_extend w t :
  upserts (trace (extend w t)) = upserts (trace w) ++ upserts t.
Proof. unfold upserts. apply omap_app. Qed.

End TraceComputations.

(** C6. A key whose detail request is answered with 404 is asked for
    exactly once by either program: the run of its goroutine adds one
    request and the "not found" line to the trace, and nothing else; it
    does not sleep, does not ask again, writes nothing and counts
    nothing.  The line is the terminal outcome [SkippedNotFound]. *)
Theorem not_found_is_asked_once
  (md5Hash : string → string) (env : Env) (k : string) (body : Body Doc)
  (maxRetries retryDelay : Z)
  (w1 : World Monolith.Msg) (w2 : World Modular.Msg) :
  fetchDetail env k (attempts k (trace w1)) = Response http_StatusNotFound body →
  fetchDetail env k (attempts k (trace w2)) = Response http_StatusNotFound body →
  0 <= maxRetries →
  (interp env (Monolith.worker md5Hash k) w1
   = (Some tt, extend w1 [EvFetch k; EvLog (Monolith.MsgNotFound k)])
   ∧ Monolith.outcomes k [EvFetch k; EvLog (Monolith.MsgNotFound k)]
     = [SkippedNotFound])
  ∧ (interp env (Modular.worker md5Hash maxRetries retryDelay k) w2
     = (Some tt, extend w2 [EvFetch k; EvLog (Modular.MsgNotFound k)])
     ∧ Modular.outcomes k [EvFetch k; EvLog (Modular.MsgNotFound k)]
       = [SkippedNotFound]).
Proof.
  intros H1 H2 Hmax. split; split.
  - unfold Monolith.worker. by eapply monolith_loop_not_found.
  - unfold Monolith.outcomes. simpl. by rewrite decide_True.
  - unfold Modular.worker.
    replace (Z.to_nat maxRetries + 2)%nat with (S (S (Z.to_nat maxRetries)))
      by lia.
    apply modular_loop_nil; [done|]. by eapply modular_attempt_not_found.
  - unfold Modular.outcomes. simpl. by rewrite decide_True.
Qed.

Lemma not_found_is_asked_once_witness :
  let env := mkEnv (λ _, TransportError) (λ _ _, Response 404 BodyUnreadable)
                   accepting in
  (interp env (Monolith.worker digest "9") empty_world
   = (Some tt, extend empty_world [EvFetch "9"; EvLog (Monolith.MsgNotFound "9")])
   ∧ Monolith.outcomes "9" [EvFetch "9"; EvLog (Monolith.MsgNotFound "9")]
     = [SkippedNotFound])
  ∧ (interp env (Modular.worker digest 3 10000000000 "9") empty_world
     = (Some tt, extend empty_world [EvFetch "9"; EvLog (Modular.MsgNotFound "9")])
     ∧ Modular.outcomes "9" [EvFetch "9"; EvLog (Modular.MsgNotFound "9")]
       = [SkippedNotFound]).
Proof.
  intros env.
  apply (not_found_is_asked_once digest env "9" BodyUnreadable 3 10000000000
           empty_world empty_world); [reflexivity | reflexivity | lia].
Defined.

Section RetryThenStore.

Variable md5Hash : string → string.
Variable env : Env.

Lemma monolith_two_retries_then_stored k doc description (w : World Monolith.Msg) :
  transient (fetchDetail env k (attempts k (trace w))) = true →
  transient (fetchDetail env k (S (attempts k (trace w)))) = true →
  fetchDetail env k (S (S (attempts k (trace w))))
  = Response http_StatusOK (BodyJSON doc) →
  doc !! "description" = Some (JString description) →
  md5Hash description ∉ descriptionHashes w →
  updateOne env (upserts (trace w))
            (<["description_hash" := JString (md5Hash description)]> doc) = true →
  ∃ m1 m2,
    (∀ k', Monolith.terminal k' m1 = None)
    ∧ (∀ k', Monolith.terminal k' m2 = None)
    ∧ interp env (Monolith.worker md5Hash k) w
      = (Some tt,
         mkWorld (vacancyIDs w) ({[md5Hash description]} ∪ descriptionHashes w)
                 (wrap64 (savedCount w + 1))
                 (trace w
                  ++ [EvFetch k; EvLog m1; EvLog (Monolith.MsgRetryable k 1);
                      EvSleep Monolith.RetryDelay;
                      EvFetch k; EvLog m2; EvLog (Monolith.MsgRetryable k 2);
                      EvSleep Monolith.RetryDelay;
                      EvFetch k;
                      EvExists (md5Hash description) false;
                      EvUpsert (<["description_hash" :=
                                   JString (md5Hash description)]> doc) true;
                      EvAdd (md5Hash description);
                      EvLog (Monolith.MsgStored k);
                      EvSaved])).
Proof.
  intros H1 H2 H3 Hdesc Hnew Hok. unfold Monolith.worker.
  change (Z.to_nat Monolith.MaxRetries) with 3%nat.
  destruct (monolith_loop_retry md5Hash env 3 k 0 w) as (m1 & Hm1 & ->);
    [done | done |].
  change (wrap64 (0 + 1)) with 1.
  set (wA := extend w _).
  assert (HA : attempts k (trace wA) = S (attempts k (trace w))).
  { unfold wA. rewrite attempts_extend, attempts_cons_fetch.
    unfold attempts at 2. simpl. lia. }
  destruct (monolith_loop_retry md5Hash env 2 k 1 wA) as (m2 & Hm2 & ->);
    [done | by rewrite HA |].
  change (wrap64 (1 + 1)) with 2.
  set (wB := extend wA _).
  assert (HB : attempts k (trace wB) = S (S (attempts k (trace w)))).
  { unfold wB. rewrite attempts_extend, attempts_cons_fetch, HA.
    unfold attempts at 2. simpl. lia. }
  exists m1, m2. split; [done|]. split; [done|].
  rewrite (monolith_loop_stored md5Hash env 1 k 2 doc description wB).
  - unfold wB, wA. flat_world. done.
  - by rewrite HB.
  - done.
  - done.
  - unfold wB, wA. rewrite !upserts_extend. simpl. by rewrite !app_nil_r.
Qed.

Lemma modular_two_retries_then_stored k doc description retryDelay
  (w : World Modular.Msg) :
  transient (fetchDetail env k (attempts k (trace w))) = true →
  transient (fetchDetail env k (S (attempts k (trace w)))) = true →
  fetchDetail env k (S (S (attempts k (trace w))))
  = Response http_StatusOK (BodyJSON doc) →
  doc !! "description" = Some (JString description) →
  description ≠ "" →
  md5Hash description ∉ descriptionHashes w →
  updateOne env (upserts (trace w))
            (<["description_hash" := JString (md5Hash description)]> doc) = true →
  ∃ err1 err2,
    interp env (Modular.worker md5Hash 3 retryDelay k) w
    = (Some tt,
       mkWorld (vacancyIDs w) ({[md5Hash description]} ∪ descriptionHashes w)
               (wrap64 (savedCount w + 1))
               (trace w
                ++ [EvFetch k; EvLog (Modular.MsgRetrying k 1 3 err1);
                    EvSleep retryDelay;
                    EvFetch k; EvLog (Modular.MsgRetrying k 2 3 err2);
                    EvSleep retryDelay;
                    EvFetch k;
                    EvExists (md5Hash description) false;
                    EvUpsert (<["description_hash" :=
                                 JString (md5Hash description)]> doc) true;
                    EvAdd (md5Hash description);
                    EvSaved;
                    EvLog (Modular.MsgStored k)])).
Proof.
  intros H1 H2 H3 Hdesc Hne Hnew Hok. unfold Modular.worker.
  change (Z.to_nat 3 + 2)%nat with 5%nat.
  destruct (modular_attempt_transient md5Hash env k w H1) as (err1 & Hrun1).
  rewrite (modular_loop_err md5Hash env 4 3 retryDelay k 0 err1 w _ ltac:(lia) Hrun1).
  change (wrap64 (0 + 1)) with 1.
  set (wA := extend (extend w _) _).
  assert (HA : attempts k (trace wA) = S (attempts k (trace w))).
  { unfold wA. rewrite !attempts_extend, attempts_cons_fetch.
    unfold attempts at 2 3. simpl. lia. }
  rewrite <- HA in H2.
  destruct (modular_attempt_transient md5Hash env k wA H2) as (err2 & Hrun2).
  rewrite (modular_loop_err md5Hash env 3 3 retryDelay k 1 err2 wA _ ltac:(lia) Hrun2).
  change (wrap64 (1 + 1)) with 2.
  set (wB := extend (extend wA _) _).
  assert (HB : attempts k (trace wB) = S (S (attempts k (trace w)))).
  { unfold wB. rewrite !attempts_extend, attempts_cons_fetch, HA.
    unfold attempts at 2 3. simpl. lia. }
  exists err1, err2.
  erewrite (modular_loop_nil md5Hash env 2 3 retryDelay k 2 wB); [|lia|].
  2: { apply (modular_attempt_stored md5Hash env k doc description wB);
       [by rewrite HB | done | done | done |].
       unfold wB, wA. rewrite !upserts_extend. simpl. by rewrite !app_nil_r. }
  unfold wB, wA. flat_world. done.
Qed.

End RetryThenStore.

(** C7. A key whose first two detail requests fail in transit and whose
    third request is answered (with a new, non-empty description that the
    collection accepts) is stored by either program, with MaxRetries = 3.
    The goroutine makes exactly three requests; after each of the two
    failures it logs the retry and sleeps the retry delay before it asks
    again; after the third request it looks the hash up, writes the
    document once, adds the hash, and logs the terminal outcome
    [Stored]. *)
Theorem third_attempt_is_stored
  (md5Hash : string → string) (env : Env) (k : string) (doc : Doc)
  (description : string) (retryDelay : Z)
  (w1 : World Monolith.Msg) (w2 : World Modular.Msg) :
  answered_at_third md5Hash env k doc description w1 →
  answered_at_third md5Hash env k doc description w2 →
  let h := md5Hash description in
  let doc' := <["description_hash" := JString h]> doc in
  (∃ m1 m2,
     let t := [EvFetch k; EvLog m1; EvLog (Monolith.MsgRetryable k 1);
               EvSleep Monolith.RetryDelay;
               EvFetch k; EvLog m2; EvLog (Monolith.MsgRetryable k 2);
               EvSleep Monolith.RetryDelay;
               EvFetch k; EvExists h false; EvUpsert doc' true; EvAdd h;
               EvLog (Monolith.MsgStored k); EvSaved] in
     interp env (Monolith.worker md5Hash k) w1
     = (Some tt,
        mkWorld (vacancyIDs w1) ({[h]} ∪ descriptionHashes w1)
                (wrap64 (savedCount w1 + 1)) (trace w1 ++ t))
     ∧ Monolith.outcomes k t = [Stored]
     ∧ fetches t = [k; k; k])
  ∧ (∃ err1 err2,
       let t := [EvFetch k; EvLog (Modular.MsgRetrying k 1 3 err1);
                 EvSleep retryDelay;
                 EvFetch k; EvLog (Modular.MsgRetrying k 2 3 err2);
                 EvSleep retryDelay;
                 EvFetch k; EvExists h false; EvUpsert doc' true; EvAdd h;
                 EvSaved; EvLog (Modular.MsgStored k)] in
       interp env (Modular.worker md5Hash 3 retryDelay k) w2
       = (Some tt,
          mkWorld (vacancyIDs w2) ({[h]} ∪ descriptionHashes w2)
                  (wrap64 (savedCount w2 + 1)) (trace w2 ++ t))
       ∧ Modular.outcomes k t = [Stored]
       ∧ fetches t = [k; k; k]).
Proof.
  intros (A1 & A2 & A3 & A4 & _ & A6 & A7) (B1 & B2 & B3 & B4 & B5 & B6 & B7) h doc'.
  split.
  - destruct (monolith_two_retries_then_stored md5Hash env k doc description w1)
      as (m1 & m2 & Hm1 & Hm2 & Hrun); try done.
    exists m1, m2. split; [exact Hrun|]. split; [|done].
    unfold Monolith.outcomes. simpl. rewrite Hm1, Hm2. simpl.
    by rewrite decide_True.
  - destruct (modular_two_retries_then_stored md5Hash env k doc description
                retryDelay w2) as (err1 & err2 & Hrun); try done.
    exists err1, err2. split; [exact Hrun|]. split; [|done].
    unfold Modular.outcomes. simpl. by rewrite decide_True.
Qed.

Lemma third_attempt_is_stored_witness :
  let h := digest "hello" in
  let doc' := <["description_hash" := JString h]> (vacancy "1" "hello") in
  (∃ m1 m2,
     let t := [EvFetch "1"; EvLog m1; EvLog (Monolith.MsgRetryable "1" 1);
               EvSleep Monolith.RetryDelay;
               EvFetch "1"; EvLog m2; EvLog (Monolith.MsgRetryable "1" 2);
               EvSleep Monolith.RetryDelay;
               EvFetch "1"; EvExists h false; EvUpsert doc' true; EvAdd h;
               EvLog (Monolith.MsgStored "1"); EvSaved] in
     interp env_third_time (Monolith.worker digest "1") empty_world
     = (Some tt, mkWorld ∅ ({[h]} ∪ ∅) (wrap64 (0 + 1)) ([] ++ t))
     ∧ Monolith.outcomes "1" t = [Stored]
     ∧ fetches t = ["1"; "1"; "1"])
  ∧ (∃ err1 err2,
       let t := [EvFetch "1"; EvLog (Modular.MsgRetrying "1" 1 3 err1);
                 EvSleep 10000000000;
                 EvFetch "1"; EvLog (Modular.MsgRetrying "1" 2 3 err2);
                 EvSleep 10000000000;
                 EvFetch "1"; EvExists h false; EvUpsert doc' true; EvAdd h;
                 EvSaved; EvLog (Modular.MsgStored "1")] in
       interp env_third_time (Modular.worker digest 3 10000000000 "1") empty_world
       = (Some tt, mkWorld ∅ ({[h]} ∪ ∅) (wrap64 (0 + 1)) ([] ++ t))
       ∧ Modular.outcomes "1" t = [Stored]
       ∧ fetches t = ["1"; "1"; "1"]).
Proof.
  apply (third_attempt_is_stored digest env_third_time "1" (vacancy "1" "hello")
           "hello" 10000000000 empty_world empty_world);
    (unfold answered_at_third; split_and!;
     first [reflexivity | discriminate | apply not_elem_of_empty]).
Defined.

(** C1. The single-file program prints a count that is not the number of
    stored keys.  Key "2" carries a description that the collection
    already holds under key "1": nothing is written, the log says that
    the key was skipped as a duplicate, and the program still prints 1.
    The refactored program prints 0 on the same input. *)
Theorem monolith_counts_skipped_duplicates :
  let docs := [("1", digest "hello")] in
  (monolith_run env_duplicate docs 2).1 = Some (Monolith.Printed 1 false)
  ∧ upserts (trace (monolith_run env_duplicate docs 2).2) = []
  ∧ Monolith.outcomes "2" (trace (monolith_run env_duplicate docs 2).2)
    = [SkippedDuplicate]
  ∧ (modular_run env_duplicate docs 2).1 = Some (Modular.Printed 0)
  ∧ Modular.outcomes "2" (trace (modular_run env_duplicate docs 2).2)
    = [SkippedDuplicate].
Proof. vm_compute. done. Qed.

(** C2. Neither program treats a document without a usable description
    as the claim says.  With the empty string as description, the
    single-file program stores the document (one request, one write,
    outcome [Stored]); the refactored program rejects it but asks for it
    four times, sleeping in between, before it gives up.  With no
    description at all the single-file program does give up after one
    request and writes nothing, while the refactored program again asks
    four times. *)
Theorem unusable_description_is_stored_or_retried :
  let mono := (monolith_run env_empty_description [] 2).2 in
  let modu := (modular_run env_empty_description [] 2).2 in
  let mono' := (monolith_run env_no_description [] 2).2 in
  let modu' := (modular_run env_no_description [] 2).2 in
  (fetches (trace mono) = ["7"]
   ∧ Monolith.outcomes "7" (trace mono) = [Stored]
   ∧ upserts (trace mono)
     = [(<["description_hash" := JString (digest "")]> (vacancy "7" ""), true)])
  ∧ (fetches (trace modu) = ["7"; "7"; "7"; "7"]
     ∧ sleeps (trace modu) = [10000000000; 10000000000; 10000000000]
     ∧ Modular.outcomes "7" (trace modu) = [Failed]
     ∧ upserts (trace modu) = [])
  ∧ (fetches (trace mono') = ["8"]
     ∧ Monolith.outcomes "8" (trace mono') = [SkippedInvalid]
     ∧ upserts (trace mono') = [])
  ∧ (fetches (trace modu') = ["8"; "8"; "8"; "8"]
     ∧ Modular.outcomes "8" (trace modu') = [Failed]
     ∧ upserts (trace modu') = []).
Proof. vm_compute. done. Qed.

(** How the process can end.  Before the job is started it ends in a
    fatal error or in the usage message, and nothing has been asked of the
    API; once the job is started it ends by printing the count, and what
    the API answered has no part in whether the deferred [Disconnect] then
    fails. *)
Lemma monolith_exit env details inv fuel e :
  (Monolith.main env details inv fuel).1 = Some e →
  match e with
  | Monolith.Printed saved fatalOnDisconnect =>
      saved = savedCount (Monolith.main env details inv fuel).2
      ∧ fatalOnDisconnect = negb (Monolith.disconnects inv)
  | _ => trace (Monolith.main env details inv fuel).2 = []
  end.
Proof.
  unfold Monolith.main.
  destruct (negb (Monolith.logs_open inv)); [by intros [= <-]|].
  destruct (negb (Monolith.parses inv)); [by intros [= <-]|].
  repeat case_decide; try (by intros [= <-]).
  destruct (negb (Monolith.connects inv)); [by intros [= <-]|].
  destruct (Monolith.stored inv) as [docs|]; [|by intros [= <-]].
  destruct (Monolith.loadExistingData docs) as [ids hashes].
  destruct (Monolith.fetchAndStoreVacancies _ _ _ _) as [[[err|]|] w'];
    try done; by intros [= <-].
Qed.

Lemma modular_exit md5Hash env details inv fuel e :
  (Modular.main md5Hash env details inv fuel).1 = Some e →
  match e with
  | Modular.Printed saved => True
  | _ => trace (Modular.main md5Hash env details inv fuel).2 = []
  end.
Proof.
  unfold Modular.main.
  destruct (negb (Modular.parses inv)); [by intros [= <-]|].
  repeat case_decide; try (by intros [= <-]).
  destruct (negb (Modular.logs_open inv)); [by intros [= <-]|].
  destruct (negb (Modular.connects inv)); [by intros [= <-]|].
  destruct (Modular.stored inv) as [docs|]; [|by intros [= <-]].
  destruct (Modular.storage.LoadExistingData docs) as [ids hashes].
  destruct (Modular.fetchAndStoreVacancies _ _ _ _ _ _)
    as [[[saved [err|]]|] w']; try done; by intros [= <-].
Qed.

(** C3, as the programs have it.  When the request for page 0 brings no
    page, the run is not fatal.  Either program writes a line about the
    failure to its error log.  The refactored program then goes on with
    page 1, [totalPages] still 0; so does the single-file program when
    the page is lost, and when the page is refused it leaves the loop at
    once and returns without an error.  The failure does not end the
    process: a process that ends without printing the count has asked
    nothing of the API, it ended at start-up; and a process that got to
    its requests prints the count.  In the single-file program the
    deferred [Disconnect] can still fail after the count is printed, and
    that failure is fatal, whatever the pages brought. *)
Theorem first_page_failure_is_not_fatal
  (md5Hash : string → string) (env : Env)
  (details1 : list string → World Monolith.Msg → World Monolith.Msg)
  (details2 : list string → Z → Z → World Modular.Msg
              → option Modular.error * World Modular.Msg) :
  page_ok (searchPage env 0) = false →
  (∀ fuel w,
     ∃ m, let w' := extend w [EvSearch 0; EvLog m] in
          monolith_page_failure 0 m = true
          ∧ Monolith.fetchAndStoreVacancies env details1 (S fuel) w
            = if page_lost (searchPage env 0)
              then Monolith.pageLoop env details1 fuel 1 0 w'
              else (Some None, w'))
  ∧ (∀ cfg fuel w,
       ∃ err,
         let w' := mkWorld (vacancyIDs w) (descriptionHashes w) 0
                           (trace w ++ [EvSearch 0;
                                        EvLog (Modular.MsgPageFailed 0 err)]) in
         Modular.fetchAndStoreVacancies env details2 Modular.Background
                                        cfg (S fuel) w
         = Modular.pageLoop env details2 Modular.Background cfg fuel 1 0 w')
  ∧ (∀ inv fuel e,
       (Monolith.main env details1 inv fuel).1 = Some e →
       match e with
       | Monolith.Printed saved fatalOnDisconnect =>
           saved = savedCount (Monolith.main env details1 inv fuel).2
           ∧ fatalOnDisconnect = negb (Monolith.disconnects inv)
       | _ => trace (Monolith.main env details1 inv fuel).2 = []
       end)
  ∧ (∀ inv fuel e,
       (Modular.main md5Hash env details2 inv fuel).1 = Some e →
       match e with
       | Modular.Printed saved => True
       | _ => trace (Modular.main md5Hash env details2 inv fuel).2 = []
       end).
Proof.
  intros Hfail.
  assert (Hext : ∀ (Msg : Type) (w : World Msg) e m,
            emit (EvLog m) (emit e w) = extend w [e; EvLog m]).
  { intros Msg w e m. unfold emit, extend. simpl. by rewrite <- app_assoc. }
  split_and!.
  - intros fuel w. unfold Monolith.fetchAndStoreVacancies.
    cbn [Monolith.pageLoop perform].
    destruct (searchPage env 0) as [| |status [| |sp]] eqn:Hresp;
      cbn [page_lost]; unfold Monolith.say;
      try (eexists; cbv zeta; rewrite <- Hext; split; [|reflexivity]; done).
    + destruct (status =? http_StatusOK) eqn:Hs.
      * eexists. cbv zeta. rewrite <- Hext. split; [|reflexivity]. done.
      * destruct ((status =? http_StatusBadRequest)
                  || (status =? http_StatusForbidden)
                  || (status =? http_StatusNotFound));
          (eexists; cbv zeta; rewrite <- Hext; split; [|reflexivity]; done).
    + destruct (status =? http_StatusOK) eqn:Hs.
      * eexists. cbv zeta. rewrite <- Hext. split; [|reflexivity]. done.
      * destruct ((status =? http_StatusBadRequest)
                  || (status =? http_StatusForbidden)
                  || (status =? http_StatusNotFound));
          (eexists; cbv zeta; rewrite <- Hext; split; [|reflexivity]; done).
    + simpl in Hfail. rewrite Hfail.
      destruct ((status =? http_StatusBadRequest)
                || (status =? http_StatusForbidden)
                || (status =? http_StatusNotFound));
        (eexists; cbv zeta; rewrite <- Hext; split; [|reflexivity]; done).
  - intros cfg fuel w. unfold Modular.fetchAndStoreVacancies.
    cbn [Modular.pageLoop Modular.Background]. run_prog.
    destruct (searchPage env 0) as [| |status [| |sp]]; simpl in Hfail;
      try destruct (status =? http_StatusOK); try done; run_prog;
      unfold Modular.say, emit; cbn [vacancyIDs descriptionHashes savedCount trace];
      rewrite <- app_assoc; by eexists.
  - intros inv fuel e. apply monolith_exit.
  - intros inv fuel e. apply modular_exit.
Qed.

Lemma first_page_failure_is_not_fatal_witness :
  page_ok (searchPage env_first_page_lost 0) = false
  ∧ (∃ m, let w' := extend empty_world [EvSearch 0; EvLog m] in
          monolith_page_failure 0 m = true
          ∧ Monolith.fetchAndStoreVacancies env_first_page_lost
              (Monolith.fetchVacancyDetails digest env_first_page_lost) 3
              empty_world
            = if page_lost (searchPage env_first_page_lost 0)
              then Monolith.pageLoop env_first_page_lost
                     (Monolith.fetchVacancyDetails digest env_first_page_lost)
                     2 1 0 w'
              else (Some None, w'))
  ∧ (∃ err,
       let w' := mkWorld ∅ ∅ 0 ([] ++ [EvSearch 0;
                                       EvLog (Modular.MsgPageFailed 0 err)]) in
       Modular.fetchAndStoreVacancies env_first_page_lost
         (Modular.fetchAndProcessVacancies digest env_first_page_lost)
         Modular.Background (Modular.LoadConfig "a" "b" "c" "d") 3 empty_world
       = Modular.pageLoop env_first_page_lost
           (Modular.fetchAndProcessVacancies digest env_first_page_lost)
           Modular.Background (Modular.LoadConfig "a" "b" "c" "d") 2 1 0 w').
Proof.
  destruct (first_page_failure_is_not_fatal digest env_first_page_lost
              (Monolith.fetchVacancyDetails digest env_first_page_lost)
              (Modular.fetchAndProcessVacancies digest env_first_page_lost)
              eq_refl) as (H1 & H2 & _ & _).
  split; [reflexivity|].
  split; [apply (H1 2%nat empty_world) | apply (H2 _ 2%nat empty_world)].
Defined.

(** C3, as stated, fails: page 0 is lost on the wire, and both programs go
    on to ask for page 1, take it for the last page, and end normally
    with the count printed. *)
Lemma first_page_failure_is_fatal_counterexample :
  page_ok (searchPage env_first_page_lost 0) = false
  ∧ (monolith_run env_first_page_lost [] 3).1 = Some (Monolith.Printed 0 false)
  ∧ searches (trace (monolith_run env_first_page_lost [] 3).2) = [0; 1]
  ∧ (modular_run env_first_page_lost [] 3).1 = Some (Modular.Printed 0)
  ∧ searches (trace (modular_run env_first_page_lost [] 3).2) = [0; 1].
Proof. vm_compute. done. Qed.

Section ModularMiddle.

Variable env : Env.
Variable details : list string → Z → Z → World Modular.Msg
                   → option Modular.error * World Modular.Msg.
Hypothesis details_effect :
  ∀ ids maxRetries retryDelay w,
    pool_effect w (details ids maxRetries retryDelay w).2.
Variable cfg : Modular.AppConfig.

(** Whatever comes back for a page that is neither the first nor, by
    [totalPages], the last: the loop goes on with the next page. *)
Lemma modular_page_middle fuel page totalPages (w : World Modular.Msg) :
  page ≠ 0 → page < wrap64 (totalPages - 1) →
  ∃ w', pool_effect (emit (EvSearch page) w) w'
        ∧ Modular.pageLoop env details Modular.Background cfg (S fuel)
                           page totalPages w
          = Modular.pageLoop env details Modular.Background cfg fuel
                             (wrap64 (page + 1)) totalPages w'.
Proof.
  intros Hne Hlt.
  assert (Hge : (page >=? wrap64 (totalPages - 1)) = false)
    by (rewrite Z.geb_leb; apply Z.leb_gt; lia).
  assert (H0 : (page =? 0) = false) by (by apply Z.eqb_neq).
  destruct (page_ok (searchPage env page)) eqn:Hok.
  - destruct (searchPage env page) as [| |status [| |sp]] eqn:Hresp; try done.
    simpl in Hok. apply Z.eqb_eq in Hok. subst status.
    destruct (modular_page_ok env details details_effect cfg fuel page
                totalPages sp w Hresp) as (w' & He & Hrun).
    exists w'. split; [done|]. rewrite Hrun. cbv zeta. by rewrite H0, Hge.
  - by apply modular_page_failed.
Qed.

End ModularMiddle.

(** C5, as the programs have it.  When page 0 arrives and announces three
    pages, and page 2 arrives as well, either program asks for the pages
    0, 1 and 2, in this order, and returns; what comes back for page 1
    does not matter. *)
Theorem three_pages_are_asked_for
  (env : Env)
  (details1 : list string → World Monolith.Msg → World Monolith.Msg)
  (details2 : list string → Z → Z → World Modular.Msg
              → option Modular.error * World Modular.Msg)
  (first last : SearchPage) :
  (∀ ids w, pool_effect w (details1 ids w)) →
  (∀ ids maxRetries retryDelay w,
     pool_effect w (details2 ids maxRetries retryDelay w).2) →
  searchPage env 0 = Response http_StatusOK (BodyJSON first) →
  Pages first = 3 →
  searchPage env 2 = Response http_StatusOK (BodyJSON last) →
  (∀ fuel w,
     ∃ w', Monolith.fetchAndStoreVacancies env details1 (3 + fuel) w
           = (Some None, w')
           ∧ searches (trace w') = searches (trace w) ++ [0; 1; 2])
  ∧ (∀ cfg fuel w,
       ∃ w', Modular.fetchAndStoreVacancies env details2 Modular.Background
                                            cfg (3 + fuel) w
             = (Some (savedCount w', None), w')
             ∧ searches (trace w') = searches (trace w) ++ [0; 1; 2]).
Proof.
  intros Hd1 Hd2 H0 Hpages H2. split.
  - intros fuel w. unfold Monolith.fetchAndStoreVacancies.
    change (3 + fuel)%nat with (S (S (S fuel))).
    destruct (monolith_page_ok env details1 Hd1 (S (S fuel)) 0 0 first w H0)
      as (wa & Ha & ->).
    cbv zeta. simpl (0 =? 0). cbv iota. rewrite Hpages.
    change (0 >=? wrap64 (3 - 1)) with false. cbv iota.
    change (wrap64 (0 + 1)) with 1.
    destruct (monolith_page_middle env details1 Hd1 (S fuel) 1 3 wa)
      as (wb & Hb & ->); [done | by vm_compute |].
    change (wrap64 (1 + 1)) with 2.
    destruct (monolith_page_ok env details1 Hd1 fuel 2 3 last wb H2)
      as (wc & Hc & ->).
    cbv zeta. simpl (2 =? 0). cbv iota.
    change (2 >=? wrap64 (3 - 1)) with true. cbv iota.
    exists wc. split; [done|].
    apply pool_effect_searches in Ha, Hb, Hc.
    rewrite Hc, Hb, Ha. by rewrite <- !app_assoc.
  - intros cfg fuel w. unfold Modular.fetchAndStoreVacancies.
    set (w0 := mkWorld _ _ 0 _).
    change (3 + fuel)%nat with (S (S (S fuel))).
    destruct (modular_page_ok env details2 Hd2 cfg (S (S fuel)) 0 0 first w0 H0)
      as (wa & Ha & ->).
    cbv zeta. simpl (0 =? 0). cbv iota. rewrite Hpages.
    change (0 >=? wrap64 (3 - 1)) with false. cbv iota.
    change (wrap64 (0 + 1)) with 1.
    destruct (modular_page_middle env details2 Hd2 cfg (S fuel) 1 3 wa)
      as (wb & Hb & ->); [done | by vm_compute |].
    change (wrap64 (1 + 1)) with 2.
    destruct (modular_page_ok env details2 Hd2 cfg fuel 2 3 last wb H2)
      as (wc & Hc & ->).
    cbv zeta. simpl (2 =? 0). cbv iota.
    change (2 >=? wrap64 (3 - 1)) with true. cbv iota.
    exists wc. split; [done|].
    apply pool_effect_searches in Ha, Hb, Hc.
    rewrite Hc, Hb, Ha. by rewrite <- !app_assoc.
Qed.

Lemma three_pages_are_asked_for_witness :
  (∃ w', Monolith.fetchAndStoreVacancies env_three_pages
           (Monolith.fetchVacancyDetails digest env_three_pages) 3 empty_world
         = (Some None, w')
         ∧ searches (trace w') = [] ++ [0; 1; 2])
  ∧ (∃ w', Modular.fetchAndStoreVacancies env_three_pages
             (Modular.fetchAndProcessVacancies digest env_three_pages)
             Modular.Background (Modular.LoadConfig "a" "b" "c" "d") 3 empty_world
           = (Some (savedCount w', None), w')
           ∧ searches (trace w') = [] ++ [0; 1; 2]).
Proof.
  destruct (three_pages_are_asked_for env_three_pages
              (Monolith.fetchVacancyDetails digest env_three_pages)
              (Modular.fetchAndProcessVacancies digest env_three_pages)
              (mkSearchPage 3 []) (mkSearchPage 3 [])
              (monolith_serial_effect digest env_three_pages)
              (modular_serial_effect digest env_three_pages)
              eq_refl eq_refl eq_refl) as [H1 H2].
  split.
  - apply (H1 0%nat empty_world).
  - apply (H2 (Modular.LoadConfig "a" "b" "c" "d") 0%nat empty_world).
Defined.

(** C5, as stated, fails: page 0 arrives and announces three pages, the
    request for page 2 is lost on the wire, and both programs go on to
    ask for page 3. *)
Lemma three_pages_counterexample :
  searchPage env_last_page_lost 0
  = Response http_StatusOK (BodyJSON (mkSearchPage 3 []))
  ∧ (monolith_run env_last_page_lost [] 5).1 = Some (Monolith.Printed 0 false)
  ∧ searches (trace (monolith_run env_last_page_lost [] 5).2) = [0; 1; 2; 3]
  ∧ (modular_run env_last_page_lost [] 5).1 = Some (Modular.Printed 0)
  ∧ searches (trace (modular_run env_last_page_lost [] 5).2) = [0; 1; 2; 3].
Proof. vm_compute. done. Qed.

Section FailingPrefix.

Variable env : Env.

Lemma wrap64_succ (q : nat) :
  Z.of_nat (S q) < 2 ^ 63 → wrap64 (Z.of_nat q + 1) = Z.of_nat (S q).
Proof. intros H. rewrite wrap64_small; unfold in_int64; lia. Qed.

(** A run of pages that are lost takes the single-file program from the
    first of them to the page after the last, [totalPages] untouched. *)
Lemma monolith_lost_prefix
  (details : list string → World Monolith.Msg → World Monolith.Msg)
  (n q fuel : nat) (totalPages : Z) (w : World Monolith.Msg) :
  (∀ j, (j < n)%nat → page_lost (searchPage env (Z.of_nat (q + j))) = true) →
  Z.of_nat (q + n) < 2 ^ 63 →
  ∃ w', Monolith.pageLoop env details (n + fuel) (Z.of_nat q) totalPages w
        = Monolith.pageLoop env details fuel (Z.of_nat (q + n)) totalPages w'
        ∧ searches (trace w') = searches (trace w) ++ (Z.of_nat <$> seq q n).
Proof.
  revert q w. induction n as [|n IH]; intros q w Hlost Hbound.
  - exists w. rewrite Nat.add_0_r, app_nil_r. done.
  - destruct (monolith_page_lost env details (n + fuel) (Z.of_nat q) totalPages w)
      as (w1 & He & Hrun).
    { specialize (Hlost 0%nat ltac:(lia)). by rewrite Nat.add_0_r in Hlost. }
    rewrite wrap64_succ in Hrun by lia.
    destruct (IH (S q) w1) as (w' & Hrun' & Hs).
    { intros j Hj. specialize (Hlost (S j) ltac:(lia)).
      by replace (S q + j)%nat with (q + S j)%nat by lia. }
    { by replace (S q + n)%nat with (q + S n)%nat by lia. }
    exists w'. split.
    + cbn [Nat.add]. rewrite Hrun, Hrun'. f_equal. f_equal. lia.
    + rewrite Hs. apply pool_effect_searches in He. rewrite He.
      by rewrite <- app_assoc.
Qed.

(** The same for the refactored program, whatever the failures are. *)
Lemma modular_failed_prefix
  (details : list string → Z → Z → World Modular.Msg
             → option Modular.error * World Modular.Msg)
  (cfg : Modular.AppConfig)
  (n q fuel : nat) (totalPages : Z) (w : World Modular.Msg) :
  (∀ j, (j < n)%nat → page_ok (searchPage env (Z.of_nat (q + j))) = false) →
  Z.of_nat (q + n) < 2 ^ 63 →
  ∃ w', Modular.pageLoop env details Modular.Background cfg (n + fuel)
                         (Z.of_nat q) totalPages w
        = Modular.pageLoop env details Modular.Background cfg fuel
                           (Z.of_nat (q + n)) totalPages w'
        ∧ searches (trace w') = searches (trace w) ++ (Z.of_nat <$> seq q n).
Proof.
  revert q w. induction n as [|n IH]; intros q w Hfail Hbound.
  - exists w. rewrite Nat.add_0_r, app_nil_r. done.
  - destruct (modular_page_failed env details cfg (n + fuel) (Z.of_nat q)
                totalPages w) as (w1 & He & Hrun).
    { specialize (Hfail 0%nat ltac:(lia)). by rewrite Nat.add_0_r in Hfail. }
    rewrite wrap64_succ in Hrun by lia.
    destruct (IH (S q) w1) as (w' & Hrun' & Hs).
    { intros j Hj. specialize (Hfail (S j) ltac:(lia)).
      by replace (S q + j)%nat with (q + S j)%nat by lia. }
    { by replace (S q + n)%nat with (q + S n)%nat by lia. }
    exists w'. split.
    + cbn [Nat.add]. rewrite Hrun, Hrun'. f_equal. f_equal. lia.
    + rewrite Hs. apply pool_effect_searches in He. rewrite He.
      by rewrite <- app_assoc.
Qed.

End FailingPrefix.

(** C10. When page 0 brings no page, [totalPages] keeps its zero value;
    the test [page >= totalPages - 1] then holds wherever it is made, and
    the run ends right after the first page that arrives, page [p]: the
    pages asked for are exactly 0, ..., p, whatever page [p] announces.
    In the refactored program every failure leads to the next page, so
    [p] is the first page that arrives at all.  In the single-file
    program the test is also made after a page that is refused, so the
    run ends right after the first page that is not lost, be it refused
    or arrived; when a page arrives in such a run, it is that one. *)
Theorem unset_total_ends_the_run_at_the_first_page
  (env : Env)
  (details1 : list string → World Monolith.Msg → World Monolith.Msg)
  (details2 : list string → Z → Z → World Modular.Msg
              → option Modular.error * World Modular.Msg)
  (p : nat) :
  (∀ ids w, pool_effect w (details1 ids w)) →
  (∀ ids maxRetries retryDelay w,
     pool_effect w (details2 ids maxRetries retryDelay w).2) →
  (0 < p)%nat →
  Z.of_nat p < 2 ^ 63 →
  ((∀ j, (j < p)%nat → page_ok (searchPage env (Z.of_nat j)) = false) →
   page_ok (searchPage env (Z.of_nat p)) = true →
   ∀ cfg fuel w,
     ∃ w', Modular.fetchAndStoreVacancies env details2 Modular.Background cfg
                                          (S p + fuel) w
           = (Some (savedCount w', None), w')
           ∧ searches (trace w')
             = searches (trace w) ++ (Z.of_nat <$> seq 0 (S p)))
  ∧ ((∀ j, (j < p)%nat → page_lost (searchPage env (Z.of_nat j)) = true) →
     page_lost (searchPage env (Z.of_nat p)) = false →
     ∀ fuel w,
       ∃ w', Monolith.fetchAndStoreVacancies env details1 (S p + fuel) w
             = (Some None, w')
             ∧ searches (trace w')
               = searches (trace w) ++ (Z.of_nat <$> seq 0 (S p))).
Proof.
  intros Hd1 Hd2 Hpos Hbound.
  assert (Hne : Z.of_nat p ≠ 0) by lia.
  assert (H0 : (Z.of_nat p =? 0) = false) by (by apply Z.eqb_neq).
  assert (Hge : (Z.of_nat p >=? wrap64 (0 - 1)) = true).
  { change (wrap64 (0 - 1)) with (-1). rewrite Z.geb_leb. apply Z.leb_le. lia. }
  split.
  - intros Hfail Hp cfg fuel w. unfold Modular.fetchAndStoreVacancies.
    destruct (searchPage env (Z.of_nat p)) as [| |status [| |arrived]] eqn:Hresp;
      try done.
    simpl in Hp. apply Z.eqb_eq in Hp. subst status.
    set (w0 := mkWorld _ _ 0 _).
    replace (S p + fuel)%nat with (p + S fuel)%nat by lia.
    destruct (modular_failed_prefix env details2 cfg p 0 (S fuel) 0 w0)
      as (w1 & Hrun & Hs1); [done | done |].
    cbn [Nat.add] in Hrun. change (Z.of_nat 0) with 0 in Hrun. rewrite Hrun.
    destruct (modular_page_ok env details2 Hd2 cfg fuel (Z.of_nat p) 0
                arrived w1 Hresp) as (w2 & He & ->).
    cbv zeta. rewrite H0, Hge. exists w2. split; [done|].
    apply pool_effect_searches in He. rewrite He, Hs1.
    rewrite seq_S, fmap_app, <- app_assoc. done.
  - intros Hlost Hp fuel w. unfold Monolith.fetchAndStoreVacancies.
    replace (S p + fuel)%nat with (p + S fuel)%nat by lia.
    destruct (monolith_lost_prefix env details1 p 0 (S fuel) 0 w)
      as (w1 & Hrun & Hs1); [done | done |].
    cbn [Nat.add] in Hrun. change (Z.of_nat 0) with 0 in Hrun. rewrite Hrun.
    assert (Hend : ∃ w2, pool_effect (emit (EvSearch (Z.of_nat p)) w1) w2
                         ∧ Monolith.pageLoop env details1 (S fuel) (Z.of_nat p) 0 w1
                           = (Some None, w2)).
    { destruct (page_refused (searchPage env (Z.of_nat p))) eqn:Href.
      - destruct (monolith_page_refused env details1 fuel (Z.of_nat p) 0 w1 Href)
          as (w2 & He & Hrun2).
        exists w2. split; [done|]. by rewrite Hrun2, Hge.
      - destruct (searchPage env (Z.of_nat p)) as [| |status [| |arrived]] eqn:Hresp;
          try done; simpl in Hp, Href; apply negb_false_iff in Href;
          try congruence.
        apply Z.eqb_eq in Href. subst status.
        destruct (monolith_page_ok env details1 Hd1 fuel (Z.of_nat p) 0
                    arrived w1 Hresp) as (w2 & He & Hrun2).
        exists w2. split; [done|]. rewrite Hrun2. cbv zeta. by rewrite H0, Hge. }
    destruct Hend as (w2 & He & ->).
    exists w2. split; [done|].
    apply pool_effect_searches in He. rewrite He, Hs1.
    rewrite seq_S, fmap_app, <- app_assoc. done.
Qed.

Lemma unset_total_ends_the_run_at_the_first_page_witness :
  (∃ w', Modular.fetchAndStoreVacancies env_first_of_five_lost
           (Modular.fetchAndProcessVacancies digest env_first_of_five_lost)
           Modular.Background (Modular.LoadConfig "a" "b" "c" "d") 2 empty_world
         = (Some (savedCount w', None), w')
         ∧ searches (trace w') = [] ++ [0; 1])
  ∧ (∃ w', Monolith.fetchAndStoreVacancies env_first_of_five_lost
             (Monolith.fetchVacancyDetails digest env_first_of_five_lost)
             2 empty_world
           = (Some None, w')
           ∧ searches (trace w') = [] ++ [0; 1]).
Proof.
  destruct (unset_total_ends_the_run_at_the_first_page env_first_of_five_lost
              (Monolith.fetchVacancyDetails digest env_first_of_five_lost)
              (Modular.fetchAndProcessVacancies digest env_first_of_five_lost)
              1
              (monolith_serial_effect digest env_first_of_five_lost)
              (modular_serial_effect digest env_first_of_five_lost)
              ltac:(lia) ltac:(reflexivity)) as [H1 H2].
  split.
  - apply (H1 ltac:(intros [|j] Hj; [reflexivity | lia]) eq_refl
              (Modular.LoadConfig "a" "b" "c" "d") 0%nat empty_world).
  - apply (H2 ltac:(intros [|j] Hj; [reflexivity | lia]) eq_refl
              0%nat empty_world).
Defined.




Section SameText.

Variable md5Hash : string → string.
Variable env : Env.

Lemma attempts_other_key (Msg : Type) (k k' : string) (w : World Msg)
  (t : list (Event Msg)) :
  k' ≠ k → fetches t = [k'] → attempts k (trace w ++ t) = attempts k (trace w).
Proof.
  intros Hne Ht. rewrite attempts_app. unfold attempts at 2. rewrite Ht.
  rewrite filter_cons, decide_False by done. simpl. lia.
Qed.

(** One goroutine after the other: the first key is stored, the second
    finds the hash and is skipped. *)
Lemma monolith_serial_pair k1 k2 doc1 doc2 description (w : World Monolith.Msg) :
  k1 ≠ k2 →
  answered_at_once md5Hash env k1 doc1 description w →
  brings env k2 doc2 description w →
  let h := md5Hash description in
  Monolith.fetchVacancyDetails md5Hash env [k1; k2] w
  = mkWorld (vacancyIDs w) ({[h]} ∪ descriptionHashes w)
            (wrap64 (wrap64 (savedCount w + 1) + 1))
            (trace w
             ++ [EvFetch k1; EvExists h false;
                 EvUpsert (<["description_hash" := JString h]> doc1) true;
                 EvAdd h; EvLog (Monolith.MsgStored k1); EvSaved;
                 EvFetch k2; EvExists h true;
                 EvLog (Monolith.MsgDuplicate k2); EvSaved]).
Proof.
  intros Hne (A1 & A2 & _ & A4 & A5) (B1 & B2 & _) h.
  unfold Monolith.fetchVacancyDetails, Monolith.worker. cbn [foldl].
  rewrite (monolith_loop_stored md5Hash env _ k1 0 doc1 description w) by done.
  cbn [snd]. fold h.
  set (wA := mkWorld _ _ _ _).
  rewrite (monolith_loop_duplicate md5Hash env _ k2 0 doc2 description wA).
  - cbn [snd]. unfold wA. cbn [vacancyIDs descriptionHashes savedCount trace].
    by rewrite <- app_assoc.
  - unfold wA. cbn [trace]. by rewrite (attempts_other_key _ k2 k1).
  - done.
  - unfold wA, h. cbn [descriptionHashes]. set_solver.
Qed.

Lemma modular_serial_pair k1 k2 doc1 doc2 description maxRetries retryDelay
  (w : World Modular.Msg) :
  0 <= maxRetries →
  k1 ≠ k2 →
  answered_at_once md5Hash env k1 doc1 description w →
  brings env k2 doc2 description w →
  let h := md5Hash description in
  (Modular.fetchAndProcessVacancies md5Hash env [k1; k2] maxRetries retryDelay w).2
  = mkWorld (vacancyIDs w) ({[h]} ∪ descriptionHashes w)
            (wrap64 (savedCount w + 1))
            (trace w
             ++ [EvFetch k1; EvExists h false;
                 EvUpsert (<["description_hash" := JString h]> doc1) true;
                 EvAdd h; EvSaved; EvLog (Modular.MsgStored k1);
                 EvFetch k2; EvExists h true;
                 EvLog (Modular.MsgDuplicate k2)]).
Proof.
  intros Hmax Hne (A1 & A2 & A3 & A4 & A5) (B1 & B2 & B3) h.
  unfold Modular.fetchAndProcessVacancies, Modular.worker. cbn [foldl snd].
  replace (Z.to_nat maxRetries + 2)%nat with (S (S (Z.to_nat maxRetries)))
    by lia.
  pose proof (modular_attempt_stored md5Hash env k1 doc1 description w
                A1 A2 A3 A4 A5) as E1.
  rewrite (modular_loop_nil md5Hash env _ maxRetries retryDelay k1 0 w _ Hmax E1).
  cbn [snd]. fold h. fold h in E1.
  set (wA := mkWorld _ _ _ _) in *.
  assert (E2 : interp env (Modular.processVacancy md5Hash k2) wA
               = (None, extend wA [EvFetch k2; EvExists h true;
                                   EvLog (Modular.MsgDuplicate k2)])).
  { apply (modular_attempt_duplicate md5Hash env k2 doc2 description wA).
    - unfold wA. cbn [trace]. by rewrite (attempts_other_key _ k2 k1).
    - done.
    - done.
    - unfold wA, h. cbn [descriptionHashes]. set_solver. }
  rewrite (modular_loop_nil md5Hash env _ maxRetries retryDelay k2 0 wA _ Hmax E2).
  cbn [snd]. unfold wA, extend.
  cbn [vacancyIDs descriptionHashes savedCount trace].
  by rewrite <- app_assoc.
Qed.

(** One goroutine after the other, the hash of the text already in the
    set: both keys find it and are skipped. *)
Lemma monolith_known_pair k1 k2 doc1 doc2 description (w : World Monolith.Msg) :
  k1 ≠ k2 →
  brings env k1 doc1 description w →
  brings env k2 doc2 description w →
  md5Hash description ∈ descriptionHashes w →
  let h := md5Hash description in
  Monolith.fetchVacancyDetails md5Hash env [k1; k2] w
  = mkWorld (vacancyIDs w) (descriptionHashes w)
            (wrap64 (wrap64 (savedCount w + 1) + 1))
            (trace w
             ++ [EvFetch k1; EvExists h true;
                 EvLog (Monolith.MsgDuplicate k1); EvSaved;
                 EvFetch k2; EvExists h true;
                 EvLog (Monolith.MsgDuplicate k2); EvSaved]).
Proof.
  intros Hne (A1 & A2 & _) (B1 & B2 & _) Hold h.
  unfold Monolith.fetchVacancyDetails, Monolith.worker. cbn [foldl].
  rewrite (monolith_loop_duplicate md5Hash env _ k1 0 doc1 description w) by done.
  cbn [snd]. fold h.
  set (wA := mkWorld _ _ _ _).
  rewrite (monolith_loop_duplicate md5Hash env _ k2 0 doc2 description wA).
  - cbn [snd]. unfold wA. cbn [vacancyIDs descriptionHashes savedCount trace].
    by rewrite <- app_assoc.
  - unfold wA. cbn [trace]. by rewrite (attempts_other_key _ k2 k1).
  - done.
  - done.
Qed.

Lemma modular_known_pair k1 k2 doc1 doc2 description maxRetries retryDelay
  (w : World Modular.Msg) :
  0 <= maxRetries →
  k1 ≠ k2 →
  brings env k1 doc1 description w →
  brings env k2 doc2 description w →
  md5Hash description ∈ descriptionHashes w →
  let h := md5Hash description in
  (Modular.fetchAndProcessVacancies md5Hash env [k1; k2] maxRetries retryDelay w).2
  = mkWorld (vacancyIDs w) (descriptionHashes w) (savedCount w)
            (trace w
             ++ [EvFetch k1; EvExists h true; EvLog (Modular.MsgDuplicate k1);
                 EvFetch k2; EvExists h true; EvLog (Modular.MsgDuplicate k2)]).
Proof.
  intros Hmax Hne (A1 & A2 & A3) (B1 & B2 & B3) Hold h.
  unfold Modular.fetchAndProcessVacancies, Modular.worker. cbn [foldl snd].
  replace (Z.to_nat maxRetries + 2)%nat with (S (S (Z.to_nat maxRetries)))
    by lia.
  pose proof (modular_attempt_duplicate md5Hash env k1 doc1 description w
                A1 A2 A3 Hold) as E1.
  rewrite (modular_loop_nil md5Hash env _ maxRetries retryDelay k1 0 w _ Hmax E1).
  cbn [snd]. fold h. fold h in E1.
  set (wA := extend w _) in *.
  assert (E2 : interp env (Modular.processVacancy md5Hash k2) wA
               = (None, extend wA [EvFetch k2; EvExists h true;
                                   EvLog (Modular.MsgDuplicate k2)])).
  { apply (modular_attempt_duplicate md5Hash env k2 doc2 description wA).
    - unfold wA, extend. cbn [trace]. by rewrite (attempts_other_key _ k2 k1).
    - done.
    - done.
    - done. }
  rewrite (modular_loop_nil md5Hash env _ maxRetries retryDelay k2 0 wA _ Hmax E2).
  cbn [snd]. unfold wA, extend.
  cbn [vacancyIDs descriptionHashes savedCount trace].
  by rewrite <- app_assoc.
Qed.

End SameText.

(** C8, as the programs have it.  Two distinct keys are each answered at
    once with a document, and the two documents carry the same
    description, a text that is not empty.  The goroutines of the two
    keys run one after the other, in either order.  When the hash of the
    text is not yet in the set and the collection accepts the document
    of the key that goes first, that key is stored, with one write, and
    the other one finds the hash in the set and is skipped as a
    duplicate, with no write.  When the hash is in the set already, both
    keys are skipped as duplicates and nothing is written. *)
Theorem same_text_one_after_the_other
  (md5Hash : string → string) (env : Env) (k1 k2 : string) (doc1 doc2 : Doc)
  (description : string) (maxRetries retryDelay : Z)
  (w1 : World Monolith.Msg) (w2 : World Modular.Msg) :
  k1 ≠ k2 →
  0 <= maxRetries →
  brings env k1 doc1 description w1 →
  brings env k2 doc2 description w1 →
  brings env k1 doc1 description w2 →
  brings env k2 doc2 description w2 →
  let h := md5Hash description in
  let hashed := λ doc : Doc, <["description_hash" := JString h]> doc in
  let mono := λ ids, since w1 (Monolith.fetchVacancyDetails md5Hash env ids w1) in
  let modu := λ ids,
    since w2 (Modular.fetchAndProcessVacancies md5Hash env ids
                maxRetries retryDelay w2).2 in
  ((h ∉ descriptionHashes w1 →
    (updateOne env (upserts (trace w1)) (hashed doc1) = true →
     one_stored_one_skipped Monolith.outcomes k1 k2 (hashed doc1)
                            (mono [k1; k2]))
    ∧ (updateOne env (upserts (trace w1)) (hashed doc2) = true →
       one_stored_one_skipped Monolith.outcomes k2 k1 (hashed doc2)
                              (mono [k2; k1])))
   ∧ (h ∈ descriptionHashes w1 →
      both_skipped Monolith.outcomes k1 k2 (mono [k1; k2])
      ∧ both_skipped Monolith.outcomes k2 k1 (mono [k2; k1])))
  ∧ ((h ∉ descriptionHashes w2 →
      (updateOne env (upserts (trace w2)) (hashed doc1) = true →
       one_stored_one_skipped Modular.outcomes k1 k2 (hashed doc1)
                              (modu [k1; k2]))
      ∧ (updateOne env (upserts (trace w2)) (hashed doc2) = true →
         one_stored_one_skipped Modular.outcomes k2 k1 (hashed doc2)
                                (modu [k2; k1])))
     ∧ (h ∈ descriptionHashes w2 →
        both_skipped Modular.outcomes k1 k2 (modu [k1; k2])
        ∧ both_skipped Modular.outcomes k2 k1 (modu [k2; k1]))).
Proof.
  intros Hne Hmax A1 A2 B1 B2 h hashed mono modu.
  assert (Hne' : k2 ≠ k1) by done.
  assert (Honce : ∀ (Msg : Type) (w : World Msg) k doc,
            brings env k doc description w →
            h ∉ descriptionHashes w →
            updateOne env (upserts (trace w)) (hashed doc) = true →
            answered_at_once md5Hash env k doc description w).
  { intros Msg w k doc (H1 & H2 & H3) H4 H5. by split_and!. }
  split; split.
  - intros Hnew. unfold mono. split; intros Hok.
    + rewrite (monolith_serial_pair md5Hash env k1 k2 doc1 doc2 description w1)
        by auto.
      erewrite since_app by reflexivity.
      unfold one_stored_one_skipped, Monolith.outcomes. simpl.
      repeat case_decide; done.
    + rewrite (monolith_serial_pair md5Hash env k2 k1 doc2 doc1 description w1)
        by auto.
      erewrite since_app by reflexivity.
      unfold one_stored_one_skipped, Monolith.outcomes. simpl.
      repeat case_decide; done.
  - intros Hold. unfold mono. split.
    + rewrite (monolith_known_pair md5Hash env k1 k2 doc1 doc2 description w1)
        by done.
      erewrite since_app by reflexivity.
      unfold both_skipped, Monolith.outcomes. simpl.
      repeat case_decide; done.
    + rewrite (monolith_known_pair md5Hash env k2 k1 doc2 doc1 description w1)
        by done.
      erewrite since_app by reflexivity.
      unfold both_skipped, Monolith.outcomes. simpl.
      repeat case_decide; done.
  - intros Hnew. unfold modu. split; intros Hok.
    + rewrite (modular_serial_pair md5Hash env k1 k2 doc1 doc2 description
                 maxRetries retryDelay w2) by auto.
      erewrite since_app by reflexivity.
      unfold one_stored_one_skipped, Modular.outcomes. simpl.
      repeat case_decide; done.
    + rewrite (modular_serial_pair md5Hash env k2 k1 doc2 doc1 description
                 maxRetries retryDelay w2) by auto.
      erewrite since_app by reflexivity.
      unfold one_stored_one_skipped, Modular.outcomes. simpl.
      repeat case_decide; done.
  - intros Hold. unfold modu. split.
    + rewrite (modular_known_pair md5Hash env k1 k2 doc1 doc2 description
                 maxRetries retryDelay w2) by done.
      erewrite since_app by reflexivity.
      unfold both_skipped, Modular.outcomes. simpl.
      repeat case_decide; done.
    + rewrite (modular_known_pair md5Hash env k2 k1 doc2 doc1 description
                 maxRetries retryDelay w2) by done.
      erewrite since_app by reflexivity.
      unfold both_skipped, Modular.outcomes. simpl.
      repeat case_decide; done.
Qed.

(** The two keys of [env_same_text], first over an empty hash set, then
    over a set that holds the hash of their text. *)
Lemma same_text_one_after_the_other_witness :
  let hashed := λ doc : Doc,
    <["description_hash" := JString (digest "hello")]> doc in
  let known : ∀ Msg, World Msg := λ Msg, mkWorld ∅ {[digest "hello"]} 0 [] in
  ((one_stored_one_skipped Monolith.outcomes "1" "2" (hashed (vacancy "1" "hello"))
      (since empty_world
         (Monolith.fetchVacancyDetails digest env_same_text ["1"; "2"] empty_world))
    ∧ one_stored_one_skipped Monolith.outcomes "2" "1"
        (hashed (vacancy "2" "hello"))
        (since empty_world
           (Monolith.fetchVacancyDetails digest env_same_text ["2"; "1"]
              empty_world)))
   ∧ (one_stored_one_skipped Modular.outcomes "1" "2"
        (hashed (vacancy "1" "hello"))
        (since empty_world
           (Modular.fetchAndProcessVacancies digest env_same_text ["1"; "2"]
              3 10000000000 empty_world).2)
      ∧ one_stored_one_skipped Modular.outcomes "2" "1"
          (hashed (vacancy "2" "hello"))
          (since empty_world
             (Modular.fetchAndProcessVacancies digest env_same_text ["2"; "1"]
                3 10000000000 empty_world).2)))
  ∧ ((both_skipped Monolith.outcomes "1" "2"
        (since (known _)
           (Monolith.fetchVacancyDetails digest env_same_text ["1"; "2"] (known _)))
      ∧ both_skipped Monolith.outcomes "2" "1"
          (since (known _)
             (Monolith.fetchVacancyDetails digest env_same_text ["2"; "1"]
                (known _))))
     ∧ (both_skipped Modular.outcomes "1" "2"
          (since (known _)
             (Modular.fetchAndProcessVacancies digest env_same_text ["1"; "2"]
                3 10000000000 (known _)).2)
        ∧ both_skipped Modular.outcomes "2" "1"
            (since (known _)
               (Modular.fetchAndProcessVacancies digest env_same_text ["2"; "1"]
                  3 10000000000 (known _)).2))).
Proof.
  intros hashed known.
  assert (Hin : digest "hello" ∈ ({[digest "hello"]} : gset string))
    by (by apply elem_of_singleton).
  pose proof (same_text_one_after_the_other digest env_same_text "1" "2"
                (vacancy "1" "hello") (vacancy "2" "hello") "hello"
                3 10000000000 empty_world empty_world)
    as [[Hnew1 _] [Hnew2 _]];
    try (unfold brings; split_and!; first [reflexivity | discriminate]);
    [discriminate | lia |].
  pose proof (same_text_one_after_the_other digest env_same_text "1" "2"
                (vacancy "1" "hello") (vacancy "2" "hello") "hello"
                3 10000000000 (known _) (known _))
    as [[_ Hold1] [_ Hold2]];
    try (unfold brings; split_and!; first [reflexivity | discriminate]);
    [discriminate | lia |].
  split; split.
  - destruct (Hnew1 (not_elem_of_empty _)) as [H12 H21].
    split; [apply H12 | apply H21]; reflexivity.
  - destruct (Hnew2 (not_elem_of_empty _)) as [H12 H21].
    split; [apply H12 | apply H21]; reflexivity.
  - apply Hold1, Hin.
  - apply Hold2, Hin.
Defined.

(** C8, as stated, fails when the two goroutines overlap.  If both look
    the hash up before either has added it, both write; a collection that
    accepts the second write leaves both keys stored.  Over a collection
    with the unique index on the hash, the second write is refused and
    tried again: if the first goroutine is slow to add its hash, the
    second key uses up its attempts and ends as failed, with four refused
    writes, not as a duplicate. *)
Lemma same_text_counterexample :
  (let s := Monolith.pool_run digest env_same_text monolith_race
              (Monolith.pool_start ["1"; "2"] empty_world) in
   Monolith.returned s = true
   ∧ Monolith.outcomes "1" (trace (Monolith.world s)) = [Stored]
   ∧ Monolith.outcomes "2" (trace (Monolith.world s)) = [Stored]
   ∧ (upserts (trace (Monolith.world s))).*2 = [true; true])
  ∧ (let s := Modular.pool_run digest env_same_text 3 10000000000 modular_race
                (Modular.pool_start ["1"; "2"] empty_world) in
     Modular.returned s = Some None
     ∧ Modular.outcomes "1" (trace (Modular.world s)) = [Stored]
     ∧ Modular.outcomes "2" (trace (Modular.world s)) = [Stored]
     ∧ (upserts (trace (Modular.world s))).*2 = [true; true])
  ∧ (let s := Monolith.pool_run digest env_same_text_indexed monolith_stall
                (Monolith.pool_start ["1"; "2"] empty_world) in
     Monolith.returned s = true
     ∧ Monolith.outcomes "1" (trace (Monolith.world s)) = [Stored]
     ∧ Monolith.outcomes "2" (trace (Monolith.world s)) = [Failed]
     ∧ (upserts (trace (Monolith.world s))).*2
       = [true; false; false; false; false])
  ∧ (let s := Modular.pool_run digest env_same_text_indexed 3 10000000000
                modular_stall (Modular.pool_start ["1"; "2"] empty_world) in
     Modular.returned s = Some None
     ∧ Modular.outcomes "1" (trace (Modular.world s)) = [Stored]
     ∧ Modular.outcomes "2" (trace (Modular.world s)) = [Failed]
     ∧ (upserts (trace (Modular.world s))).*2
       = [true; false; false; false; false]).
Proof. vm_compute. done. Qed.

(** C9. However many keys a page brings and however the goroutines are
    scheduled, at no moment are more than ten detail requests in flight:
    a request is in flight only in a goroutine that holds a slot of the
    semaphore, the goroutines that hold a slot are as many as the channel
    holds tokens, and the channel holds at most ten.  A key in excess
    waits: in the single-file program its goroutine stays at the send on
    the full channel, in the refactored program the loop that starts the
    goroutines does, and either moves on as soon as the channel is not
    full. *)
Theorem at_most_ten_requests_in_flight
  (md5Hash : string → string) (env : Env) (maxRetries retryDelay : Z)
  (ids : list string)
  (w1 : World Monolith.Msg) (schedule1 : list Monolith.Tick)
  (w2 : World Modular.Msg) (schedule2 : list Modular.Tick) :
  let s1 := Monolith.pool_run md5Hash env schedule1 (Monolith.pool_start ids w1) in
  let s2 := Modular.pool_run md5Hash env maxRetries retryDelay schedule2
              (Modular.pool_start ids w2) in
  ((Monolith.inFlight s1 ≤ Monolith.holders s1)%nat
   ∧ Monolith.holders s1 = Monolith.sem s1
   ∧ (Monolith.sem s1 ≤ 10)%nat
   ∧ ∀ i k,
       Monolith.goroutines s1 !! i = Some (Monolith.GSend k) →
       if decide (Monolith.sem s1 = 10%nat)
       then Monolith.go_step md5Hash env i s1 = s1
       else Monolith.goroutines (Monolith.go_step md5Hash env i s1) !! i
            = Some (Monolith.GLoop (Running (Monolith.worker md5Hash k))))
  ∧ ((Modular.inFlight s2 ≤ Modular.holders s2)%nat
     ∧ Modular.holders s2 = Modular.sem s2
     ∧ (Modular.sem s2 ≤ 10)%nat
     ∧ ∀ k rest,
         Modular.returned s2 = None →
         Modular.todo s2 = k :: rest →
         if decide (Modular.sem s2 = 10%nat)
         then Modular.main_step md5Hash maxRetries retryDelay s2 = s2
         else Modular.goroutines
                (Modular.main_step md5Hash maxRetries retryDelay s2)
              = Modular.goroutines s2
                ++ [Modular.GLoop
                      (Running (Modular.worker md5Hash maxRetries retryDelay k))]).
Proof.
  intros s1 s2.
  assert (I1 : monolith_pool_inv s1)
    by apply monolith_inv_run, monolith_inv_start.
  assert (I2 : modular_pool_inv s2)
    by apply modular_inv_run, modular_inv_start.
  destruct I1 as [H1 C1]. destruct I2 as [H2 C2].
  split; split_and!; try done.
  - apply monolith_inFlight_holders.
  - intros i k Hi. case_decide.
    + by eapply monolith_send_blocks.
    + eapply monolith_send_enters; [done|].
      unfold Monolith.MaxConcurrency in *. lia.
  - apply modular_inFlight_holders.
  - intros k rest Hr Ht. case_decide.
    + by eapply modular_send_blocks.
    + eapply modular_send_enters; [done|done|lia].
Qed.

(** Twelve keys for ten slots: when every goroutine of the single-file
    program has tried to take a slot, ten are in the loop and two are
    still at the send; the refactored program has started ten goroutines
    and keeps two keys back. *)
Example twelve_keys_ten_slots :
  (let s := Monolith.pool_run digest env_same_text monolith_rush
              (Monolith.pool_start twelve_keys empty_world) in
   Monolith.sem s = 10%nat ∧ Monolith.holders s = 10%nat
   ∧ drop 10 (Monolith.goroutines s) = [Monolith.GSend "k"; Monolith.GSend "l"])
  ∧ (let s := Modular.pool_run digest env_same_text 3 10000000000 modular_rush
                (Modular.pool_start twelve_keys empty_world) in
     Modular.sem s = 10%nat ∧ Modular.holders s = 10%nat
     ∧ length (Modular.goroutines s) = 10%nat
     ∧ Modular.todo s = ["k"; "l"]).
Proof. vm_compute. done. Qed.
(** * Further properties of the programs *)

(** * What is loaded at start-up *)

Section Loading.

Implicit Types (docs : list (string * string)) (acc : gset string * gset string).

Lemma load_fold_ids acc docs (id : string) :
  id ∈ (foldl (λ acc doc,
                 ({[doc.1]} ∪ acc.1,
                  if decide (doc.2 = "") then acc.2 else {[doc.2]} ∪ acc.2))
              acc docs).1
  ↔ id ∈ acc.1 ∨ ∃ hash, (id, hash) ∈ docs.
Proof.
  revert acc. induction docs as [|[id' hash'] docs IH]; intros acc; cbn [foldl].
  - split; [auto|]. intros [H|(hash & H)]; [done|]. by apply elem_of_nil in H.
  - rewrite IH. cbn [fst snd]. rewrite elem_of_union, elem_of_singleton.
    split.
    + intros [[->|H]|(hash & H)]; [right|by left|right].
      * exists hash'. apply elem_of_cons. by left.
      * exists hash. apply elem_of_cons. by right.
    + intros [H|(hash & H)]; [left; by right|].
      apply elem_of_cons in H as [H|H]; [|right; by exists hash].
      injection H as -> ->. left. by left.
Qed.

Lemma load_fold_hashes acc docs (hash : string) :
  hash ∈ (foldl (λ acc doc,
                   ({[doc.1]} ∪ acc.1,
                    if decide (doc.2 = "") then acc.2 else {[doc.2]} ∪ acc.2))
                acc docs).2
  ↔ hash ∈ acc.2 ∨ (hash ≠ "" ∧ ∃ id, (id, hash) ∈ docs).
Proof.
  revert acc. induction docs as [|[id' hash'] docs IH]; intros acc; cbn [foldl].
  - split; [auto|]. intros [H|(_ & id & H)]; [done|]. by apply elem_of_nil in H.
  - rewrite IH. cbn [fst snd]. split.
    + intros [H|(Hne & id & H)].
      * case_decide as Hd; [by left|].
        apply elem_of_union in H as [H|H]; [|by left].
        apply elem_of_singleton in H as ->. right. split; [done|].
        exists id'. apply elem_of_cons. by left.
      * right. split; [done|]. exists id. apply elem_of_cons. by right.
    + intros [H|(Hne & id & H)].
      * left. case_decide; [done|]. apply elem_of_union. by right.
      * apply elem_of_cons in H as [H|H]; [|right; split; [done|]; by exists id].
        injection H as -> ->. left. rewrite decide_False by done.
        apply elem_of_union. left. by apply elem_of_singleton.
Qed.

End Loading.

(** X1.  Both programs start from the same two sets: the keys of all stored
    documents, whatever else the documents hold, and the hashes of the stored
    documents that have one.  A document without a hash (the empty string,
    after decoding) adds nothing to the set of hashes, and documents that
    share a key or a hash add it once. *)
Theorem loaded_sets_are_what_is_stored (docs : list (string * string)) :
  (∀ id, id ∈ (Monolith.loadExistingData docs).1 ↔ ∃ hash, (id, hash) ∈ docs)
  ∧ (∀ hash, hash ∈ (Monolith.loadExistingData docs).2
             ↔ hash ≠ "" ∧ ∃ id, (id, hash) ∈ docs)
  ∧ (∀ id, id ∈ (Modular.storage.LoadExistingData docs).1
           ↔ ∃ hash, (id, hash) ∈ docs)
  ∧ (∀ hash, hash ∈ (Modular.storage.LoadExistingData docs).2
             ↔ hash ≠ "" ∧ ∃ id, (id, hash) ∈ docs).
Proof.
  unfold Monolith.loadExistingData, Modular.storage.LoadExistingData.
  split_and!; intros x.
  - rewrite load_fold_ids. cbn [fst]. rewrite elem_of_empty. tauto.
  - rewrite load_fold_hashes. cbn [snd]. rewrite elem_of_empty. tauto.
  - rewrite load_fold_ids. cbn [fst]. rewrite elem_of_empty. tauto.
  - rewrite load_fold_hashes. cbn [snd]. rewrite elem_of_empty. tauto.
Qed.

(** * Projections of traces *)

Section Projections.

Context {Msg : Type}.
Implicit Types t : list (Event Msg).

Lemma fetches_app t1 t2 : fetches (t1 ++ t2) = fetches t1 ++ fetches t2.
Proof. apply omap_app. Qed.

Lemma sleeps_app t1 t2 : sleeps (t1 ++ t2) = sleeps t1 ++ sleeps t2.
Proof. apply omap_app. Qed.

Lemma upserts_app t1 t2 : upserts (t1 ++ t2) = upserts t1 ++ upserts t2.
Proof. apply omap_app. Qed.

Lemma logged_app t1 t2 : logged (t1 ++ t2) = logged t1 ++ logged t2.
Proof. apply omap_app. Qed.

Lemma searches_app t1 t2 : searches (t1 ++ t2) = searches t1 ++ searches t2.
Proof. apply omap_app. Qed.

Lemma written_app t1 t2 : written (t1 ++ t2) = (written t1 + written t2)%nat.
Proof. unfold written. by rewrite upserts_app, filter_app, length_app. Qed.

End Projections.

Lemma skipped_duplicates_app (t1 t2 : list (Event Monolith.Msg)) :
  skipped_duplicates (t1 ++ t2)
  = (skipped_duplicates t1 + skipped_duplicates t2)%nat.
Proof. unfold skipped_duplicates. by rewrite logged_app, filter_app, length_app. Qed.

Lemma monolith_outcomes_app k (t1 t2 : list (Event Monolith.Msg)) :
  Monolith.outcomes k (t1 ++ t2) = Monolith.outcomes k t1 ++ Monolith.outcomes k t2.
Proof. unfold Monolith.outcomes. by rewrite logged_app, omap_app. Qed.

Lemma modular_outcomes_app k (t1 t2 : list (Event Modular.Msg)) :
  Modular.outcomes k (t1 ++ t2) = Modular.outcomes k t1 ++ Modular.outcomes k t2.
Proof. unfold Modular.outcomes. by rewrite logged_app, omap_app. Qed.

Lemma wrap64_in_range z : in_int64 (wrap64 z).
Proof.
  unfold in_int64, wrap64.
  pose proof (Z.mod_pos_bound (z + 2 ^ 63) (2 ^ 64) ltac:(lia)). lia.
Qed.

Lemma wrap64_add_l a b : wrap64 (wrap64 a + b) = wrap64 (a + b).
Proof.
  unfold wrap64.
  replace ((a + 2 ^ 63) mod 2 ^ 64 - 2 ^ 63 + b + 2 ^ 63)
    with ((a + 2 ^ 63) mod 2 ^ 64 + b) by lia.
  replace (a + b + 2 ^ 63) with ((a + 2 ^ 63) + b) by lia.
  by rewrite Zplus_mod_idemp_l.
Qed.

(** * One key, whatever the outside world answers *)

Ltac tally :=
  unfold Monolith.outcomes, Modular.outcomes, written, skipped_duplicates,
    logged, upserts, fetches, sleeps;
  simpl; rewrite ?decide_True by done; try done.

Ltac shape :=
  lazymatch goal with
  | |- _ ∧ _ => split; shape
  | |- _ ∨ _ => first [ solve [left; shape] | solve [right; shape] ]
  | |- _ => by tally
  end.

Ltac attempt_leaf :=
  eexists; cbn [fst snd]; split; [flat_world; reflexivity|]; shape.

Ltac use_tallies :=
  rewrite ?fetches_app, ?sleeps_app, ?written_app, ?skipped_duplicates_app,
    ?monolith_outcomes_app, ?modular_outcomes_app;
  repeat match goal with
         | H : fetches _ = _ |- _ => rewrite H
         | H : sleeps _ = _ |- _ => rewrite H
         | H : written _ = _ |- _ => rewrite H
         | H : skipped_duplicates _ = _ |- _ => rewrite H
         | H : Monolith.outcomes _ _ = _ |- _ => rewrite H
         | H : Modular.outcomes _ _ = _ |- _ => rewrite H
         end.

Section MonolithKey.

Import Monolith.

Variable md5Hash : string → string.
Variable env : Env.

Implicit Types (w : World Msg) (k : string).

(** One call of [processVacancy]: a single request, for the key, then
    what the result of the call tells. *)
Lemma monolith_attempt_summary k w :
  ∃ t,
    trace (interp env (processVacancy md5Hash k) w).2 = trace w ++ EvFetch k :: t
    ∧ vacancyIDs (interp env (processVacancy md5Hash k) w).2 = vacancyIDs w
    ∧ savedCount (interp env (processVacancy md5Hash k) w).2 = savedCount w
    ∧ fetches t = []
    ∧ sleeps t = []
    ∧ match (interp env (processVacancy md5Hash k) w).1 with
      | Some ErrRetryable =>
          outcomes k t = [] ∧ written t = 0%nat ∧ skipped_duplicates t = 0%nat
      | Some ErrNonRetryable =>
          (outcomes k t = [SkippedNotFound] ∨ outcomes k t = [SkippedInvalid])
          ∧ written t = 0%nat ∧ skipped_duplicates t = 0%nat
      | None =>
          (outcomes k t = [Stored] ∧ written t = 1%nat
           ∧ skipped_duplicates t = 0%nat)
          ∨ (outcomes k t = [SkippedDuplicate] ∧ written t = 0%nat
             ∧ skipped_duplicates t = 1%nat)
      end.
Proof.
  unfold processVacancy. run_prog.
  destruct (fetchDetail env k (attempts k (trace w))) as [| |status body];
    run_prog; [attempt_leaf | attempt_leaf |].
  destruct (status =? http_StatusOK).
  - destruct body as [| |doc]; run_prog; [attempt_leaf | attempt_leaf |].
    destruct (doc !! "description") as [[| | |description|]|]; run_prog;
      try attempt_leaf.
    destruct (bool_decide _); run_prog; [attempt_leaf|].
    destruct (updateOne env _ _); run_prog; attempt_leaf.
  - destruct (status =? http_StatusNotFound); run_prog; [attempt_leaf|].
    destruct (_ || _); run_prog; attempt_leaf.
Qed.

(** The loop of the goroutine, from any number of retries already made. *)
Lemma monolith_loop_summary fuel k retries w :
  0 <= retries <= MaxRetries →
  (Z.to_nat (MaxRetries - retries) < fuel)%nat →
  ∃ (n : nat) t o,
    (interp env (retryLoop md5Hash fuel k retries) w).1 = Some tt
    ∧ trace (interp env (retryLoop md5Hash fuel k retries) w).2 = trace w ++ t
    ∧ vacancyIDs (interp env (retryLoop md5Hash fuel k retries) w).2
      = vacancyIDs w
    ∧ (1 ≤ n ≤ Z.to_nat (MaxRetries - retries) + 1)%nat
    ∧ fetches t = replicate n k
    ∧ sleeps t = replicate (n - 1) RetryDelay
    ∧ outcomes k t = [o]
    ∧ (o = Failed → n = (Z.to_nat (MaxRetries - retries) + 1)%nat)
    ∧ written t = (if decide (o = Stored) then 1 else 0)%nat
    ∧ skipped_duplicates t = (if decide (o = SkippedDuplicate) then 1 else 0)%nat
    ∧ savedCount (interp env (retryLoop md5Hash fuel k retries) w).2
      = if decide (o = Stored ∨ o = SkippedDuplicate)
        then wrap64 (savedCount w + 1) else savedCount w.
Proof.
  revert retries w. induction fuel as [|fuel IH]; intros retries w Hr Hfuel;
    [lia|].
  cbn [retryLoop]. rewrite interp_bind.
  destruct (monolith_attempt_summary k w)
    as (t1 & Ht1 & Hv1 & Hc1 & Hf1 & Hs1 & Hres).
  destruct (interp env (processVacancy md5Hash k) w) as [[[|]|] w1];
    cbn [fst snd] in *.
  - destruct Hres as (Ho1 & Hw1 & Hd1).
    destruct (retries <? MaxRetries) eqn:Hlt.
    + apply Z.ltb_lt in Hlt. run_prog.
      unfold MaxRetries in *.
      rewrite wrap64_small by (unfold in_int64; lia).
      match goal with
      | |- context [interp env _ ?w2] =>
          destruct (IH (retries + 1) w2 ltac:(lia) ltac:(lia))
            as (n & t & o & Hret & Ht & Hv & Hn & Hf & Hs & Ho & Hlast & Hw & Hd
                & Hc)
      end.
      exists (S n), ([EvFetch k] ++ t1
                     ++ [EvLog (MsgRetryable k (retries + 1)); EvSleep RetryDelay]
                     ++ t), o.
      split_and!; try done; try lia; use_tallies; try done.
      * rewrite Ht. cbn [trace emit]. rewrite Ht1.
        rewrite <- !app_assoc. done.
      * rewrite Hv. done.
      * destruct n as [|n]; [lia|]. simpl. by rewrite Nat.sub_0_r.
      * intros Hfail. specialize (Hlast Hfail). lia.
      * rewrite Hc. cbn [savedCount emit]. by rewrite Hc1.
    + apply Z.ltb_ge in Hlt. run_prog. cbn [fst snd]. run_prog.
      exists 1%nat, ([EvFetch k] ++ t1 ++ [EvLog (MsgMaxRetries k)]), Failed.
      split_and!; try done; try lia; use_tallies; try done.
      * rewrite Ht1. by rewrite <- app_assoc.
      * by tally.
  - destruct Hres as (Ho1 & Hw1 & Hd1). run_prog. cbn [fst snd]. run_prog.
    assert (∃ o, outcomes k t1 = [o] ∧ o ≠ Failed ∧ o ≠ Stored
                 ∧ o ≠ SkippedDuplicate) as (o & Ho & ? & ? & ?).
    { destruct Ho1 as [Ho1|Ho1]; eexists; (split; [exact Ho1|done]). }
    clear Ho1.
    exists 1%nat, ([EvFetch k] ++ t1), o.
    split_and!; try done; try lia; use_tallies; try done.
    + by rewrite decide_False.
    + by rewrite decide_False.
    + rewrite decide_False by tauto. done.
  - run_prog. cbn [fst snd]. run_prog.
    assert (∃ o, outcomes k t1 = [o] ∧ (o = Stored ∨ o = SkippedDuplicate)
                 ∧ written t1 = (if decide (o = Stored) then 1 else 0)%nat
                 ∧ skipped_duplicates t1
                   = (if decide (o = SkippedDuplicate) then 1 else 0)%nat)
      as (o & Ho & Hnil & Hw1 & Hd1).
    { destruct Hres as [(Ho1 & Hw1 & Hd1)|(Ho1 & Hw1 & Hd1)]; eexists;
        (split; [exact Ho1|]); (split; [tauto|]); done. }
    clear Hres.
    exists 1%nat, ([EvFetch k] ++ t1 ++ [EvSaved]), o.
    split_and!; try done; try lia; use_tallies; try done.
    + rewrite Ht1. by rewrite <- app_assoc.
    + intros ->. destruct Hnil; done.
    + rewrite decide_True by done. by rewrite Hc1.
Qed.

End MonolithKey.

Section ModularKey.

Import Modular.

Variable MD5Hash : string → string.
Variable env : Env.

Implicit Types (w : World Msg) (k : string).

(** One call of [processVacancy]: a single request, for the key, then
    what the result of the call tells. *)
Lemma modular_attempt_summary k w :
  ∃ t,
    trace (interp env (processVacancy MD5Hash k) w).2 = trace w ++ EvFetch k :: t
    ∧ vacancyIDs (interp env (processVacancy MD5Hash k) w).2 = vacancyIDs w
    ∧ fetches t = []
    ∧ sleeps t = []
    ∧ match (interp env (processVacancy MD5Hash k) w).1 with
      | Some _ =>
          outcomes k t = [] ∧ written t = 0%nat
          ∧ savedCount (interp env (processVacancy MD5Hash k) w).2 = savedCount w
      | None =>
          (outcomes k t = [Stored] ∧ written t = 1%nat
           ∧ savedCount (interp env (processVacancy MD5Hash k) w).2
             = wrap64 (savedCount w + 1))
          ∨ ((outcomes k t = [SkippedNotFound]
              ∨ outcomes k t = [SkippedDuplicate])
             ∧ written t = 0%nat
             ∧ savedCount (interp env (processVacancy MD5Hash k) w).2
               = savedCount w)
      end.
Proof.
  unfold processVacancy. run_prog.
  destruct (fetchDetail env k (attempts k (trace w))) as [| |status body];
    run_prog; simpl (errors_Is _ _); run_prog; [attempt_leaf | attempt_leaf |].
  destruct (status =? http_StatusOK).
  - destruct body as [| |doc]; run_prog; simpl (errors_Is _ _); run_prog;
      [attempt_leaf | attempt_leaf |].
    destruct (doc !! "description") as [[| | |description|]|]; run_prog;
      try attempt_leaf.
    case_decide; run_prog; [attempt_leaf|].
    destruct (bool_decide _); run_prog; [attempt_leaf|].
    destruct (updateOne env _ _); run_prog; attempt_leaf.
  - destruct (status =? http_StatusNotFound); run_prog;
      simpl (errors_Is _ _); run_prog; [attempt_leaf|].
    destruct (_ || _); run_prog; simpl (errors_Is _ _); run_prog; attempt_leaf.
Qed.

(** The loop of the goroutine, from any number of retries already made. *)
Lemma modular_loop_summary fuel maxRetries retryDelay k retries w :
  0 <= retries <= maxRetries →
  maxRetries + 1 < 2 ^ 63 →
  (Z.to_nat (maxRetries + 1 - retries) < fuel)%nat →
  ∃ (n : nat) t o,
    (interp env (retryLoop MD5Hash fuel maxRetries retryDelay k retries) w).1
    = Some tt
    ∧ trace (interp env (retryLoop MD5Hash fuel maxRetries retryDelay k retries)
                    w).2
      = trace w ++ t
    ∧ vacancyIDs
        (interp env (retryLoop MD5Hash fuel maxRetries retryDelay k retries) w).2
      = vacancyIDs w
    ∧ (1 ≤ n ≤ Z.to_nat (maxRetries - retries) + 1)%nat
    ∧ fetches t = replicate n k
    ∧ sleeps t = replicate (n - 1) retryDelay
    ∧ outcomes k t = [o]
    ∧ (o = Failed → n = (Z.to_nat (maxRetries - retries) + 1)%nat)
    ∧ written t = (if decide (o = Stored) then 1 else 0)%nat
    ∧ savedCount
        (interp env (retryLoop MD5Hash fuel maxRetries retryDelay k retries) w).2
      = if decide (o = Stored) then wrap64 (savedCount w + 1) else savedCount w.
Proof.
  revert retries w. induction fuel as [|fuel IH]; intros retries w Hr Hmax Hfuel;
    [lia|].
  cbn [retryLoop].
  assert (Hle : (retries <=? maxRetries) = true) by (apply Z.leb_le; lia).
  rewrite Hle, interp_bind.
  destruct (modular_attempt_summary k w) as (t1 & Ht1 & Hv1 & Hf1 & Hs1 & Hres).
  destruct (interp env (processVacancy MD5Hash k) w) as [[err|] w1];
    cbn [fst snd] in *.
  - destruct Hres as (Ho1 & Hw1 & Hc1).
    rewrite wrap64_small by (unfold in_int64; lia).
    destruct (retries <? maxRetries) eqn:Hlt.
    + apply Z.ltb_lt in Hlt. run_prog.
      match goal with
      | |- context [interp env _ ?w2] =>
          destruct (IH (retries + 1) w2 ltac:(lia) ltac:(lia) ltac:(lia))
            as (n & t & o & Hret & Ht & Hv & Hn & Hf & Hs & Ho & Hlast & Hw & Hc)
      end.
      exists (S n), ([EvFetch k] ++ t1
                     ++ [EvLog (MsgRetrying k (retries + 1) maxRetries err);
                         EvSleep retryDelay]
                     ++ t), o.
      split_and!; try done; try lia; use_tallies; try done.
      * rewrite Ht. cbn [trace emit]. rewrite Ht1.
        rewrite <- !app_assoc. done.
      * rewrite Hv. done.
      * destruct n as [|n]; [lia|]. simpl. by rewrite Nat.sub_0_r.
      * intros Hfail. specialize (Hlast Hfail). lia.
      * rewrite Hc. cbn [savedCount emit]. by rewrite Hc1.
    + apply Z.ltb_ge in Hlt. run_prog.
      destruct fuel as [|fuel]; [lia|]. cbn [retryLoop].
      assert (Hgt : (retries + 1 <=? maxRetries) = false)
        by (apply Z.leb_gt; lia).
      rewrite Hgt. run_prog. cbn [fst snd]. run_prog.
      exists 1%nat, ([EvFetch k] ++ t1 ++ [EvLog (MsgFailed k maxRetries err)]),
        Failed.
      split_and!; try done; try lia; use_tallies; try done.
      * rewrite Ht1. by rewrite <- app_assoc.
      * by tally.
  - run_prog. cbn [fst snd].
    assert (∃ o, outcomes k t1 = [o] ∧ o ≠ Failed
                 ∧ written t1 = (if decide (o = Stored) then 1 else 0)%nat
                 ∧ savedCount w1
                   = if decide (o = Stored) then wrap64 (savedCount w + 1)
                     else savedCount w)
      as (o & Ho & Hnf & Hw1 & Hc1).
    { destruct Hres as [(Ho1 & Hw1 & Hc1)|([Ho1|Ho1] & Hw1 & Hc1)]; eexists;
        (split; [exact Ho1|]); (split; [done|]); done. }
    clear Hres.
    exists 1%nat, ([EvFetch k] ++ t1), o.
    split_and!; try done; try lia; use_tallies; try done.
Qed.

End ModularKey.

Section Pace.

Context {Msg : Type}.

Implicit Types t : list (Event Msg).

Lemma pace_app t1 t2 : pace (t1 ++ t2) = pace t1 ++ pace t2.
Proof. apply omap_app. Qed.

(** Events among which there is neither a request for details nor a
    sleep. *)
Lemma pace_none t : fetches t = [] → sleeps t = [] → pace t = [].
Proof.
  induction t as [|e t IH]; [done|].
  destruct e; intros Hf Hs; try discriminate Hf; try discriminate Hs;
    by apply IH.
Qed.

End Pace.

Section MonolithPace.

Import Monolith.

Variable md5Hash : string → string.
Variable env : Env.

(** The requests and the sleeps of the loop of the goroutine: a request,
    and then a sleep and a request for every retry. *)
Lemma monolith_loop_pace fuel k retries (w : World Msg) :
  0 <= retries <= MaxRetries →
  (Z.to_nat (MaxRetries - retries) < fuel)%nat →
  ∃ (m : nat) t,
    trace (interp env (retryLoop md5Hash fuel k retries) w).2 = trace w ++ t
    ∧ (m ≤ Z.to_nat (MaxRetries - retries))%nat
    ∧ pace t = inl k :: concat (replicate m [inr RetryDelay; inl k]).
Proof.
  revert retries w. induction fuel as [|fuel IH]; intros retries w Hr Hfuel;
    [lia|].
  cbn [retryLoop]. rewrite interp_bind.
  destruct (monolith_attempt_summary md5Hash env k w)
    as (t1 & Ht1 & _ & _ & Hf1 & Hs1 & _).
  pose proof (pace_none t1 Hf1 Hs1) as Hp1.
  destruct (interp env (processVacancy md5Hash k) w) as [[[|]|] w1];
    cbn [fst snd] in *.
  - destruct (retries <? MaxRetries) eqn:Hlt.
    + apply Z.ltb_lt in Hlt. run_prog. unfold MaxRetries in *.
      rewrite wrap64_small by (unfold in_int64; lia).
      match goal with
      | |- context [interp env _ ?w2] =>
          destruct (IH (retries + 1) w2 ltac:(lia) ltac:(lia))
            as (m & t & Ht & Hm & Hp)
      end.
      exists (S m), ([EvFetch k] ++ t1
                     ++ [EvLog (MsgRetryable k (retries + 1)); EvSleep RetryDelay]
                     ++ t).
      split_and!; [|lia|].
      * rewrite Ht. cbn [trace emit]. rewrite Ht1.
        rewrite <- !app_assoc. done.
      * rewrite !pace_app, Hp1, Hp. done.
    + run_prog. cbn [fst snd]. run_prog.
      exists 0%nat, ([EvFetch k] ++ t1 ++ [EvLog (MsgMaxRetries k)]).
      split_and!; [|lia|].
      * rewrite Ht1. by rewrite <- app_assoc.
      * rewrite !pace_app, Hp1. done.
  - run_prog. cbn [fst snd]. run_prog.
    exists 0%nat, ([EvFetch k] ++ t1).
    split_and!; [done|lia|]. rewrite !pace_app, Hp1. done.
  - run_prog. cbn [fst snd]. run_prog.
    exists 0%nat, ([EvFetch k] ++ t1 ++ [EvSaved]).
    split_and!; [|lia|].
    + rewrite Ht1. by rewrite <- app_assoc.
    + rewrite !pace_app, Hp1. done.
Qed.

End MonolithPace.

Section ModularPace.

Import Modular.

Variable MD5Hash : string → string.
Variable env : Env.

Lemma modular_loop_pace fuel maxRetries retryDelay k retries (w : World Msg) :
  0 <= retries <= maxRetries →
  maxRetries + 1 < 2 ^ 63 →
  (Z.to_nat (maxRetries + 1 - retries) < fuel)%nat →
  ∃ (m : nat) t,
    trace (interp env (retryLoop MD5Hash fuel maxRetries retryDelay k retries)
                  w).2
    = trace w ++ t
    ∧ (m ≤ Z.to_nat (maxRetries - retries))%nat
    ∧ pace t = inl k :: concat (replicate m [inr retryDelay; inl k]).
Proof.
  revert retries w. induction fuel as [|fuel IH]; intros retries w Hr Hmax Hfuel;
    [lia|].
  cbn [retryLoop].
  assert (Hle : (retries <=? maxRetries) = true) by (apply Z.leb_le; lia).
  rewrite Hle, interp_bind.
  destruct (modular_attempt_summary MD5Hash env k w)
    as (t1 & Ht1 & _ & Hf1 & Hs1 & _).
  pose proof (pace_none t1 Hf1 Hs1) as Hp1.
  destruct (interp env (processVacancy MD5Hash k) w) as [[err|] w1];
    cbn [fst snd] in *.
  - rewrite wrap64_small by (unfold in_int64; lia).
    destruct (retries <? maxRetries) eqn:Hlt.
    + apply Z.ltb_lt in Hlt. run_prog.
      match goal with
      | |- context [interp env _ ?w2] =>
          destruct (IH (retries + 1) w2 ltac:(lia) ltac:(lia) ltac:(lia))
            as (m & t & Ht & Hm & Hp)
      end.
      exists (S m), ([EvFetch k] ++ t1
                     ++ [EvLog (MsgRetrying k (retries + 1) maxRetries err);
                         EvSleep retryDelay]
                     ++ t).
      split_and!; [|lia|].
      * rewrite Ht. cbn [trace emit]. rewrite Ht1.
        rewrite <- !app_assoc. done.
      * rewrite !pace_app, Hp1, Hp. done.
    + apply Z.ltb_ge in Hlt. run_prog.
      destruct fuel as [|fuel]; [lia|]. cbn [retryLoop].
      assert (Hgt : (retries + 1 <=? maxRetries) = false)
        by (apply Z.leb_gt; lia).
      rewrite Hgt. run_prog. cbn [fst snd]. run_prog.
      exists 0%nat, ([EvFetch k] ++ t1 ++ [EvLog (MsgFailed k maxRetries err)]).
      split_and!; [|lia|].
      * rewrite Ht1. by rewrite <- app_assoc.
      * rewrite !pace_app, Hp1. done.
  - run_prog. cbn [fst snd].
    exists 0%nat, ([EvFetch k] ++ t1).
    split_and!; [done|lia|]. rewrite !pace_app, Hp1. done.
Qed.

End ModularPace.

(** X2.  On a key whose request can be built, the single-file program
    spends between one and four requests, all of them for that key, and
    between one request and the next it sleeps once, for [RetryDelay];
    it sleeps at no other time, and the loop of the goroutine is left
    whatever comes back. *)
Theorem monolith_key_costs_at_most_four_requests
  (md5Hash : string → string) (env : Env) (k : string)
  (w : World Monolith.Msg) :
  (∀ n, built (fetchDetail env k n) = true) →
  let run := interp env (Monolith.worker md5Hash k) w in
  run.1 = Some tt
  ∧ ∃ retries : nat,
      (retries ≤ 3)%nat
      ∧ pace (since w run.2)
        = inl k :: concat (replicate retries [inr Monolith.RetryDelay; inl k]).
Proof.
  intros _.
  destruct (monolith_loop_pace md5Hash env (S (Z.to_nat Monolith.MaxRetries))
              k 0 w)
    as (m & t & Ht & Hm & Hp); [by vm_compute | vm_compute; lia |].
  cbv zeta. unfold Monolith.worker.
  split; [apply monolith_worker_returns|].
  exists m. rewrite (since_app _ _ _ Ht).
  split; [vm_compute in Hm; lia | done].
Qed.

Lemma monolith_key_costs_at_most_four_requests_witness :
  (∀ n, built (fetchDetail env_third_time "1" n) = true)
  ∧ let run := interp env_third_time (Monolith.worker digest "1") empty_world in
    run.1 = Some tt
    ∧ ∃ retries : nat,
        (retries ≤ 3)%nat
        ∧ pace (since empty_world run.2)
          = inl "1"
            :: concat (replicate retries [inr Monolith.RetryDelay; inl "1"]).
Proof.
  assert (H : ∀ n, built (fetchDetail env_third_time "1" n) = true)
    by (intros n; simpl; by destruct (n <? 2)%nat).
  split; [exact H|].
  exact (monolith_key_costs_at_most_four_requests
           digest env_third_time "1" empty_world H).
Defined.

(** X3.  Every key of the single-file program whose request can be built
    ends in exactly one logged outcome.  The collection accepts a document
    for the key exactly when the outcome is [Stored]; the saved counter
    goes up by one when the outcome is [Stored] and also when it is
    [SkippedDuplicate], and stays as it is otherwise; the key fails only
    after all four requests. *)
Theorem monolith_key_ends_in_one_outcome
  (md5Hash : string → string) (env : Env) (k : string)
  (w : World Monolith.Msg) :
  (∀ n, built (fetchDetail env k n) = true) →
  let w' := (interp env (Monolith.worker md5Hash k) w).2 in
  ∃ o,
    Monolith.outcomes k (since w w') = [o]
    ∧ written (since w w') = (if decide (o = Stored) then 1 else 0)%nat
    ∧ savedCount w'
      = (if decide (o = Stored ∨ o = SkippedDuplicate)
         then wrap64 (savedCount w + 1) else savedCount w)
    ∧ (o = Failed → fetches (since w w') = [k; k; k; k])
    ∧ vacancyIDs w' = vacancyIDs w.
Proof.
  intros _.
  destruct (monolith_loop_summary md5Hash env (S (Z.to_nat Monolith.MaxRetries))
              k 0 w)
    as (n & t & o & _ & Ht & Hv & _ & Hf & _ & Ho & Hlast & Hw & _ & Hc);
    [by vm_compute | vm_compute; lia |].
  cbv zeta. unfold Monolith.worker. exists o.
  rewrite (since_app _ _ _ Ht).
  split_and!; try done.
  intros Hfail. rewrite Hf, (Hlast Hfail). done.
Qed.

Lemma monolith_key_ends_in_one_outcome_witness :
  (∀ n, built (fetchDetail env_third_time "1" n) = true)
  ∧ let w' :=
      (interp env_third_time (Monolith.worker digest "1") empty_world).2 in
    ∃ o,
      Monolith.outcomes "1" (since empty_world w') = [o]
      ∧ written (since empty_world w') = (if decide (o = Stored) then 1 else 0)%nat
      ∧ savedCount w'
        = (if decide (o = Stored ∨ o = SkippedDuplicate)
           then wrap64 (0 + 1) else 0)
      ∧ (o = Failed → fetches (since empty_world w') = ["1"; "1"; "1"; "1"])
      ∧ vacancyIDs w' = ∅.
Proof.
  assert (H : ∀ n, built (fetchDetail env_third_time "1" n) = true)
    by (intros n; simpl; by destruct (n <? 2)%nat).
  split; [exact H|].
  exact (monolith_key_ends_in_one_outcome digest env_third_time "1" empty_world H).
Defined.

(** X4.  On a key whose request can be built, the refactored program
    spends between one and [maxRetries + 1] requests, all of them for
    that key, and between one request and the next it sleeps once, for
    [retryDelay]; it sleeps at no other time, and the loop of the
    goroutine is left whatever comes back. *)
Theorem modular_key_costs_at_most_one_request_per_retry
  (MD5Hash : string → string) (env : Env) (maxRetries retryDelay : Z)
  (k : string) (w : World Modular.Msg) :
  0 <= maxRetries →
  maxRetries + 1 < 2 ^ 63 →
  (∀ n, built (fetchDetail env k n) = true) →
  let run := interp env (Modular.worker MD5Hash maxRetries retryDelay k) w in
  run.1 = Some tt
  ∧ ∃ retries : nat,
      (retries ≤ Z.to_nat maxRetries)%nat
      ∧ pace (since w run.2)
        = inl k :: concat (replicate retries [inr retryDelay; inl k]).
Proof.
  intros Hpos Hmax _.
  destruct (modular_loop_pace MD5Hash env (Z.to_nat maxRetries + 2)
              maxRetries retryDelay k 0 w)
    as (m & t & Ht & Hm & Hp); [lia | lia | lia |].
  cbv zeta. unfold Modular.worker.
  split; [by apply modular_worker_returns|].
  exists m. rewrite (since_app _ _ _ Ht).
  rewrite Z.sub_0_r in Hm. done.
Qed.

Lemma modular_key_costs_at_most_one_request_per_retry_witness :
  0 <= 3
  ∧ 3 + 1 < 2 ^ 63
  ∧ (∀ n, built (fetchDetail env_third_time "1" n) = true)
  ∧ let run :=
      interp env_third_time (Modular.worker digest 3 10000000000 "1")
             empty_world in
    run.1 = Some tt
    ∧ ∃ retries : nat,
        (retries ≤ Z.to_nat 3)%nat
        ∧ pace (since empty_world run.2)
          = inl "1" :: concat (replicate retries [inr 10000000000; inl "1"]).
Proof.
  assert (H : ∀ n, built (fetchDetail env_third_time "1" n) = true)
    by (intros n; simpl; by destruct (n <? 2)%nat).
  split_and!; [lia | lia | exact H |].
  apply (modular_key_costs_at_most_one_request_per_retry
           digest env_third_time 3 10000000000 "1" empty_world); [lia | lia | exact H].
Defined.

(** X5.  Every key of the refactored program whose request can be built
    ends in exactly one logged outcome.  The collection accepts a document
    for the key exactly when the outcome is [Stored], and exactly then the
    saved counter goes up, by one; the key fails only after all
    [maxRetries + 1] requests. *)
Theorem modular_key_ends_in_one_outcome
  (MD5Hash : string → string) (env : Env) (maxRetries retryDelay : Z)
  (k : string) (w : World Modular.Msg) :
  0 <= maxRetries →
  maxRetries + 1 < 2 ^ 63 →
  (∀ n, built (fetchDetail env k n) = true) →
  let w' := (interp env (Modular.worker MD5Hash maxRetries retryDelay k) w).2 in
  ∃ o,
    Modular.outcomes k (since w w') = [o]
    ∧ written (since w w') = (if decide (o = Stored) then 1 else 0)%nat
    ∧ savedCount w'
      = (if decide (o = Stored) then wrap64 (savedCount w + 1) else savedCount w)
    ∧ (o = Failed
       → fetches (since w w') = replicate (Z.to_nat maxRetries + 1) k)
    ∧ vacancyIDs w' = vacancyIDs w.
Proof.
  intros Hpos Hmax _.
  destruct (modular_loop_summary MD5Hash env (Z.to_nat maxRetries + 2)
              maxRetries retryDelay k 0 w)
    as (n & t & o & _ & Ht & Hv & _ & Hf & _ & Ho & Hlast & Hw & Hc);
    [lia | lia | lia |].
  cbv zeta. unfold Modular.worker. exists o.
  rewrite (since_app _ _ _ Ht).
  split_and!; try done.
  intros Hfail. rewrite Hf, (Hlast Hfail). by rewrite Z.sub_0_r.
Qed.

Lemma modular_key_ends_in_one_outcome_witness :
  0 <= 3
  ∧ 3 + 1 < 2 ^ 63
  ∧ (∀ n, built (fetchDetail env_third_time "1" n) = true)
  ∧ let w' :=
      (interp env_third_time (Modular.worker digest 3 10000000000 "1")
              empty_world).2 in
    ∃ o,
      Modular.outcomes "1" (since empty_world w') = [o]
      ∧ written (since empty_world w') = (if decide (o = Stored) then 1 else 0)%nat
      ∧ savedCount w'
        = (if decide (o = Stored) then wrap64 (0 + 1) else 0)
      ∧ (o = Failed
         → fetches (since empty_world w') = replicate (Z.to_nat 3 + 1) "1")
      ∧ vacancyIDs w' = ∅.
Proof.
  assert (H : ∀ n, built (fetchDetail env_third_time "1" n) = true)
    by (intros n; simpl; by destruct (n <? 2)%nat).
  split_and!; [lia | lia | exact H |].
  apply (modular_key_ends_in_one_outcome
           digest env_third_time 3 10000000000 "1" empty_world); [lia | lia | exact H].
Defined.

(** * What programs put on the trace *)

Section Emits.

Context {Msg : Type}.
Variable env : Env.
Variable P : Event Msg → Prop.

Implicit Types (w : World Msg).

Lemma evolves_refl w : evolves P w w.
Proof. split_and!; [done | done |]. exists []. by rewrite app_nil_r. Qed.

Lemma evolves_trans w1 w2 w3 :
  evolves P w1 w2 → evolves P w2 w3 → evolves P w1 w3.
Proof.
  intros (Hv1 & Hh1 & t1 & Ht1 & HP1) (Hv2 & Hh2 & t2 & Ht2 & HP2).
  split_and!; [congruence | by etrans |].
  exists (t1 ++ t2). split; [by rewrite Ht2, Ht1, app_assoc|].
  by apply Forall_app.
Qed.

Lemma evolves_emit w e : P e → evolves P w (emit e w).
Proof.
  intros He. split_and!; [done | done |]. exists [e]. split; [done|].
  by constructor.
Qed.

Lemma perform_evolves {X : Type} (act : Action Msg X) w :
  shows P act → evolves P w (perform env act w).2.
Proof.
  intros Hact.
  destruct act; simpl in *; split_and!; try done;
    try (eexists [_]; split; [reflexivity|];
         apply Forall_cons; split; [apply Hact | apply Forall_nil_2]).
  cbn [descriptionHashes emit]. apply union_subseteq_r.
Qed.

Lemma interp_evolves {A : Type} (p : Prog Msg A) w :
  emits_only P p → evolves P w (interp env p w).2.
Proof.
  revert w. induction p as [a|X act k IH]; intros w Hp; simpl.
  - apply evolves_refl.
  - destruct Hp as [Hact Hk].
    pose proof (perform_evolves act w Hact) as Hstep.
    destruct (perform env act w) as [x w']. simpl in Hstep.
    eapply evolves_trans; [exact Hstep | by apply IH].
Qed.

Lemma emits_Ret {A : Type} (a : A) : emits_only P (Ret a).
Proof. done. Qed.

Lemma emits_bind {A B : Type} (p : Prog Msg A) (f : A → Prog Msg B) :
  emits_only P p → (∀ a, emits_only P (f a)) → emits_only P (bind p f).
Proof.
  intros Hp Hf. induction p as [a|X act k IH]; simpl; [apply Hf|].
  destruct Hp as [Hact Hk]. split; [done|]. intros x. by apply IH.
Qed.

Lemma emits_call {X : Type} (act : Action Msg X) :
  shows P act → emits_only P (call act).
Proof. intros Hact. split; [done|]. by intros x. Qed.

(** One move of a goroutine. *)
Lemma thread_step_evolves {A : Type} (t : Thread Msg A) w :
  thread_emits_only P t →
  evolves P w (thread_step env t w).2
  ∧ thread_emits_only P (thread_step env t w).1.
Proof.
  intros Ht. destruct t as [[a|X act k]|resp k].
  - split; [apply evolves_refl | done].
  - destruct Ht as [Hact Hk].
    pose proof (perform_evolves act w Hact) as Hstep.
    destruct act; simpl in *; (split; [exact Hstep | by try apply Hk]).
  - split; [apply evolves_refl | apply Ht].
Qed.

Lemma evolves_fetches w w' (k : string) :
  evolves P w w' → k ∈ fetches (since w w') → P (EvFetch k).
Proof.
  intros (_ & _ & t & Ht & HP) Hk. rewrite (since_app _ _ _ Ht) in Hk.
  apply list_elem_of_omap in Hk as (e & He & Hek).
  destruct e; try discriminate Hek. injection Hek as ->.
  rewrite Forall_forall in HP. by apply HP.
Qed.

Lemma evolves_upserts w w' (data : Doc) (ok : bool) :
  evolves P w w' → (data, ok) ∈ upserts (since w w') → P (EvUpsert data ok).
Proof.
  intros (_ & _ & t & Ht & HP) Hk. rewrite (since_app _ _ _ Ht) in Hk.
  apply list_elem_of_omap in Hk as (e & He & Hek).
  destruct e; try discriminate Hek. injection Hek as -> ->.
  rewrite Forall_forall in HP. by apply HP.
Qed.

Lemma evolves_sleeps w w' (d : Z) :
  evolves P w w' → d ∈ sleeps (since w w') → P (EvSleep d).
Proof.
  intros (_ & _ & t & Ht & HP) Hk. rewrite (since_app _ _ _ Ht) in Hk.
  apply list_elem_of_omap in Hk as (e & He & Hek).
  destruct e; try discriminate Hek. injection Hek as ->.
  rewrite Forall_forall in HP. by apply HP.
Qed.

Lemma evolves_searches w w' (page : Z) :
  evolves P w w' → page ∈ searches (since w w') → P (EvSearch page).
Proof.
  intros (_ & _ & t & Ht & HP) Hk. rewrite (since_app _ _ _ Ht) in Hk.
  apply list_elem_of_omap in Hk as (e & He & Hek).
  destruct e; try discriminate Hek. injection Hek as ->.
  rewrite Forall_forall in HP. by apply HP.
Qed.

End Emits.

Lemma evolves_weaken {Msg : Type} (P Q : Event Msg → Prop) (w w' : World Msg) :
  (∀ e, P e → Q e) → evolves P w w' → evolves Q w w'.
Proof.
  intros HPQ (Hv & Hh & t & Ht & HP). split_and!; [done | done |].
  exists t. split; [done|]. eapply Forall_impl; [exact HP | exact HPQ].
Qed.

Ltac emits :=
  repeat first
    [ apply emits_bind | apply emits_Ret | intro
    | apply emits_call; cbn [shows]
    | match goal with
      | |- emits_only _ (match ?x with _ => _ end) => destruct x eqn:?
      | |- emits_only _ (if ?x then _ else _) => destruct x eqn:?
      end ].

Section MonolithEmits.

Import Monolith.

Variable md5Hash : string → string.
Variable ids : list string.

Lemma monolith_hashed (doc : Doc) (description : string) :
  doc !! "description" = Some (JString description) →
  hashed md5Hash (<["description_hash" := JString (md5Hash description)]> doc).
Proof.
  intros H. exists description. split.
  - by rewrite lookup_insert_ne.
  - by rewrite lookup_insert_eq.
Qed.

Lemma monolith_processVacancy_emits k :
  k ∈ ids → emits_only (monolith_pool_event md5Hash ids) (processVacancy md5Hash k).
Proof.
  intros Hk.
  unfold processVacancy, SafeMap.Exists, SafeMap.Add, log.
  emits; try done.
  by apply monolith_hashed.
Qed.

Lemma monolith_retryLoop_emits fuel k retries :
  k ∈ ids →
  emits_only (monolith_pool_event md5Hash ids) (retryLoop md5Hash fuel k retries).
Proof.
  intros Hk. revert retries.
  induction fuel as [|fuel IH]; intros retries; cbn [retryLoop]; [done|].
  apply emits_bind; [by apply monolith_processVacancy_emits|].
  intros [[|]|]; unfold log; emits; done.
Qed.

End MonolithEmits.

Section ModularEmits.

Import Modular.

Variable MD5Hash : string → string.
Variable retryDelay : Z.
Variable ids : list string.

Lemma modular_processVacancy_emits k :
  k ∈ ids →
  emits_only (modular_pool_event MD5Hash retryDelay ids) (processVacancy MD5Hash k).
Proof.
  intros Hk.
  unfold processVacancy, api.GetVacancyDetails, storage.DescriptionHashExists,
    storage.AddDescriptionHash, storage.UpsertVacancy, log.
  emits; try done.
  split; [by apply monolith_hashed|].
  rewrite lookup_insert_ne by done. congruence.
Qed.

Lemma modular_retryLoop_emits fuel maxRetries k retries :
  k ∈ ids →
  emits_only (modular_pool_event MD5Hash retryDelay ids)
             (retryLoop MD5Hash fuel maxRetries retryDelay k retries).
Proof.
  intros Hk. revert retries.
  induction fuel as [|fuel IH]; intros retries; cbn [retryLoop]; [done|].
  destruct (retries <=? maxRetries); [|done].
  apply emits_bind; [by apply modular_processVacancy_emits|].
  intros [err|]; [|done].
  destruct (retries <? maxRetries); unfold log; emits; done.
Qed.

End ModularEmits.

(** * What a worker pool puts on the trace, whatever the schedule *)

Section MonolithPoolEvolves.

Import Monolith.

Variable md5Hash : string → string.
Variable env : Env.
Variable P : Event Msg → Prop.

Lemma monolith_step_evolves tick (s : PoolState) :
  Forall (λ k, emits_only P (worker md5Hash k)) (todo s) →
  Forall (monolith_goroutine_emits md5Hash P) (goroutines s) →
  evolves P (world s) (world (pool_step md5Hash env tick s))
  ∧ Forall (λ k, emits_only P (worker md5Hash k))
           (todo (pool_step md5Hash env tick s))
  ∧ Forall (monolith_goroutine_emits md5Hash P)
           (goroutines (pool_step md5Hash env tick s)).
Proof.
  intros Htodo Hgs. destruct tick as [|i]; cbn [pool_step].
  - unfold main_step. destruct (todo s) as [|k rest] eqn:Hrest.
    + case_decide; (split_and!; [apply evolves_refl | by try rewrite Hrest | done]).
    + apply Forall_cons in Htodo as [Hk Htodo].
      split_and!; [apply evolves_refl | done |]. simpl.
      apply Forall_app. split; [done|]. by constructor.
  - unfold go_step. destruct (goroutines s !! i) as [g|] eqn:Hi;
      [|split_and!; [apply evolves_refl | done | done]].
    pose proof (Forall_lookup_1 _ _ _ _ Hgs Hi) as Hg.
    destruct g as [k|t| |].
    + case_decide; (split_and!; [apply evolves_refl | done |]); [|done].
      simpl. by apply Forall_insert.
    + destruct (thread_step_evolves env P t (world s) Hg) as [He Ht].
      destruct t as [[a|X act k]|resp k].
      * split_and!; [apply evolves_refl | done |]. simpl. by apply Forall_insert.
      * destruct (thread_step env _ (world s)) as [t' w'].
        split_and!; [done | done |]. simpl. by apply Forall_insert.
      * destruct (thread_step env _ (world s)) as [t' w'].
        split_and!; [done | done |]. simpl. by apply Forall_insert.
    + split_and!; [apply evolves_refl | done |]. simpl. by apply Forall_insert.
    + split_and!; [apply evolves_refl | done | done].
Qed.

Lemma monolith_run_evolves schedule (s : PoolState) :
  Forall (λ k, emits_only P (worker md5Hash k)) (todo s) →
  Forall (monolith_goroutine_emits md5Hash P) (goroutines s) →
  evolves P (world s) (world (pool_run md5Hash env schedule s)).
Proof.
  revert s. induction schedule as [|tick schedule IH]; intros s Htodo Hgs.
  - apply evolves_refl.
  - destruct (monolith_step_evolves tick s Htodo Hgs) as (He & Htodo' & Hgs').
    eapply evolves_trans; [exact He|]. by apply IH.
Qed.

End MonolithPoolEvolves.

Lemma monolith_pool_evolves md5Hash env schedule ids (w : World Monolith.Msg) :
  evolves (monolith_pool_event md5Hash ids) w
          (Monolith.world
             (Monolith.pool_run md5Hash env schedule (Monolith.pool_start ids w))).
Proof.
  apply (monolith_run_evolves md5Hash env _ schedule (Monolith.pool_start ids w)).
  - apply Forall_forall. intros k Hk. by apply monolith_retryLoop_emits.
  - constructor.
Qed.

Section ModularPoolEvolves.

Import Modular.

Variable MD5Hash : string → string.
Variable env : Env.
Variables maxRetries retryDelay : Z.
Variable P : Event Msg → Prop.

Lemma modular_step_evolves tick (s : PoolState) :
  Forall (λ k, emits_only P (worker MD5Hash maxRetries retryDelay k)) (todo s) →
  Forall (modular_goroutine_emits P) (goroutines s) →
  evolves P (world s)
          (world (pool_step MD5Hash env maxRetries retryDelay tick s))
  ∧ Forall (λ k, emits_only P (worker MD5Hash maxRetries retryDelay k))
           (todo (pool_step MD5Hash env maxRetries retryDelay tick s))
  ∧ Forall (modular_goroutine_emits P)
           (goroutines (pool_step MD5Hash env maxRetries retryDelay tick s)).
Proof.
  intros Htodo Hgs. destruct tick as [| | |i]; cbn [pool_step].
  - split_and!; [apply evolves_refl | done | done].
  - unfold done_step.
    destruct (returned s), (todo s) eqn:Hrest, (cancelled s);
      (split_and!; [apply evolves_refl | by try rewrite Hrest | done]).
  - unfold main_step.
    destruct (returned s); [split_and!; [apply evolves_refl | done | done]|].
    destruct (todo s) as [|k rest] eqn:Hrest.
    + case_decide; (split_and!; [apply evolves_refl | by try rewrite Hrest | done]).
    + apply Forall_cons in Htodo as [Hk Htodo].
      case_decide;
        [|split_and!; [apply evolves_refl | rewrite Hrest; by constructor | done]].
      split_and!; [apply evolves_refl | done |]. simpl.
      apply Forall_app. split; [done|]. by constructor.
  - unfold go_step. destruct (goroutines s !! i) as [g|] eqn:Hi;
      [|split_and!; [apply evolves_refl | done | done]].
    pose proof (Forall_lookup_1 _ _ _ _ Hgs Hi) as Hg.
    destruct g as [t| |].
    + destruct (thread_step_evolves env P t (world s) Hg) as [He Ht].
      destruct t as [[[a|]|X act k]|resp k].
      * split_and!; [apply evolves_refl | done |]. simpl. by apply Forall_insert.
      * split_and!; [apply evolves_refl | done | done].
      * destruct (thread_step env _ (world s)) as [t' w'].
        split_and!; [done | done |]. simpl. by apply Forall_insert.
      * destruct (thread_step env _ (world s)) as [t' w'].
        split_and!; [done | done |]. simpl. by apply Forall_insert.
    + split_and!; [apply evolves_refl | done |]. simpl. by apply Forall_insert.
    + split_and!; [apply evolves_refl | done | done].
Qed.

Lemma modular_run_evolves schedule (s : PoolState) :
  Forall (λ k, emits_only P (worker MD5Hash maxRetries retryDelay k)) (todo s) →
  Forall (modular_goroutine_emits P) (goroutines s) →
  evolves P (world s)
          (world (pool_run MD5Hash env maxRetries retryDelay schedule s)).
Proof.
  revert s. induction schedule as [|tick schedule IH]; intros s Htodo Hgs.
  - apply evolves_refl.
  - destruct (modular_step_evolves tick s Htodo Hgs) as (He & Htodo' & Hgs').
    eapply evolves_trans; [exact He|]. by apply IH.
Qed.

End ModularPoolEvolves.

Lemma modular_pool_evolves MD5Hash env maxRetries retryDelay schedule ids
  (w : World Modular.Msg) :
  evolves (modular_pool_event MD5Hash retryDelay ids) w
          (Modular.world
             (Modular.pool_run MD5Hash env maxRetries retryDelay schedule
                               (Modular.pool_start ids w))).
Proof.
  apply (modular_run_evolves MD5Hash env maxRetries retryDelay _ schedule
           (Modular.pool_start ids w)).
  - apply Forall_forall. intros k Hk. by apply modular_retryLoop_emits.
  - constructor.
Qed.

Lemma evolves_no_search {Msg : Type} (P : Event Msg → Prop) (w w' : World Msg) :
  (∀ page, ¬ P (EvSearch page)) → evolves P w w' → searches (since w w') = [].
Proof.
  intros HP He.
  destruct (searches (since w w')) as [|page l] eqn:E; [done|].
  exfalso. apply (HP page). eapply evolves_searches; [exact He|].
  rewrite E. apply elem_of_cons. by left.
Qed.

(** X6.  Whatever the interleaving of its goroutines, [fetchVacancyDetails]
    asks only for details of the keys it was given and never for a search
    page; every document it hands to the collection carries the hash of its
    own description; and every pause it makes lasts [RetryDelay]. *)
Theorem monolith_pool_asks_only_for_its_keys
  (md5Hash : string → string) (env : Env) (schedule : list Monolith.Tick)
  (ids : list string) (w : World Monolith.Msg) :
  let w' :=
    Monolith.world
      (Monolith.pool_run md5Hash env schedule (Monolith.pool_start ids w)) in
  (∀ k, k ∈ fetches (since w w') → k ∈ ids)
  ∧ (∀ data ok, (data, ok) ∈ upserts (since w w') → hashed md5Hash data)
  ∧ (∀ d, d ∈ sleeps (since w w') → d = Monolith.RetryDelay)
  ∧ searches (since w w') = [].
Proof.
  pose proof (monolith_pool_evolves md5Hash env schedule ids w) as He.
  cbv zeta. split_and!.
  - intros k Hk. exact (evolves_fetches _ _ _ _ He Hk).
  - intros data ok Hd. exact (evolves_upserts _ _ _ _ _ He Hd).
  - intros d Hd. exact (evolves_sleeps _ _ _ _ He Hd).
  - eapply evolves_no_search; [|exact He]. intros page H. exact H.
Qed.

(** X7.  Whatever the interleaving of its goroutines, and also when the
    context is cancelled on the way, [fetchAndProcessVacancies] asks only for
    details of the keys it was given and never for a search page; every
    document it hands to the collection carries the hash of its own
    description, which is not empty; and every pause it makes lasts
    [retryDelay]. *)
Theorem modular_pool_asks_only_for_its_keys
  (MD5Hash : string → string) (env : Env) (maxRetries retryDelay : Z)
  (schedule : list Modular.Tick) (ids : list string) (w : World Modular.Msg) :
  let w' :=
    Modular.world
      (Modular.pool_run MD5Hash env maxRetries retryDelay schedule
                        (Modular.pool_start ids w)) in
  (∀ k, k ∈ fetches (since w w') → k ∈ ids)
  ∧ (∀ data ok, (data, ok) ∈ upserts (since w w')
                → hashed MD5Hash data
                  ∧ data !! "description" ≠ Some (JString ""))
  ∧ (∀ d, d ∈ sleeps (since w w') → d = retryDelay)
  ∧ searches (since w w') = [].
Proof.
  pose proof (modular_pool_evolves MD5Hash env maxRetries retryDelay schedule
                ids w) as He.
  cbv zeta. split_and!.
  - intros k Hk. exact (evolves_fetches _ _ _ _ He Hk).
  - intros data ok Hd. exact (evolves_upserts _ _ _ _ _ He Hd).
  - intros d Hd. exact (evolves_sleeps _ _ _ _ He Hd).
  - eapply evolves_no_search; [|exact He]. intros page H. exact H.
Qed.

(** X8.  Neither worker pool ever forgets: under every schedule the set of
    known keys is the one the pool was started with, every hash that was known
    is still known, and the trace has only grown. *)
Theorem worker_pools_never_forget
  (md5Hash : string → string) (env : Env) (ids : list string) :
  (∀ schedule (w : World Monolith.Msg),
     let w' :=
       Monolith.world
         (Monolith.pool_run md5Hash env schedule (Monolith.pool_start ids w)) in
     vacancyIDs w' = vacancyIDs w
     ∧ descriptionHashes w ⊆ descriptionHashes w'
     ∧ trace w `prefix_of` trace w')
  ∧ (∀ maxRetries retryDelay schedule (w : World Modular.Msg),
       let w' :=
         Modular.world
           (Modular.pool_run md5Hash env maxRetries retryDelay schedule
                             (Modular.pool_start ids w)) in
       vacancyIDs w' = vacancyIDs w
       ∧ descriptionHashes w ⊆ descriptionHashes w'
       ∧ trace w `prefix_of` trace w').
Proof.
  split.
  - intros schedule w.
    destruct (monolith_pool_evolves md5Hash env schedule ids w)
      as (Hv & Hh & t & Ht & _).
    cbv zeta. split_and!; [done | done |]. by exists t.
  - intros maxRetries retryDelay schedule w.
    destruct (modular_pool_evolves md5Hash env maxRetries retryDelay schedule
                ids w) as (Hv & Hh & t & Ht & _).
    cbv zeta. split_and!; [done | done |]. by exists t.
Qed.

(** * What the pagination loops keep *)

Lemma searched_emit {Msg : Type} (w : World Msg) (page : Z) :
  page ∈ searches (trace (emit (EvSearch page) w)).
Proof.
  cbn [emit trace]. rewrite searches_app. apply elem_of_app. right. by left.
Qed.

Lemma searched_keep {Msg : Type} (w : World Msg) (e : Event Msg) (page : Z) :
  page ∈ searches (trace w) → page ∈ searches (trace (emit e w)).
Proof.
  intros H. cbn [emit trace]. rewrite searches_app. apply elem_of_app. by left.
Qed.

Section MonolithPageRel.

Import Monolith.

Variable env : Env.
Variable details : list string → World Msg → World Msg.
Variable R : World Msg → World Msg → Prop.

Hypothesis R_refl : ∀ w, R w w.
Hypothesis R_trans : ∀ w1 w2 w3, R w1 w2 → R w2 w3 → R w1 w3.
Hypothesis R_search : ∀ w page, R w (emit (EvSearch page) w).
Hypothesis R_log : ∀ w m, is_page_line m = true → R w (emit (EvLog m) w).
Hypothesis R_details :
  ∀ page sp w,
    searchPage env page = Response http_StatusOK (BodyJSON sp) →
    page ∈ searches (trace w) →
    R w (details (filter (λ id, id ∉ vacancyIDs w) (Items sp)) w).

(** A relation between worlds that holds across every step of the loop
    holds across the loop. *)
Lemma monolith_pageLoop_rel fuel page totalPages w :
  R w (pageLoop env details fuel page totalPages w).2.
Proof.
  revert page totalPages w.
  induction fuel as [|fuel IH]; intros page totalPages w; [apply R_refl|].
  cbn [pageLoop perform].
  assert (Hnext : ∀ m p tp,
             is_page_line m = true →
             R w (pageLoop env details fuel p tp
                           (say m (emit (EvSearch page) w))).2).
  { intros m p tp Hm. eapply R_trans; [|apply IH].
    eapply R_trans; [apply R_search | by apply R_log]. }
  destruct (searchPage env page) as [| |status body] eqn:Hresp;
    [by apply Hnext | by apply Hnext |].
  destruct (status =? http_StatusOK) eqn:Hstatus.
  - destruct body as [| |sp]; [by apply Hnext | by apply Hnext |].
    apply Z.eqb_eq in Hstatus. subst status.
    set (found := if page =? 0 then _ else _).
    assert (Hfound : R w found.2 ∧ page ∈ searches (trace found.2)).
    { unfold found. destruct (page =? 0); cbn [snd].
      - split; [eapply R_trans; [apply R_search | by apply R_log]|].
        apply searched_keep, searched_emit.
      - split; [apply R_search|].
        apply searched_emit. }
    destruct found as [tp w1]. cbn [snd] in Hfound.
    destruct Hfound as [Hfound Hin]. cbv zeta.
    match goal with
    | |- context [details ?ids ?w2] =>
        assert (Hd : R w (details ids w2))
    end.
    { eapply R_trans; [exact Hfound|].
      eapply R_trans;
        [|apply (R_details page sp (say _ w1) Hresp); by apply searched_keep].
      by apply R_log. }
    destruct (page >=? wrap64 (tp - 1)); [exact Hd|].
    eapply R_trans; [exact Hd | apply IH].
  - set (w1 := if _ || _ then _ else _).
    assert (Hw1 : R w w1).
    { unfold w1. destruct (_ || _);
        (eapply R_trans; [apply R_search | by apply R_log]). }
    destruct (page >=? wrap64 (totalPages - 1)); [exact Hw1|].
    eapply R_trans; [exact Hw1 | apply IH].
Qed.

End MonolithPageRel.

Section ModularPageRel.

Import Modular.

Variable env : Env.
Variable details : list string → Z → Z → World Msg → option error * World Msg.
Variable ctxDone : World Msg → bool.
Variable cfg : AppConfig.
Variable R : World Msg → World Msg → Prop.

Hypothesis R_refl : ∀ w, R w w.
Hypothesis R_trans : ∀ w1 w2 w3, R w1 w2 → R w2 w3 → R w1 w3.
Hypothesis R_search : ∀ w page, R w (emit (EvSearch page) w).
Hypothesis R_log : ∀ w m, R w (emit (EvLog m) w).
Hypothesis R_details :
  ∀ page sp w,
    searchPage env page = Response http_StatusOK (BodyJSON sp) →
    page ∈ searches (trace w) →
    R w (details (filter (λ id, storage.VacancyExists id w = false) (Items sp))
                 (MaxRetries cfg) (RetryDelay cfg) w).2.

Lemma modular_pageLoop_rel fuel page totalPages w :
  R w (pageLoop env details ctxDone cfg fuel page totalPages w).2.
Proof.
  revert page totalPages w.
  induction fuel as [|fuel IH]; intros page totalPages w; [apply R_refl|].
  cbn [pageLoop]. destruct (ctxDone w); [apply R_refl|]. run_prog.
  assert (Hnext : ∀ m p tp,
             R w (pageLoop env details ctxDone cfg fuel p tp
                           (say m (emit (EvSearch page) w))).2).
  { intros m p tp. eapply R_trans; [|apply IH].
    eapply R_trans; [apply R_search | apply R_log]. }
  destruct (searchPage env page) as [| |status body] eqn:Hresp;
    run_prog; [apply Hnext | apply Hnext |].
  destruct (status =? http_StatusOK) eqn:Hstatus; run_prog; [|apply Hnext].
  destruct body as [| |sp]; run_prog; [apply Hnext | apply Hnext |].
  apply Z.eqb_eq in Hstatus. subst status.
  set (found := if page =? 0 then _ else _).
  assert (Hfound : R w found.2 ∧ page ∈ searches (trace found.2)).
  { unfold found. destruct (page =? 0); cbn [snd].
    - split; [eapply R_trans; [apply R_search | apply R_log]|].
      apply searched_keep, searched_emit.
    - split; [apply R_search|].
      apply searched_emit. }
  destruct found as [tp w1]. cbn [snd] in Hfound.
  destruct Hfound as [Hfound Hin]. cbv zeta.
  match goal with
  | |- context [if decide ?C then ?a else ?b] =>
      set (w2 := if decide C then a else b)
  end.
  assert (Hw2 : R w w2).
  { eapply R_trans; [exact Hfound|].
    unfold w2. case_decide; [|apply R_log].
    assert (Hin' : page ∈ searches (trace (say (MsgProcessingPage page
                  (length (filter (λ id, storage.VacancyExists id w1 = false)
                                  (Items sp)))) w1))).
    { by apply searched_keep. }
    pose proof (R_details page sp (say (MsgProcessingPage page
                  (length (filter (λ id, storage.VacancyExists id w1 = false)
                                  (Items sp)))) w1) Hresp Hin') as Hd.
    eapply R_trans; [apply R_log|].
    change (vacancyIDs (say _ w1)) with (vacancyIDs w1) in Hd.
    unfold storage.VacancyExists in *. cbn [vacancyIDs say emit] in *.
    match goal with
    | |- context [details ?a ?b ?c ?d] =>
        change (R d (details a b c d).2) in Hd;
        destruct (details a b c d) as [[err|] w3]
    end; cbn [snd] in Hd; [|exact Hd].
    eapply R_trans; [exact Hd | apply R_log]. }
  destruct (page >=? wrap64 (tp - 1)); [exact Hw2|].
  eapply R_trans; [exact Hw2 | apply IH].
Qed.

End ModularPageRel.

(** * Whole runs *)

Section Counting.

Context {Msg : Type}.
Variable weight : list (Event Msg) → nat.
Hypothesis weight_app : ∀ t1 t2, weight (t1 ++ t2) = (weight t1 + weight t2)%nat.

Implicit Types (w : World Msg).

Lemma weight_nil : weight [] = 0%nat.
Proof. pose proof (weight_app [] []) as H. simpl in H. lia. Qed.

Lemma counts_refl w : counts weight w w.
Proof.
  intros Hin. split; [done|]. exists []. split; [by rewrite app_nil_r|].
  rewrite weight_nil, Z.add_0_r. by rewrite wrap64_small.
Qed.

Lemma counts_trans w1 w2 w3 :
  counts weight w1 w2 → counts weight w2 w3 → counts weight w1 w3.
Proof.
  intros H12 H23 Hin.
  destruct (H12 Hin) as (Hin2 & t1 & Ht1 & Hc1).
  destruct (H23 Hin2) as (Hin3 & t2 & Ht2 & Hc2).
  split; [done|]. exists (t1 ++ t2). split; [by rewrite Ht2, Ht1, app_assoc|].
  rewrite Hc2, Hc1, wrap64_add_l, weight_app. f_equal. lia.
Qed.

Lemma counts_emit w e : weight [e] = 0%nat → counts weight w (emit e w).
Proof.
  intros He Hin. split; [done|]. exists [e]. split; [done|].
  rewrite He, Z.add_0_r. by rewrite wrap64_small.
Qed.

End Counting.

Lemma not_loaded_not_stored (docs : list (string * string)) (k hash : string) :
  k ∉ (Monolith.loadExistingData docs).1 → (k, hash) ∉ docs.
Proof.
  intros Hk Hin. apply Hk. unfold Monolith.loadExistingData.
  apply load_fold_ids. right. by exists hash.
Qed.

Section FollowsPages.

Context {Msg : Type}.
Variable env : Env.
Variable known : gset string.

Implicit Types (t : list (Event Msg)) (seen : list Z).

Lemma follows_pages_mono seen seen' t :
  (∀ page, page ∈ seen → page ∈ seen') →
  follows_pages env known seen t → follows_pages env known seen' t.
Proof.
  revert seen seen'. induction t as [|e t IH]; intros seen seen' Hsub; [done|].
  destruct e; cbn [follows_pages]; try (by apply IH).
  - apply IH. intros q Hq.
    apply elem_of_cons in Hq as [->|Hq]; [by left | right; auto].
  - intros [(Hk & q & sp & Hq & Hresp & Hin) Ht]. split; [|by eapply IH].
    split; [done|]. exists q, sp. auto.
Qed.

Lemma follows_pages_app seen seen' t1 t2 :
  (∀ page, page ∈ seen' → page ∈ searches t1 ∨ page ∈ seen) →
  follows_pages env known seen t1 →
  follows_pages env known seen' t2 →
  follows_pages env known seen (t1 ++ t2).
Proof.
  revert seen. induction t1 as [|e t1 IH]; intros seen Hsub H1 H2.
  - simpl. eapply follows_pages_mono; [|exact H2].
    intros q Hq. destruct (Hsub q Hq) as [Hin|Hin]; [|done].
    by apply elem_of_nil in Hin.
  - destruct e as [p|k| | | | | | ]; cbn [follows_pages app] in *;
      try (by apply IH).
    + apply IH; [|done|done]. intros q Hq.
      destruct (Hsub q Hq) as [Hin|Hin].
      * change (searches (EvSearch p :: t1)) with (p :: searches t1) in Hin.
        apply elem_of_cons in Hin as [->|Hin].
        -- right. by left.
        -- by left.
      * right. by right.
    + destruct H1 as [Hk H1]. split; [done|]. by apply IH.
Qed.

(** Events of a worker pool that was given keys which the pages seen so
    far list. *)
Lemma follows_pages_pool (P : Event Msg → Prop) (ids : list string) seen t :
  (∀ page, ¬ P (EvSearch page)) →
  (∀ k, P (EvFetch k) → k ∈ ids) →
  (∀ k, k ∈ ids →
        (k ∉ known)
        ∧ ∃ page sp,
            page ∈ seen
            ∧ searchPage env page = Response http_StatusOK (BodyJSON sp)
            ∧ k ∈ Items sp) →
  Forall P t → follows_pages env known seen t.
Proof.
  intros Hsearch Hfetch Hids. induction 1 as [|e t He Ht IH]; [done|].
  destruct e; cbn [follows_pages]; try done.
  - by apply Hsearch in He.
  - split; [|done]. by apply Hids, Hfetch.
Qed.

(** What the property says of one detail request on the trace. *)
Lemma follows_pages_at seen t1 k t2 :
  follows_pages env known seen (t1 ++ EvFetch k :: t2) →
  (k ∉ known)
  ∧ ∃ page sp,
      (page ∈ searches t1 ∨ page ∈ seen)
      ∧ searchPage env page = Response http_StatusOK (BodyJSON sp)
      ∧ k ∈ Items sp.
Proof.
  revert seen. induction t1 as [|e t1 IH]; intros seen.
  - cbn [app follows_pages]. intros [(Hk & q & sp & Hq & Hresp & Hin) _].
    split; [done|]. exists q, sp. auto.
  - destruct e as [p|k'| | | | | | ]; cbn [app follows_pages];
      try (by apply IH).
    + intros H. destruct (IH _ H) as (Hk & q & sp & Hq & Hresp & Hin).
      split; [done|]. exists q, sp. split; [|done].
      change (searches (EvSearch p :: t1)) with (p :: searches t1).
      rewrite elem_of_cons.
      destruct Hq as [Hq|Hq]; [by left; right|].
      apply elem_of_cons in Hq as [->|Hq]; [by left; left | by right].
    + intros [_ H]. by apply IH.
Qed.

End FollowsPages.

Section MonolithRuns.

Import Monolith.

Variable md5Hash : string → string.
Variable env : Env.

(** The loop over the pages, over any way to run the pool. *)
Lemma monolith_pages_follow
  (details : list string → World Msg → World Msg) (known : gset string)
  fuel page totalPages (w : World Msg) :
  (∀ ids w, evolves (monolith_pool_event md5Hash ids) w (details ids w)) →
  vacancyIDs w = known →
  follows_pages env known [] (trace w) →
  follows_pages env known []
                (trace (pageLoop env details fuel page totalPages w).2).
Proof.
  intros Hdetails Hk Hw.
  assert (Hone : ∀ (w0 : World Msg) e,
            (∀ k, e ≠ EvFetch k) →
            follows_pages env known [] (trace w0) →
            follows_pages env known [] (trace (emit e w0))).
  { intros w0 e He H0. cbn [emit trace].
    apply (follows_pages_app env known [] [] (trace w0) [e]); [|done|].
    - intros q Hq. by apply elem_of_nil in Hq.
    - destruct e; try done. by destruct (He vacancyID). }
  apply (monolith_pageLoop_rel env details
           (λ w w', vacancyIDs w = known
                    → follows_pages env known [] (trace w)
                    → vacancyIDs w' = known
                      ∧ follows_pages env known [] (trace w'))); try done.
  - intros w1 w2 w3 H12 H23 H1 F1. destruct (H12 H1 F1) as [H2 F2]. by apply H23.
  - intros w0 q H0 F0. split; [done|]. by apply Hone.
  - intros w0 m _ H0 F0. split; [done|]. by apply Hone.
  - intros q sp w0 Hresp Hq H0 F0.
    destruct (Hdetails (filter (λ id, id ∉ vacancyIDs w0) (Items sp)) w0)
      as (Hv & _ & t & Ht & HP).
    split; [congruence|]. rewrite Ht.
    apply (follows_pages_app env known [] (searches (trace w0)) (trace w0) t);
      [by left | done |].
    apply (follows_pages_pool env known
             (monolith_pool_event md5Hash
                (filter (λ id, id ∉ vacancyIDs w0) (Items sp)))
             (filter (λ id, id ∉ vacancyIDs w0) (Items sp))
             (searches (trace w0)) t);
      [intros p H; exact H | intros k H; exact H | | exact HP].
    intros k Hin. apply list_elem_of_filter in Hin as [Hnew Hin].
    split; [congruence|]. by exists q, sp.
Qed.

End MonolithRuns.

(** X9.  In a run of the single-file program, its goroutines interleaved
    in any way on every page, every detail request is for a key that no
    stored document had when the run started, and that is listed by a
    search page which has arrived earlier in the same run: the request for
    that page is on the trace before the detail request, and it was
    answered with status 200 and a body that parses. *)
Theorem monolith_run_asks_only_for_new_keys
  (md5Hash : string → string) (env : Env)
  (schedule : list string → World Monolith.Msg → list Monolith.Tick)
  (inv : Monolith.Invocation) (fuel : nat)
  (t1 : list (Event Monolith.Msg)) (k : string) (t2 : list (Event Monolith.Msg)) :
  let details := λ ids w,
    Monolith.world
      (Monolith.pool_run md5Hash env (schedule ids w)
                         (Monolith.pool_start ids w)) in
  trace (Monolith.main env details inv fuel).2 = t1 ++ EvFetch k :: t2 →
  (∃ page sp,
     page ∈ searches t1
     ∧ searchPage env page = Response http_StatusOK (BodyJSON sp)
     ∧ k ∈ Items sp)
  ∧ ∀ docs hash, Monolith.stored inv = Some docs → (k, hash) ∉ docs.
Proof.
  intros details.
  assert (Hnil : ∀ A (a : A), @nil A = [] ++ [a] → False) by (intros ??; done).
  unfold Monolith.main.
  destruct (negb (Monolith.logs_open inv)); [by destruct t1|].
  destruct (negb (Monolith.parses inv)); [by destruct t1|].
  repeat case_decide; try by destruct t1.
  destruct (negb (Monolith.connects inv)); [by destruct t1|].
  destruct (Monolith.stored inv) as [docs|]; [|by destruct t1].
  destruct (Monolith.loadExistingData docs) as [ids hashes] eqn:Hload.
  set (w1 := Monolith.say _ (Monolith.say _ (mkWorld ids hashes 0 []))).
  pose proof (monolith_pages_follow md5Hash env details ids fuel 0 0 w1) as Hw2.
  unfold Monolith.fetchAndStoreVacancies.
  assert (Hend : ∀ w2 : World Monolith.Msg,
            follows_pages env ids [] (trace w2) →
            trace w2 = t1 ++ EvFetch k :: t2 →
            (∃ page sp,
               page ∈ searches t1
               ∧ searchPage env page = Response http_StatusOK (BodyJSON sp)
               ∧ k ∈ Items sp)
            ∧ ∀ docs' hash, Some docs = Some docs' → (k, hash) ∉ docs').
  { intros w2 F2 E2. rewrite E2 in F2.
    apply follows_pages_at in F2 as (Hk & q & sp & [Hq|Hq] & Hresp & Hin);
      [|by apply elem_of_nil in Hq].
    split; [by exists q, sp|]. intros docs' hash [= <-].
    apply not_loaded_not_stored. by rewrite Hload. }
  assert (F2 : follows_pages env ids []
                 (trace (Monolith.pageLoop env details fuel 0 0 w1).2)).
  { apply Hw2; [|done|done]. intros. apply monolith_pool_evolves. }
  destruct (Monolith.pageLoop env details fuel 0 0 w1) as [[err|] w2];
    cbn [fst snd] in *.
  - apply Hend. destruct err; cbn [Monolith.say emit trace];
      (apply (follows_pages_app env ids [] []); [|done|done]);
      intros q Hq; by apply elem_of_nil in Hq.
  - by apply Hend.
Qed.

Lemma monolith_run_asks_only_for_new_keys_witness :
  let details := λ ids w,
    Monolith.world
      (Monolith.pool_run digest env_same_text monolith_race
                         (Monolith.pool_start ids w)) in
  let t := trace (Monolith.main env_same_text details (monolith_start []) 2).2 in
  t = take 6 t ++ EvFetch "2" :: drop 7 t
  ∧ (∃ page sp,
       page ∈ searches (take 6 t)
       ∧ searchPage env_same_text page = Response http_StatusOK (BodyJSON sp)
       ∧ "2" ∈ Items sp)
  ∧ ∀ docs hash,
      Monolith.stored (monolith_start []) = Some docs → ("2", hash) ∉ docs.
Proof.
  intros details t.
  assert (Ht : t = take 6 t ++ EvFetch "2" :: drop 7 t) by (by vm_compute).
  split; [exact Ht|].
  exact (monolith_run_asks_only_for_new_keys digest env_same_text
           (λ _ _, monolith_race) (monolith_start []) 2 _ _ _ Ht).
Defined.

Section ModularRuns.

Import Modular.

Variable MD5Hash : string → string.
Variable env : Env.

(** The loop over the pages, over any way to run the pool. *)
Lemma modular_pages_follow
  (details : list string → Z → Z → World Msg → option error * World Msg)
  (ctxDone : World Msg → bool) (cfg : AppConfig) (known : gset string)
  fuel page totalPages (w : World Msg) :
  (∀ ids maxRetries retryDelay w,
     evolves (modular_pool_event MD5Hash retryDelay ids) w
             (details ids maxRetries retryDelay w).2) →
  vacancyIDs w = known →
  follows_pages env known [] (trace w) →
  follows_pages env known []
                (trace (pageLoop env details ctxDone cfg fuel page totalPages w).2).
Proof.
  intros Hdetails Hk Hw.
  assert (Hone : ∀ (w0 : World Msg) e,
            (∀ k, e ≠ EvFetch k) →
            follows_pages env known [] (trace w0) →
            follows_pages env known [] (trace (emit e w0))).
  { intros w0 e He H0. cbn [emit trace].
    apply (follows_pages_app env known [] [] (trace w0) [e]); [|done|].
    - intros q Hq. by apply elem_of_nil in Hq.
    - destruct e; try done. by destruct (He vacancyID). }
  apply (modular_pageLoop_rel env details ctxDone cfg
           (λ w w', vacancyIDs w = known
                    → follows_pages env known [] (trace w)
                    → vacancyIDs w' = known
                      ∧ follows_pages env known [] (trace w'))); try done.
  - intros w1 w2 w3 H12 H23 H1 F1. destruct (H12 H1 F1) as [H2 F2]. by apply H23.
  - intros w0 q H0 F0. split; [done|]. by apply Hone.
  - intros w0 m H0 F0. split; [done|]. by apply Hone.
  - intros q sp w0 Hresp Hq H0 F0.
    destruct (Hdetails (filter (λ id, storage.VacancyExists id w0 = false)
                               (Items sp))
                       (MaxRetries cfg) (RetryDelay cfg) w0)
      as (Hv & _ & t & Ht & HP).
    split; [congruence|]. rewrite Ht.
    apply (follows_pages_app env known [] (searches (trace w0)) (trace w0) t);
      [by left | done |].
    apply (follows_pages_pool env known
             (modular_pool_event MD5Hash (RetryDelay cfg)
                (filter (λ id, storage.VacancyExists id w0 = false) (Items sp)))
             (filter (λ id, storage.VacancyExists id w0 = false) (Items sp))
             (searches (trace w0)) t);
      [intros p H; exact H | intros k H; exact H | | exact HP].
    intros k Hin. apply list_elem_of_filter in Hin as [Hnew Hin].
      unfold storage.VacancyExists in Hnew.
      apply bool_decide_eq_false in Hnew.
      split; [congruence|]. by exists q, sp.
Qed.

(** What [fetchAndStoreVacancies] returns as the count is the counter as
    it stands when the function returns. *)
Lemma modular_pages_return_the_counter
  (details : list string → Z → Z → World Msg → option error * World Msg)
  (ctxDone : World Msg → bool) (cfg : AppConfig)
  fuel page totalPages (w : World Msg) :
  match pageLoop env details ctxDone cfg fuel page totalPages w with
  | (Some (count, _), w') => count = savedCount w'
  | (None, _) => True
  end.
Proof.
  revert page totalPages w.
  induction fuel as [|fuel IH]; intros page totalPages w; [done|].
  cbn [pageLoop]. destruct (ctxDone w); [done|]. run_prog.
  destruct (searchPage env page) as [| |status body]; run_prog;
    [apply IH | apply IH |].
  destruct (status =? http_StatusOK); run_prog; [|apply IH].
  destruct body as [| |sp]; run_prog; [apply IH | apply IH |].
  destruct (if page =? 0 then _ else _) as [tp w1]. cbv zeta.
  destruct (page >=? wrap64 (tp - 1)); [done | apply IH].
Qed.

End ModularRuns.

(** X10.  In a run of the refactored program, its goroutines interleaved
    in any way on every page, every detail request is for a key that no
    stored document had when the run started, and that is listed by a
    search page which has arrived earlier in the same run: the request for
    that page is on the trace before the detail request, and it was
    answered with status 200 and a body that parses.  A schedule that
    stops before [fetchAndProcessVacancies] has returned stands for a
    return without an error. *)
Theorem modular_run_asks_only_for_new_keys
  (MD5Hash : string → string) (env : Env)
  (schedule : list string → World Modular.Msg → list Modular.Tick)
  (inv : Modular.Invocation) (fuel : nat)
  (t1 : list (Event Modular.Msg)) (k : string) (t2 : list (Event Modular.Msg)) :
  let details := λ ids maxRetries retryDelay w,
    let s :=
      Modular.pool_run MD5Hash env maxRetries retryDelay (schedule ids w)
                       (Modular.pool_start ids w) in
    (mjoin (Modular.returned s), Modular.world s) in
  trace (Modular.main MD5Hash env details inv fuel).2 = t1 ++ EvFetch k :: t2 →
  (∃ page sp,
     page ∈ searches t1
     ∧ searchPage env page = Response http_StatusOK (BodyJSON sp)
     ∧ k ∈ Items sp)
  ∧ ∀ docs hash, Modular.stored inv = Some docs → (k, hash) ∉ docs.
Proof.
  intros details. unfold Modular.main.
  destruct (negb (Modular.parses inv)); [by destruct t1|].
  repeat case_decide; try by destruct t1.
  destruct (negb (Modular.logs_open inv)); [by destruct t1|].
  destruct (negb (Modular.connects inv)); [by destruct t1|].
  destruct (Modular.stored inv) as [docs|]; [|by destruct t1].
  destruct (Modular.storage.LoadExistingData docs) as [ids hashes] eqn:Hload.
  set (w1 := Modular.say _ (mkWorld ids hashes 0 [])).
  set (cfg := Modular.LoadConfig _ _ _ _).
  unfold Modular.fetchAndStoreVacancies.
  set (w1' := mkWorld (vacancyIDs w1) (descriptionHashes w1) 0 (trace w1)).
  pose proof (modular_pages_follow MD5Hash env details Modular.Background cfg
                ids fuel 0 0 w1') as Hw2.
  assert (Hend : ∀ w2 : World Modular.Msg,
            follows_pages env ids [] (trace w2) →
            trace w2 = t1 ++ EvFetch k :: t2 →
            (∃ page sp,
               page ∈ searches t1
               ∧ searchPage env page = Response http_StatusOK (BodyJSON sp)
               ∧ k ∈ Items sp)
            ∧ ∀ docs' hash, Some docs = Some docs' → (k, hash) ∉ docs').
  { intros w2 F2 E2. rewrite E2 in F2.
    apply follows_pages_at in F2 as (Hk & q & sp & [Hq|Hq] & Hresp & Hin);
      [|by apply elem_of_nil in Hq].
    split; [by exists q, sp|]. intros docs' hash [= <-].
    apply not_loaded_not_stored.
    change (Monolith.loadExistingData docs)
      with (Modular.storage.LoadExistingData docs).
    by rewrite Hload. }
  assert (F2 : follows_pages env ids []
                 (trace (Modular.pageLoop env details Modular.Background cfg
                                          fuel 0 0 w1').2)).
  { apply Hw2; [|done|done]. intros. apply modular_pool_evolves. }
  destruct (Modular.pageLoop env details Modular.Background cfg fuel 0 0 w1')
    as [[[saved err]|] w2]; cbn [fst snd] in *.
  - apply Hend. destruct err; cbn [Modular.say emit trace];
      (apply (follows_pages_app env ids [] []); [|done|done]);
      intros q Hq; by apply elem_of_nil in Hq.
  - by apply Hend.
Qed.

Lemma modular_run_asks_only_for_new_keys_witness :
  let details := λ ids maxRetries retryDelay w,
    let s :=
      Modular.pool_run digest env_same_text maxRetries retryDelay modular_race
                       (Modular.pool_start ids w) in
    (mjoin (Modular.returned s), Modular.world s) in
  let t :=
    trace (Modular.main digest env_same_text details (modular_start []) 2).2 in
  t = take 5 t ++ EvFetch "2" :: drop 6 t
  ∧ (∃ page sp,
       page ∈ searches (take 5 t)
       ∧ searchPage env_same_text page = Response http_StatusOK (BodyJSON sp)
       ∧ "2" ∈ Items sp)
  ∧ ∀ docs hash,
      Modular.stored (modular_start []) = Some docs → ("2", hash) ∉ docs.
Proof.
  intros details t.
  assert (Ht : t = take 5 t ++ EvFetch "2" :: drop 6 t) by (by vm_compute).
  split; [exact Ht|].
  exact (modular_run_asks_only_for_new_keys digest env_same_text
           (λ _ _, modular_race) (modular_start []) 2 _ _ _ Ht).
Defined.

(** * The count that is printed *)

Section MonolithCount.

Import Monolith.

Variable md5Hash : string → string.
Variable env : Env.

Lemma monolith_weight_app t1 t2 :
  monolith_weight (t1 ++ t2) = (monolith_weight t1 + monolith_weight t2)%nat.
Proof.
  unfold monolith_weight. rewrite written_app, skipped_duplicates_app. lia.
Qed.

Lemma monolith_key_counts k (w : World Msg) :
  counts monolith_weight w (interp env (worker md5Hash k) w).2.
Proof.
  intros Hin.
  destruct (monolith_loop_summary md5Hash env (S (Z.to_nat MaxRetries)) k 0 w)
    as (n & t & o & _ & Ht & _ & _ & _ & _ & _ & _ & Hw & Hd & Hc);
    [by vm_compute | vm_compute; lia |].
  fold (worker md5Hash k) in *.
  split.
  - rewrite Hc. case_decide; [apply wrap64_in_range | done].
  - exists t. split; [done|]. rewrite Hc. unfold monolith_weight.
    rewrite Hw, Hd.
    destruct o; repeat case_decide; try tauto; try done;
      try (exfalso; tauto);
      by rewrite Z.add_0_r, wrap64_small.
Qed.

Lemma monolith_serial_counts ids (w : World Msg) :
  counts monolith_weight w (fetchVacancyDetails md5Hash env ids w).
Proof.
  unfold fetchVacancyDetails.
  revert w. induction ids as [|k ids IH]; intros w; cbn [foldl].
  - apply counts_refl, monolith_weight_app.
  - eapply counts_trans; [apply monolith_weight_app | | apply IH].
    apply monolith_key_counts.
Qed.

Lemma monolith_pages_count fuel page totalPages (w : World Msg) :
  counts monolith_weight w
         (pageLoop env (fetchVacancyDetails md5Hash env) fuel page totalPages w).2.
Proof.
  apply (monolith_pageLoop_rel env (fetchVacancyDetails md5Hash env)
           (counts monolith_weight)).
  - intros. apply counts_refl, monolith_weight_app.
  - intros w1 w2 w3. apply counts_trans, monolith_weight_app.
  - intros. by apply counts_emit.
  - intros w0 m Hm. apply counts_emit. by destruct m.
  - intros. apply monolith_serial_counts.
Qed.

End MonolithCount.

Section ModularCount.

Import Modular.

Variable MD5Hash : string → string.
Variable env : Env.
Variables maxRetries retryDelay : Z.
Hypothesis maxRetries_pos : 0 <= maxRetries.
Hypothesis maxRetries_fits : maxRetries + 1 < 2 ^ 63.

Lemma modular_key_counts k (w : World Msg) :
  counts written w (interp env (worker MD5Hash maxRetries retryDelay k) w).2.
Proof.
  intros Hin.
  destruct (modular_loop_summary MD5Hash env (Z.to_nat maxRetries + 2)
              maxRetries retryDelay k 0 w)
    as (n & t & o & _ & Ht & _ & _ & _ & _ & _ & _ & Hw & Hc);
    [lia | lia | lia |].
  fold (worker MD5Hash maxRetries retryDelay k) in *.
  split.
  - rewrite Hc. case_decide; [apply wrap64_in_range | done].
  - exists t. split; [done|]. rewrite Hc, Hw.
    case_decide; [done|]. by rewrite Z.add_0_r, wrap64_small.
Qed.

Lemma modular_serial_counts ids (w : World Msg) :
  counts written w
         (fetchAndProcessVacancies MD5Hash env ids maxRetries retryDelay w).2.
Proof.
  unfold fetchAndProcessVacancies. cbn [snd].
  revert w. induction ids as [|k ids IH]; intros w; cbn [foldl].
  - apply counts_refl, written_app.
  - eapply counts_trans; [apply written_app | | apply IH].
    apply modular_key_counts.
Qed.

End ModularCount.

Lemma modular_pages_count MD5Hash env ctxDone cfg fuel page totalPages
  (w : World Modular.Msg) :
  0 <= Modular.MaxRetries cfg →
  Modular.MaxRetries cfg + 1 < 2 ^ 63 →
  counts written w
         (Modular.pageLoop env (Modular.fetchAndProcessVacancies MD5Hash env)
                           ctxDone cfg fuel page totalPages w).2.
Proof.
  intros Hpos Hfits.
  apply (modular_pageLoop_rel env (Modular.fetchAndProcessVacancies MD5Hash env)
           ctxDone cfg (counts written)).
  - intros. apply counts_refl, written_app.
  - intros w1 w2 w3. apply counts_trans, written_app.
  - intros. by apply counts_emit.
  - intros. by apply counts_emit.
  - intros. by apply modular_serial_counts.
Qed.

Lemma written_log {Msg : Type} (m : Msg) : written [EvLog m] = 0%nat.
Proof. done. Qed.

Lemma skipped_duplicates_log (m : Monolith.Msg) :
  skipped_duplicates [EvLog m] = (if is_duplicate_line m then 1 else 0)%nat.
Proof. by destruct m. Qed.

(** X11.  The count that the single-file program prints, when the goroutines
    of each page run one after the other: the number of writes that the
    collection accepted plus the number of keys skipped as duplicates, modulo
    2^64. *)
Theorem monolith_count_is_writes_plus_duplicates
  (md5Hash : string → string) (env : Env) (inv : Monolith.Invocation)
  (fuel : nat) (saved : Z) (fatal : bool) (w' : World Monolith.Msg) :
  Monolith.main env (Monolith.fetchVacancyDetails md5Hash env) inv fuel
  = (Some (Monolith.Printed saved fatal), w') →
  saved = wrap64 (Z.of_nat (written (trace w') + skipped_duplicates (trace w'))).
Proof.
  unfold Monolith.main.
  destruct (negb (Monolith.logs_open inv)); [done|].
  destruct (negb (Monolith.parses inv)); [done|].
  repeat case_decide; try done.
  destruct (negb (Monolith.connects inv)); [done|].
  destruct (Monolith.stored inv) as [docs|]; [|done].
  destruct (Monolith.loadExistingData docs) as [ids hashes].
  set (w1 := Monolith.say _ (Monolith.say _ _)).
  unfold Monolith.fetchAndStoreVacancies.
  pose proof (monolith_pages_count md5Hash env fuel 0 0 w1) as Hcount.
  destruct (Monolith.pageLoop env _ fuel 0 0 w1) as [[err|] w2]; [|done].
  cbn [snd] in Hcount.
  destruct Hcount as (_ & t & Ht & Hc); [by vm_compute|].
  intros [= <- _ <-].
  change (monolith_weight t) with (written t + skipped_duplicates t)%nat in Hc.
  assert (Hfinal : ∀ m, is_duplicate_line m = false →
            savedCount (Monolith.say m w2)
            = wrap64 (Z.of_nat (written (trace (Monolith.say m w2))
                                + skipped_duplicates (trace (Monolith.say m w2))))).
  { intros m Hm. cbn [Monolith.say emit savedCount trace]. rewrite Hc, Ht.
    cbn [w1 Monolith.say emit savedCount trace].
    rewrite !written_app, !skipped_duplicates_app. f_equal.
    change (written (Msg := Monolith.Msg) []) with 0%nat.
    change (skipped_duplicates []) with 0%nat.
    rewrite !written_log, !skipped_duplicates_log, Hm. simpl. lia. }
  destruct err; by apply Hfinal.
Qed.

Lemma monolith_count_is_writes_plus_duplicates_witness :
  let w' := (monolith_run env_duplicate [("1", "hello")] 2).2 in
  Monolith.main env_duplicate (Monolith.fetchVacancyDetails digest env_duplicate)
                (monolith_start [("1", "hello")]) 2
  = (Some (Monolith.Printed 1 false), w')
  ∧ 1 = wrap64 (Z.of_nat (written (trace w') + skipped_duplicates (trace w'))).
Proof.
  assert (H : Monolith.main env_duplicate
                (Monolith.fetchVacancyDetails digest env_duplicate)
                (monolith_start [("1", "hello")]) 2
              = (Some (Monolith.Printed 1 false),
                 (monolith_run env_duplicate [("1", "hello")] 2).2))
    by (by vm_compute).
  split; [exact H|].
  exact (monolith_count_is_writes_plus_duplicates _ _ _ _ _ _ _ H).
Defined.

(** X12.  The count that the refactored program prints, when the goroutines of
    each page run one after the other: the number of writes that the
    collection accepted, modulo 2^64. *)
Theorem modular_count_is_the_number_of_writes
  (MD5Hash : string → string) (env : Env) (inv : Modular.Invocation)
  (fuel : nat) (saved : Z) (w' : World Modular.Msg) :
  Modular.main MD5Hash env (Modular.fetchAndProcessVacancies MD5Hash env) inv fuel
  = (Some (Modular.Printed saved), w') →
  saved = wrap64 (Z.of_nat (written (trace w'))).
Proof.
  unfold Modular.main.
  destruct (negb (Modular.parses inv)); [done|].
  repeat case_decide; try done.
  destruct (negb (Modular.logs_open inv)); [done|].
  destruct (negb (Modular.connects inv)); [done|].
  destruct (Modular.stored inv) as [docs|]; [|done].
  destruct (Modular.storage.LoadExistingData docs) as [ids hashes].
  set (cfg := Modular.LoadConfig _ _ _ _).
  unfold Modular.fetchAndStoreVacancies.
  set (w1 := mkWorld _ _ 0 _).
  pose proof (modular_pages_count MD5Hash env Modular.Background cfg fuel 0 0 w1)
    as Hcount.
  pose proof (modular_pages_return_the_counter env
                (Modular.fetchAndProcessVacancies MD5Hash env)
                Modular.Background cfg fuel 0 0 w1) as Hret.
  destruct (Modular.pageLoop env _ Modular.Background cfg fuel 0 0 w1)
    as [[[count err]|] w2]; [|done].
  cbn [snd] in Hcount.
  destruct Hcount as (_ & t & Ht & Hc); [done | by vm_compute | by vm_compute |].
  intros [= <- <-]. rewrite Hret, Hc.
  cbn [w1 savedCount]. f_equal. rewrite Z.add_0_l. f_equal.
  assert (Hfinal : ∀ m, written t = written (trace (Modular.say m w2))).
  { intros m. cbn [Modular.say emit trace]. rewrite Ht.
    cbn [w1 trace Modular.say emit].
    rewrite !written_app, !written_log.
    change (written (Msg := Modular.Msg) []) with 0%nat. lia. }
  destruct err; apply Hfinal.
Qed.

Lemma modular_count_is_the_number_of_writes_witness :
  let w' := (modular_run env_same_text [] 2).2 in
  Modular.main digest env_same_text
               (Modular.fetchAndProcessVacancies digest env_same_text)
               (modular_start []) 2
  = (Some (Modular.Printed 1), w')
  ∧ 1 = wrap64 (Z.of_nat (written (trace w'))).
Proof.
  assert (H : Modular.main digest env_same_text
                (Modular.fetchAndProcessVacancies digest env_same_text)
                (modular_start []) 2
              = (Some (Modular.Printed 1), (modular_run env_same_text [] 2).2))
    by (by vm_compute).
  split; [exact H|].
  exact (modular_count_is_the_number_of_writes _ _ _ _ _ _ H).
Defined.

(** * When the worker pools return *)

Lemma count_zero {A : Type} (f : A → bool) (l : list A) :
  length (filter (λ a, f a = true) l) = 0%nat → Forall (λ a, f a = false) l.
Proof.
  induction l as [|a l IH]; [by constructor|].
  rewrite filter_cons. destruct (f a) eqn:Ha.
  - rewrite decide_True by done. done.
  - rewrite decide_False by done. intros H. constructor; [done | by apply IH].
Qed.

Section MonolithWait.

Import Monolith.

Variable md5Hash : string → string.
Variable env : Env.
Variable n : nat.

Lemma monolith_wait_step tick (s : PoolState) :
  monolith_wait_inv n s → monolith_wait_inv n (pool_step md5Hash env tick s).
Proof.
  intros Hinv. pose proof Hinv as (Hwg & Hlen & Hret).
  destruct tick as [|i]; cbn [pool_step].
  - unfold main_step. destruct (todo s) as [|k rest] eqn:Hrest.
    + case_decide; [|done]. split_and!; done.
    + split_and!; simpl.
      * rewrite count_app, <- Hwg. simpl. lia.
      * rewrite length_app. simpl in *. lia.
      * intros Hr. by destruct (Hret Hr).
  - unfold go_step. destruct (goroutines s !! i) as [g|] eqn:Hi; [|done].
    assert (Hreplace : ∀ g',
              (length (filter (λ g, monolith_active g = true)
                              (<[i := g']> (goroutines s)))
               + (if monolith_active g then 1 else 0)
               = wg s + (if monolith_active g' then 1 else 0))%nat).
    { intros g'. rewrite Hwg. by apply count_insert. }
    destruct g as [k|t| |].
    + case_decide; [|done]. split_and!; simpl.
      * specialize (Hreplace (GLoop (Running (worker md5Hash k)))). simpl in *. lia.
      * by rewrite length_insert.
      * done.
    + destruct t as [[a|X act k]|resp k];
        [|destruct (thread_step env _ (world s)) as [t' w']..];
        (split_and!; simpl;
         [ match goal with
           | |- context [<[i := ?g']> _] => specialize (Hreplace g')
           end; simpl in *; lia
         | by rewrite length_insert
         | done ]).
    + split_and!; simpl.
      * specialize (Hreplace GExit). simpl in *. lia.
      * by rewrite length_insert.
      * intros Hr. destruct (Hret Hr) as [Ht Hw]. split; [done|]. lia.
    + done.
Qed.

Lemma monolith_wait_run schedule (s : PoolState) :
  monolith_wait_inv n s → monolith_wait_inv n (pool_run md5Hash env schedule s).
Proof.
  revert s. induction schedule as [|tick schedule IH]; intros s Hs; [done|].
  simpl. apply IH. by apply monolith_wait_step.
Qed.

End MonolithWait.

(** X13.  [fetchVacancyDetails] returns, under whatever schedule, only after
    it has started one goroutine for each key it was given and every one of
    them has run to its end; no slot of the semaphore is held then. *)
Theorem monolith_pool_returns_after_all_goroutines
  (md5Hash : string → string) (env : Env) (schedule : list Monolith.Tick)
  (ids : list string) (w : World Monolith.Msg) :
  let s := Monolith.pool_run md5Hash env schedule (Monolith.pool_start ids w) in
  Monolith.returned s = true →
  Monolith.goroutines s = replicate (length ids) Monolith.GExit
  ∧ Monolith.todo s = []
  ∧ Monolith.sem s = 0%nat.
Proof.
  intros s Hr.
  destruct (monolith_wait_run md5Hash env (length ids) schedule
              (Monolith.pool_start ids w)) as (Hwg & Hlen & Hret).
  { split_and!; [done | done | done]. }
  fold s in Hwg, Hlen, Hret. destruct (Hret Hr) as [Htodo Hzero].
  rewrite Htodo in Hlen. simpl in Hlen. rewrite Nat.add_0_r in Hlen.
  assert (Hall : Forall (λ g, g = Monolith.GExit) (Monolith.goroutines s)).
  { rewrite Hzero in Hwg. symmetry in Hwg. apply count_zero in Hwg.
    eapply Forall_impl; [exact Hwg|]. by intros [ | | | ]. }
  split_and!; [|done|].
  - rewrite <- Hlen. clear -Hall.
    induction Hall as [|g gs -> _ IH]; [done|]. simpl. by rewrite <- IH.
  - destruct (monolith_inv_run md5Hash env schedule (Monolith.pool_start ids w)
                (monolith_inv_start ids w)) as [Hh _].
    fold s in Hh. rewrite <- Hh. unfold Monolith.holders.
    clear -Hall. induction Hall as [|g gs -> _ IH]; [done|].
    rewrite filter_cons. rewrite decide_False by done. done.
Qed.

Lemma monolith_pool_returns_after_all_goroutines_witness :
  let s :=
    Monolith.pool_run digest env_same_text monolith_race
                      (Monolith.pool_start ["1"; "2"] empty_world) in
  Monolith.returned s = true
  ∧ Monolith.goroutines s = replicate (length ["1"; "2"]) Monolith.GExit
  ∧ Monolith.todo s = []
  ∧ Monolith.sem s = 0%nat.
Proof.
  split; [by vm_compute|].
  apply (monolith_pool_returns_after_all_goroutines
           digest env_same_text monolith_race ["1"; "2"] empty_world).
  by vm_compute.
Defined.

Section ModularWait.

Import Modular.

Variable MD5Hash : string → string.
Variable env : Env.
Variables maxRetries retryDelay : Z.
Variable n : nat.

Lemma modular_wait_step tick (s : PoolState) :
  modular_wait_inv n s →
  modular_wait_inv n (pool_step MD5Hash env maxRetries retryDelay tick s).
Proof.
  intros Hinv. pose proof Hinv as (Hwg & Hlen & Hret).
  destruct tick as [| | |i]; cbn [pool_step].
  - split_and!; [done | done |]. simpl.
    destruct (returned s) as [[err|]|]; [|done|done].
    by destruct Hret as (? & ? & ?).
  - unfold done_step.
    destruct (returned s) as [r|] eqn:Hr; [done|].
    destruct (todo s) as [|k rest] eqn:Hrest; [done|].
    destruct (cancelled s) eqn:Hc; [|done].
    split_and!; simpl; try done; try (by rewrite Hrest).
  - unfold main_step.
    destruct (returned s) as [r|] eqn:Hr; [done|].
    destruct (todo s) as [|k rest] eqn:Hrest.
    + case_decide; [|done]. split_and!; simpl; done.
    + case_decide; [|done]. split_and!; simpl.
      * rewrite count_app, <- Hwg. simpl. lia.
      * rewrite length_app. simpl in *. lia.
      * done.
  - unfold go_step. destruct (goroutines s !! i) as [g|] eqn:Hi; [|done].
    assert (Hreplace : ∀ g',
              (length (filter (λ g, modular_active g = true)
                              (<[i := g']> (goroutines s)))
               + (if modular_active g then 1 else 0)
               = wg s + (if modular_active g' then 1 else 0))%nat).
    { intros g'. rewrite Hwg. by apply count_insert. }
    destruct g as [t| |].
    + destruct t as [[[a|]|X act k]|resp k];
        [|done|destruct (thread_step env _ (world s)) as [t' w']..];
        (split_and!; simpl;
         [ match goal with
           | |- context [<[i := ?g']> _] => specialize (Hreplace g')
           end; simpl in *; lia
         | by rewrite length_insert
         | done ]).
    + split_and!; simpl.
      * specialize (Hreplace GExit). simpl in *. lia.
      * by rewrite length_insert.
      * destruct (returned s) as [[err|]|]; [done| |done].
        destruct Hret as [Ht Hw]. split; [done|]. lia.
    + done.
Qed.

Lemma modular_wait_run schedule (s : PoolState) :
  modular_wait_inv n s →
  modular_wait_inv n (pool_run MD5Hash env maxRetries retryDelay schedule s).
Proof.
  revert s. induction schedule as [|tick schedule IH]; intros s Hs; [done|].
  simpl. apply IH. by apply modular_wait_step.
Qed.

End ModularWait.

(** X14.  [fetchAndProcessVacancies] returns without an error, under whatever
    schedule, only after it has started one goroutine for each key it was
    given and every one of them has run to its end, all slots given back.  It
    returns an error only when the context has been cancelled while a key was
    still waiting for its goroutine, and the error is then that of the
    context; it does not wait for the goroutines that are running. *)
Theorem modular_pool_returns_after_all_goroutines_or_on_cancel
  (MD5Hash : string → string) (env : Env) (maxRetries retryDelay : Z)
  (schedule : list Modular.Tick) (ids : list string) (w : World Modular.Msg) :
  let s :=
    Modular.pool_run MD5Hash env maxRetries retryDelay schedule
                     (Modular.pool_start ids w) in
  (Modular.returned s = Some None →
   Modular.goroutines s = replicate (length ids) Modular.GExit
   ∧ Modular.todo s = []
   ∧ Modular.sem s = 0%nat)
  ∧ (∀ err, Modular.returned s = Some (Some err) →
            err = Modular.ErrCanceled
            ∧ Modular.cancelled s = true
            ∧ Modular.todo s ≠ []).
Proof.
  intros s.
  destruct (modular_wait_run MD5Hash env maxRetries retryDelay (length ids)
              schedule (Modular.pool_start ids w)) as (Hwg & Hlen & Hret).
  { split_and!; [done | done | done]. }
  fold s in Hwg, Hlen, Hret. split.
  - intros Hr. rewrite Hr in Hret. destruct Hret as [Htodo Hzero].
    rewrite Htodo in Hlen. simpl in Hlen. rewrite Nat.add_0_r in Hlen.
    assert (Hall : Forall (λ g, g = Modular.GExit) (Modular.goroutines s)).
    { rewrite Hzero in Hwg. symmetry in Hwg. apply count_zero in Hwg.
      eapply Forall_impl; [exact Hwg|]. by intros [ | | ]. }
    split_and!; [|done|].
    + rewrite <- Hlen. clear -Hall.
      induction Hall as [|g gs -> _ IH]; [done|]. simpl. by rewrite <- IH.
    + destruct (modular_inv_run MD5Hash env maxRetries retryDelay schedule
                  (Modular.pool_start ids w) (modular_inv_start ids w))
        as [Hh _].
      fold s in Hh. rewrite <- Hh. unfold Modular.holders.
      clear -Hall. induction Hall as [|g gs -> _ IH]; [done|].
      rewrite filter_cons. rewrite decide_False by done. done.
  - intros err Hr. by rewrite Hr in Hret.
Qed.

(** * The client of the API *)

Lemma iff_false_l (P : Prop) : ¬ P → (false = true ↔ P).
Proof. intros H. split; [done | by intros ?]. Qed.

Lemma iff_true_l (P : Prop) : P → (true = true ↔ P).
Proof. by intros H. Qed.

(** X17.  [GetVacancyDetails] classes what comes back by the status
    alone: it hands out a document exactly when the status is 200 and the
    body parses; its error is [ErrVacancyNotFound], under the wrapping,
    exactly when the status is 404, and [ErrRateLimited] exactly when the
    status is 403 or 429.  When the request can be built, the one request
    is all that the call does to the world; when it cannot, the error is
    the one of [http.NewRequest], wrapped. *)
Theorem detail_errors_are_classed_by_status
  (env : Env) (k : string) (w : World Modular.Msg) :
  let reply := fetchDetail env k (attempts k (trace w)) in
  let run := interp env (Modular.api.GetVacancyDetails k) w in
  (built reply = true → run.2 = emit (EvFetch k) w)
  ∧ (built reply = false
     → run.1 = inr (Modular.Wrap Modular.TCreateRequest Modular.ErrForeign))
  ∧ match run.1 with
    | inl data => reply = Response http_StatusOK (BodyJSON data)
    | inr err =>
        (∀ data, reply ≠ Response http_StatusOK (BodyJSON data))
        ∧ (Modular.errors_Is err Modular.ErrVacancyNotFound = true
           ↔ ∃ body, reply = Response http_StatusNotFound body)
        ∧ (Modular.errors_Is err Modular.ErrRateLimited = true
           ↔ ∃ body, reply = Response http_StatusForbidden body
                     ∨ reply = Response http_StatusTooManyRequests body)
    end.
Proof.
  cbv zeta. unfold Modular.api.GetVacancyDetails. run_prog.
  destruct (fetchDetail env k (attempts k (trace w))) as [| |status body];
    run_prog.
  1, 2: split; [done|]; split; [done|]; cbn [fst];
        simpl (Modular.errors_Is _ _);
        split_and!; [done | |]; apply iff_false_l;
        intros (body & H); try destruct H as [H|H]; discriminate H.
  cbn [built]. split; [|split; [done|]].
  { by destruct (status =? http_StatusOK), body,
         (status =? http_StatusNotFound),
         ((status =? http_StatusForbidden)
          || (status =? http_StatusTooManyRequests)). }
  destruct (status =? http_StatusOK) eqn:H200.
  { apply Z.eqb_eq in H200. subst status.
    destruct body as [| |data]; run_prog; cbn [fst];
      [| |done];
      simpl (Modular.errors_Is _ _);
      (split_and!; [done | |]); apply iff_false_l;
      intros (body & H); try destruct H as [H|H]; discriminate H. }
  apply Z.eqb_neq in H200.
  assert (Hnot : ∀ data, Response status body
                         ≠ Response http_StatusOK (BodyJSON data))
    by (intros data [= ? _]; done).
  destruct (status =? http_StatusNotFound) eqn:H404.
  { apply Z.eqb_eq in H404. subst status. run_prog.
    cbn [fst]. simpl (Modular.errors_Is _ _).
    split_and!; [done | |].
    - apply iff_true_l. by exists body.
    - apply iff_false_l. intros (body' & [H|H]); discriminate H. }
  apply Z.eqb_neq in H404.
  destruct ((status =? http_StatusForbidden)
            || (status =? http_StatusTooManyRequests)) eqn:Hlimit; run_prog;
    cbn [fst]; simpl (Modular.errors_Is _ _);
    (split_and!; [done | |]).
  - apply iff_false_l. intros (body' & [= ? _]). done.
  - apply iff_true_l. exists body.
    apply orb_true_iff in Hlimit as [H|H]; apply Z.eqb_eq in H; subst status;
      [by left | by right].
  - apply iff_false_l. intros (body' & [= ? _]). done.
  - apply orb_false_iff in Hlimit as [H403 H429].
    apply Z.eqb_neq in H403, H429.
    apply iff_false_l. intros (body' & [[= ? _]|[= ? _]]); done.
Qed.

(** * How far the pagination loops go *)

(** X18.  While every request for a page is sent and lost (no response
    comes, or a response with status 200 whose body cannot be read or
    parsed), the single-file program goes on to the next page: after any
    number of rounds of the loop it has asked for that many pages, 0, 1,
    2, ...  in turn, and has not returned.  Nothing bounds the number of
    pages it asks for. *)
Theorem monolith_lost_pages_are_followed_without_end
  (env : Env) (details : list string → World Monolith.Msg → World Monolith.Msg)
  (rounds : nat) (w : World Monolith.Msg) :
  (∀ page, built (searchPage env page) = true) →
  (∀ page, page_lost (searchPage env page) = true) →
  Z.of_nat rounds < 2 ^ 63 →
  let run := Monolith.fetchAndStoreVacancies env details rounds w in
  run.1 = None
  ∧ searches (trace run.2) = searches (trace w) ++ (Z.of_nat <$> seq 0 rounds).
Proof.
  intros _ Hlost Hfits. cbv zeta. unfold Monolith.fetchAndStoreVacancies.
  destruct (monolith_lost_prefix env details rounds 0 0 0 w)
    as (w' & Hrun & Hs); [by intros | done |].
  rewrite Nat.add_0_r in Hrun. change (Z.of_nat 0) with 0 in Hrun.
  rewrite Hrun. by split.
Qed.

Lemma monolith_lost_pages_are_followed_without_end_witness :
  (∀ page, built (searchPage env_third_time page) = true)
  ∧ (∀ page, page_lost (searchPage env_third_time page) = true)
  ∧ Z.of_nat 5 < 2 ^ 63
  ∧ let run :=
      Monolith.fetchAndStoreVacancies env_third_time
        (Monolith.fetchVacancyDetails digest env_third_time) 5 empty_world in
    run.1 = None
    ∧ searches (trace run.2)
      = searches (trace (empty_world (Msg := Monolith.Msg)))
        ++ (Z.of_nat <$> seq 0 5).
Proof.
  split_and!; [done | done | done |].
  apply (monolith_lost_pages_are_followed_without_end env_third_time
           (Monolith.fetchVacancyDetails digest env_third_time) 5 empty_world);
    done.
Defined.

(** X19.  While every request for a page is sent and none brings a page
    (no response comes, or the status is not 200, or the body cannot be
    read or parsed), the refactored program goes on to the next page:
    after any number of rounds of the loop it has asked for that many
    pages, 0, 1, 2, ...  in turn, and has not returned.  Nothing bounds
    the number of pages it asks for. *)
Theorem modular_failed_pages_are_followed_without_end
  (env : Env)
  (details : list string → Z → Z → World Modular.Msg
             → option Modular.error * World Modular.Msg)
  (cfg : Modular.AppConfig) (rounds : nat) (w : World Modular.Msg) :
  (∀ page, built (searchPage env page) = true) →
  (∀ page, page_ok (searchPage env page) = false) →
  Z.of_nat rounds < 2 ^ 63 →
  let run :=
    Modular.fetchAndStoreVacancies env details Modular.Background cfg rounds w in
  run.1 = None
  ∧ searches (trace run.2) = searches (trace w) ++ (Z.of_nat <$> seq 0 rounds).
Proof.
  intros _ Hfail Hfits. cbv zeta. unfold Modular.fetchAndStoreVacancies.
  set (w0 := mkWorld _ _ 0 _).
  destruct (modular_failed_prefix env details cfg rounds 0 0 0 w0)
    as (w' & Hrun & Hs); [by intros | done |].
  rewrite Nat.add_0_r in Hrun. change (Z.of_nat 0) with 0 in Hrun.
  rewrite Hrun. by split.
Qed.

Lemma modular_failed_pages_are_followed_without_end_witness :
  (∀ page, built (searchPage env_third_time page) = true)
  ∧ (∀ page, page_ok (searchPage env_third_time page) = false)
  ∧ Z.of_nat 5 < 2 ^ 63
  ∧ let run :=
      Modular.fetchAndStoreVacancies env_third_time
        (Modular.fetchAndProcessVacancies digest env_third_time)
        Modular.Background (Modular.LoadConfig "a" "b" "c" "d") 5 empty_world in
    run.1 = None
    ∧ searches (trace run.2)
      = searches (trace (empty_world (Msg := Modular.Msg)))
        ++ (Z.of_nat <$> seq 0 5).
Proof.
  split_and!; [done | done | done |].
  apply (modular_failed_pages_are_followed_without_end env_third_time
           (Modular.fetchAndProcessVacancies digest env_third_time)
           (Modular.LoadConfig "a" "b" "c" "d") 5 empty_world);
    done.
Defined.

Section MiddlePages.

Variable env : Env.

(** A stretch of pages after the first and before the last: whatever
    comes back for them, each is asked for once, in turn. *)
Lemma monolith_middle_pages
  (details : list string → World Monolith.Msg → World Monolith.Msg)
  (n q fuel : nat) (totalPages : Z) (w : World Monolith.Msg) :
  (∀ ids w, pool_effect w (details ids w)) →
  (0 < q)%nat →
  Z.of_nat (q + n) <= wrap64 (totalPages - 1) →
  Z.of_nat (q + n) < 2 ^ 63 →
  ∃ w', Monolith.pageLoop env details (n + fuel) (Z.of_nat q) totalPages w
        = Monolith.pageLoop env details fuel (Z.of_nat (q + n)) totalPages w'
        ∧ searches (trace w') = searches (trace w) ++ (Z.of_nat <$> seq q n).
Proof.
  intros Hd. revert q w. induction n as [|n IH]; intros q w Hq Hlast Hfits.
  - exists w. rewrite Nat.add_0_r, app_nil_r. done.
  - destruct (monolith_page_middle env details Hd (n + fuel) (Z.of_nat q)
                totalPages w) as (w1 & He & Hrun); [lia | lia |].
    rewrite wrap64_succ in Hrun by lia.
    destruct (IH (S q) w1) as (w' & Hrun' & Hs); [lia | | |].
    { by replace (S q + n)%nat with (q + S n)%nat by lia. }
    { by replace (S q + n)%nat with (q + S n)%nat by lia. }
    exists w'. split.
    + cbn [Nat.add]. rewrite Hrun, Hrun'. f_equal. f_equal. lia.
    + rewrite Hs. apply pool_effect_searches in He. rewrite He.
      by rewrite <- app_assoc.
Qed.

Lemma modular_middle_pages
  (details : list string → Z → Z → World Modular.Msg
             → option Modular.error * World Modular.Msg)
  (cfg : Modular.AppConfig)
  (n q fuel : nat) (totalPages : Z) (w : World Modular.Msg) :
  (∀ ids maxRetries retryDelay w,
     pool_effect w (details ids maxRetries retryDelay w).2) →
  (0 < q)%nat →
  Z.of_nat (q + n) <= wrap64 (totalPages - 1) →
  Z.of_nat (q + n) < 2 ^ 63 →
  ∃ w', Modular.pageLoop env details Modular.Background cfg (n + fuel)
                         (Z.of_nat q) totalPages w
        = Modular.pageLoop env details Modular.Background cfg fuel
                           (Z.of_nat (q + n)) totalPages w'
        ∧ searches (trace w') = searches (trace w) ++ (Z.of_nat <$> seq q n).
Proof.
  intros Hd. revert q w. induction n as [|n IH]; intros q w Hq Hlast Hfits.
  - exists w. rewrite Nat.add_0_r, app_nil_r. done.
  - destruct (modular_page_middle env details Hd cfg (n + fuel) (Z.of_nat q)
                totalPages w) as (w1 & He & Hrun); [lia | lia |].
    rewrite wrap64_succ in Hrun by lia.
    destruct (IH (S q) w1) as (w' & Hrun' & Hs); [lia | | |].
    { by replace (S q + n)%nat with (q + S n)%nat by lia. }
    { by replace (S q + n)%nat with (q + S n)%nat by lia. }
    exists w'. split.
    + cbn [Nat.add]. rewrite Hrun, Hrun'. f_equal. f_equal. lia.
    + rewrite Hs. apply pool_effect_searches in He. rewrite He.
      by rewrite <- app_assoc.
Qed.

End MiddlePages.

(** X20.  When page 0 arrives and announces [p] pages, [p] any [int] but
    the smallest one, -2^63, the single-file program asks for each page
    up to the last one announced, page [max p 1 - 1], once and in turn,
    and returns, provided the request for every page can be built and the
    last page is not lost; what comes back for the pages in between does
    not matter.  So when page 0 announces one page, or none, or a
    negative number above -2^63, page 0 is the only page asked for. *)
Theorem monolith_asks_for_the_announced_pages
  (env : Env) (details : list string → World Monolith.Msg → World Monolith.Msg)
  (first : SearchPage) (last : nat) :
  (∀ ids w, pool_effect w (details ids w)) →
  (∀ page, built (searchPage env page) = true) →
  searchPage env 0 = Response http_StatusOK (BodyJSON first) →
  - 2 ^ 63 < Pages first < 2 ^ 63 →
  Z.of_nat last = Z.max (Pages first) 1 - 1 →
  page_lost (searchPage env (Z.of_nat last)) = false →
  ∀ fuel w,
    ∃ w', Monolith.fetchAndStoreVacancies env details (S last + fuel) w
          = (Some None, w')
          ∧ searches (trace w')
            = searches (trace w) ++ (Z.of_nat <$> seq 0 (S last)).
Proof.
  intros Hd _ H0 Hfits Hlast Harrives fuel w.
  unfold Monolith.fetchAndStoreVacancies.
  assert (Hwrap : wrap64 (Pages first - 1) = Pages first - 1)
    by (apply wrap64_small; unfold in_int64; lia).
  destruct (monolith_page_ok env details Hd (last + fuel) 0 0 first w H0)
    as (wa & Ha & Hrun).
  cbn [Nat.add]. rewrite Hrun. cbv zeta. simpl (0 =? 0). cbv iota.
  apply pool_effect_searches in Ha.
  destruct (0 >=? wrap64 (Pages first - 1)) eqn:Hge.
  { rewrite Z.geb_leb in Hge. apply Z.leb_le in Hge.
    assert (last = 0%nat) as -> by lia.
    exists wa. by split. }
  rewrite Z.geb_leb in Hge. apply Z.leb_gt in Hge.
  change (wrap64 (0 + 1)) with (Z.of_nat 1).
  destruct last as [|m]; [lia|].
  destruct (monolith_middle_pages env details m 1 (S fuel) (Pages first) wa Hd)
    as (wb & Hrun' & Hb); [lia | rewrite Hwrap; lia | lia |].
  replace (S m + fuel)%nat with (m + S fuel)%nat by lia.
  rewrite Hrun'. change (1 + m)%nat with (S m).
  assert (Hne : Z.of_nat (S m) ≠ 0) by lia.
  assert (Hz : (Z.of_nat (S m) =? 0) = false) by (by apply Z.eqb_neq).
  assert (Hend : (Z.of_nat (S m) >=? wrap64 (Pages first - 1)) = true).
  { rewrite Z.geb_leb. apply Z.leb_le. lia. }
  assert (Hfinal : ∃ wc,
             pool_effect (emit (EvSearch (Z.of_nat (S m))) wb) wc
             ∧ Monolith.pageLoop env details (S fuel) (Z.of_nat (S m))
                                 (Pages first) wb
               = (Some None, wc)).
  { destruct (page_refused (searchPage env (Z.of_nat (S m)))) eqn:Href.
    - destruct (monolith_page_refused env details fuel (Z.of_nat (S m))
                  (Pages first) wb Href) as (wc & He & Hrun2).
      exists wc. split; [done|]. by rewrite Hrun2, Hend.
    - destruct (searchPage env (Z.of_nat (S m))) as [| |status [| |sp]] eqn:Hresp;
        try done; simpl in Harrives, Href; apply negb_false_iff in Href;
        try congruence.
      apply Z.eqb_eq in Href. subst status.
      destruct (monolith_page_ok env details Hd fuel (Z.of_nat (S m))
                  (Pages first) sp wb Hresp) as (wc & He & Hrun2).
      exists wc. split; [done|]. rewrite Hrun2. cbv zeta. by rewrite Hz, Hend. }
  destruct Hfinal as (wc & Hc & ->).
  exists wc. split; [done|].
  apply pool_effect_searches in Hc. rewrite Hc, Hb, Ha.
  rewrite <- !app_assoc. f_equal.
  change (seq 0 (S (S m))) with (0%nat :: seq 1 (S m)).
  rewrite seq_S. cbn [fmap list_fmap]. rewrite fmap_app. done.
Qed.

Lemma monolith_asks_for_the_announced_pages_witness :
  (∀ page, built (searchPage env_three_pages page) = true)
  ∧ searchPage env_three_pages 0
    = Response http_StatusOK (BodyJSON (mkSearchPage 3 []))
  ∧ ∃ w', Monolith.fetchAndStoreVacancies env_three_pages
          (Monolith.fetchVacancyDetails digest env_three_pages)
          (S 2 + 0) empty_world
        = (Some None, w')
        ∧ searches (trace w')
          = searches (trace (empty_world (Msg := Monolith.Msg)))
            ++ (Z.of_nat <$> seq 0 (S 2)).
Proof.
  split_and!; [done | done |].
  apply (monolith_asks_for_the_announced_pages env_three_pages
           (Monolith.fetchVacancyDetails digest env_three_pages)
           (mkSearchPage 3 []) 2);
    [apply monolith_serial_effect | done | done | done | done | done].
Defined.

(** X21.  When page 0 arrives and announces [p] pages, [p] any [int] but
    the smallest one, -2^63, the refactored program asks for each page up
    to the last one announced, page [max p 1 - 1], once and in turn, and
    returns, provided the request for every page can be built and the
    last page arrives; what comes back for the pages in between does not
    matter.  So when page 0 announces one page, or none, or a negative
    number above -2^63, page 0 is the only page asked for. *)
Theorem modular_asks_for_the_announced_pages
  (env : Env)
  (details : list string → Z → Z → World Modular.Msg
             → option Modular.error * World Modular.Msg)
  (cfg : Modular.AppConfig) (first : SearchPage) (last : nat) :
  (∀ ids maxRetries retryDelay w,
     pool_effect w (details ids maxRetries retryDelay w).2) →
  (∀ page, built (searchPage env page) = true) →
  searchPage env 0 = Response http_StatusOK (BodyJSON first) →
  - 2 ^ 63 < Pages first < 2 ^ 63 →
  Z.of_nat last = Z.max (Pages first) 1 - 1 →
  page_ok (searchPage env (Z.of_nat last)) = true →
  ∀ fuel w,
    ∃ w', Modular.fetchAndStoreVacancies env details Modular.Background cfg
                                         (S last + fuel) w
          = (Some (savedCount w', None), w')
          ∧ searches (trace w')
            = searches (trace w) ++ (Z.of_nat <$> seq 0 (S last)).
Proof.
  intros Hd _ H0 Hfits Hlast Harrives fuel w.
  unfold Modular.fetchAndStoreVacancies.
  set (w0 := mkWorld _ _ 0 _).
  change (searches (trace w)) with (searches (trace w0)).
  assert (Hwrap : wrap64 (Pages first - 1) = Pages first - 1)
    by (apply wrap64_small; unfold in_int64; lia).
  destruct (modular_page_ok env details Hd cfg (last + fuel) 0 0 first w0 H0)
    as (wa & Ha & Hrun).
  cbn [Nat.add]. rewrite Hrun. cbv zeta. simpl (0 =? 0). cbv iota.
  apply pool_effect_searches in Ha.
  destruct (0 >=? wrap64 (Pages first - 1)) eqn:Hge.
  { rewrite Z.geb_leb in Hge. apply Z.leb_le in Hge.
    assert (last = 0%nat) as -> by lia.
    exists wa. by split. }
  rewrite Z.geb_leb in Hge. apply Z.leb_gt in Hge.
  change (wrap64 (0 + 1)) with (Z.of_nat 1).
  destruct last as [|m]; [lia|].
  destruct (modular_middle_pages env details cfg m 1 (S fuel) (Pages first) wa Hd)
    as (wb & Hrun' & Hb); [lia | rewrite Hwrap; lia | lia |].
  replace (S m + fuel)%nat with (m + S fuel)%nat by lia.
  rewrite Hrun'. change (1 + m)%nat with (S m).
  assert (Hne : Z.of_nat (S m) ≠ 0) by lia.
  assert (Hz : (Z.of_nat (S m) =? 0) = false) by (by apply Z.eqb_neq).
  assert (Hend : (Z.of_nat (S m) >=? wrap64 (Pages first - 1)) = true).
  { rewrite Z.geb_leb. apply Z.leb_le. lia. }
  destruct (searchPage env (Z.of_nat (S m))) as [| |status [| |sp]] eqn:Hresp;
    try done.
  simpl in Harrives. apply Z.eqb_eq in Harrives. subst status.
  destruct (modular_page_ok env details Hd cfg fuel (Z.of_nat (S m))
              (Pages first) sp wb Hresp) as (wc & Hc & ->).
  cbv zeta. rewrite Hz, Hend.
  exists wc. split; [done|].
  apply pool_effect_searches in Hc. rewrite Hc, Hb, Ha.
  rewrite <- !app_assoc. f_equal.
  change (seq 0 (S (S m))) with (0%nat :: seq 1 (S m)).
  rewrite seq_S. cbn [fmap list_fmap]. rewrite fmap_app. done.
Qed.

Lemma modular_asks_for_the_announced_pages_witness :
  (∀ page, built (searchPage env_three_pages page) = true)
  ∧ searchPage env_three_pages 0
    = Response http_StatusOK (BodyJSON (mkSearchPage 3 []))
  ∧ ∃ w', Modular.fetchAndStoreVacancies env_three_pages
          (Modular.fetchAndProcessVacancies digest env_three_pages)
          Modular.Background (Modular.LoadConfig "a" "b" "c" "d")
          (S 2 + 0) empty_world
        = (Some (savedCount w', None), w')
        ∧ searches (trace w')
          = searches (trace (empty_world (Msg := Modular.Msg)))
            ++ (Z.of_nat <$> seq 0 (S 2)).
Proof.
  split_and!; [done | done |].
  apply (modular_asks_for_the_announced_pages env_three_pages
           (Modular.fetchAndProcessVacancies digest env_three_pages)
           (Modular.LoadConfig "a" "b" "c" "d") (mkSearchPage 3 []) 2);
    [intros; apply modular_serial_effect | done | done | done | done | done].
Defined.

(** * Keys that are retried to the end *)

Lemma since_extend {Msg : Type} (w : World Msg) (t : list (Event Msg)) :
  since w (extend w t) = t.
Proof. by apply since_app. Qed.

Lemma extend_extend {Msg : Type} (w : World Msg) (t1 t2 : list (Event Msg)) :
  extend (extend w t1) t2 = extend w (t1 ++ t2).
Proof. unfold extend. simpl. by rewrite app_assoc. Qed.

Section MonolithScenarios.

Import Monolith.

Variable md5Hash : string → string.
Variable env : Env.

Implicit Types (w : World Msg) (k : string).

Lemma monolith_attempt_retried k w :
  monolith_retried (fetchDetail env k (attempts k (trace w))) = true →
  ∃ m, (∀ k', terminal k' m = None)
       ∧ interp env (processVacancy md5Hash k) w
         = (Some ErrRetryable, extend w [EvFetch k; EvLog m]).
Proof.
  intros H. unfold processVacancy. run_prog.
  destruct (fetchDetail env k (attempts k (trace w))) as [| |status body];
    simpl in H.
  - done.
  - eexists. split; [|run_prog; by flat_world]. done.
  - destruct (status =? http_StatusOK).
    + destruct body; try done. eexists. split; [|run_prog; by flat_world]. done.
    + destruct (status =? http_StatusNotFound); [done|].
      destruct (_ || _); (eexists; split; [|run_prog; by flat_world]); done.
Qed.

Lemma monolith_attempt_unusable k w :
  monolith_unusable (fetchDetail env k (attempts k (trace w))) = true →
  ∃ m, terminal k m = Some SkippedInvalid
       ∧ interp env (processVacancy md5Hash k) w
         = (Some ErrNonRetryable, extend w [EvFetch k; EvLog m]).
Proof.
  intros H. unfold processVacancy. run_prog.
  destruct (fetchDetail env k (attempts k (trace w))) as [| |status [| |data]];
    simpl in H; try done.
  - rewrite H. eexists. split; [|run_prog; by flat_world].
    simpl. by rewrite decide_True.
  - apply andb_true_iff in H as [-> H].
    destruct (data !! "description") as [[| | |description|]|]; try done;
      (eexists; split; [|run_prog; by flat_world]);
      simpl; by rewrite decide_True.
Qed.

Lemma monolith_attempt_refused k doc description w :
  fetchDetail env k (attempts k (trace w)) = Response http_StatusOK (BodyJSON doc) →
  doc !! "description" = Some (JString description) →
  md5Hash description ∉ descriptionHashes w →
  updateOne env (upserts (trace w))
            (<["description_hash" := JString (md5Hash description)]> doc) = false →
  interp env (processVacancy md5Hash k) w
  = (Some ErrRetryable,
     extend w [EvFetch k;
               EvExists (md5Hash description) false;
               EvUpsert (<["description_hash" := JString (md5Hash description)]>
                           doc) false;
               EvLog (MsgInsertion k)]).
Proof.
  intros Hresp Hdesc Hnew Hok. unfold processVacancy. run_prog.
  rewrite Hresp. simpl (_ =? _). cbv iota. rewrite Hdesc. run_prog.
  rewrite bool_decide_eq_false_2 by done. run_prog.
  rewrite !upserts_snoc, !app_nil_r, Hok. run_prog.
  by flat_world.
Qed.

(** The loop, when every call of [processVacancy] comes back with
    [ErrRetryable], has made the same calls to the collection, and has
    left the set of hashes and the counter as they were. *)
Lemma monolith_loop_exhausted k (I : World Msg → Prop) (u : list (Doc * bool)) :
  (∀ w t, I w → I (extend w t)) →
  (∀ w, I w →
        ∃ t, interp env (processVacancy md5Hash k) w
             = (Some ErrRetryable, extend w (EvFetch k :: t))
             ∧ fetches t = [] ∧ sleeps t = [] ∧ outcomes k t = []
             ∧ upserts t = u) →
  ∀ fuel retries w,
    I w →
    0 <= retries <= MaxRetries →
    (Z.to_nat (MaxRetries - retries) < fuel)%nat →
    ∃ t,
      interp env (retryLoop md5Hash fuel k retries) w = (Some tt, extend w t)
      ∧ fetches t = replicate (Z.to_nat (MaxRetries - retries) + 1) k
      ∧ sleeps t = replicate (Z.to_nat (MaxRetries - retries)) RetryDelay
      ∧ outcomes k t = [Failed]
      ∧ upserts t = concat (replicate (Z.to_nat (MaxRetries - retries) + 1) u).
Proof.
  intros HI Hattempt. induction fuel as [|fuel IH]; intros retries w Hw Hr Hfuel;
    [lia|].
  cbn [retryLoop]. rewrite interp_bind.
  destruct (Hattempt w Hw) as (t1 & -> & Hf1 & Hs1 & Ho1 & Hu1).
  cbv iota beta.
  destruct (retries <? MaxRetries) eqn:Hlt.
  - apply Z.ltb_lt in Hlt. run_prog. unfold MaxRetries in *.
    rewrite wrap64_small by (unfold in_int64; lia).
    set (t2 := [EvFetch k] ++ t1
               ++ [EvLog (MsgRetryable k (retries + 1)); EvSleep RetryDelay]).
    match goal with
    | |- context [interp env _ ?w2] =>
        assert (Hw2 : w2 = extend w t2)
          by (unfold t2, extend, emit; simpl; f_equal;
              by rewrite <- !app_assoc)
    end.
    rewrite Hw2.
    destruct (IH (retries + 1) (extend w t2) (HI _ _ Hw) ltac:(lia) ltac:(lia))
      as (t & -> & Hf & Hs & Ho & Hu).
    exists (t2 ++ t). rewrite extend_extend.
    replace (Z.to_nat (3 - retries)) with (S (Z.to_nat (3 - (retries + 1))))
      by lia.
    unfold t2.
    split_and!; [done | ..]; use_tallies; rewrite ?upserts_app, ?Hu1, ?Hu;
      try done.
    simpl. by rewrite app_nil_r.
  - apply Z.ltb_ge in Hlt. run_prog. unfold MaxRetries in *.
    replace (Z.to_nat (3 - retries)) with 0%nat by lia.
    exists ([EvFetch k] ++ t1 ++ [EvLog (MsgMaxRetries k)]).
    split_and!; use_tallies; rewrite ?upserts_app, ?Hu1; try done.
    + unfold extend, emit. simpl. f_equal. f_equal. by rewrite <- !app_assoc.
    + by tally.
Qed.

End MonolithScenarios.

(** X22.  A key for which every request of the single-file program comes back
    without a response, with a body that cannot be read, or with a status
    other than 200 and 404 (403 and 429 among them) is asked for four times,
    with [RetryDelay] in between, and then logged as failed; the collection is
    not called, and the set of hashes and the counter stay as they were. *)
Theorem monolith_retried_key_fails_after_four_requests
  (md5Hash : string → string) (env : Env) (k : string)
  (w : World Monolith.Msg) :
  (∀ n, monolith_retried (fetchDetail env k n) = true) →
  let w' := (interp env (Monolith.worker md5Hash k) w).2 in
  fetches (since w w') = [k; k; k; k]
  ∧ sleeps (since w w')
    = [Monolith.RetryDelay; Monolith.RetryDelay; Monolith.RetryDelay]
  ∧ Monolith.outcomes k (since w w') = [Failed]
  ∧ upserts (since w w') = []
  ∧ descriptionHashes w' = descriptionHashes w
  ∧ savedCount w' = savedCount w.
Proof.
  intros Hretried.
  destruct (monolith_loop_exhausted md5Hash env k (λ _, True) []
              ltac:(done)) with (fuel := S (Z.to_nat Monolith.MaxRetries))
                                (retries := 0) (w := w)
    as (t & Hrun & Hf & Hs & Ho & Hu); [|done|by vm_compute|vm_compute; lia|].
  { intros w0 _.
    destruct (monolith_attempt_retried md5Hash env k w0 (Hretried _))
      as (m & Hm & ->).
    exists [EvLog m]. split_and!; try done.
    unfold Monolith.outcomes. simpl. by rewrite Hm. }
  cbv zeta. unfold Monolith.worker. rewrite Hrun. cbn [snd].
  rewrite since_extend. by split_and!.
Qed.

Lemma monolith_retried_key_fails_after_four_requests_witness :
  let env := mkEnv (λ _, TransportError)
                   (λ _ n, if (n <? 2)%nat then Response 429 BodyUnreadable
                           else TransportError)
                   accepting in
  let w' :=
    (interp env (Monolith.worker digest "1") (empty_world (Msg := Monolith.Msg))).2
  in
  fetches (since empty_world w') = ["1"; "1"; "1"; "1"]
  ∧ sleeps (since empty_world w')
    = [Monolith.RetryDelay; Monolith.RetryDelay; Monolith.RetryDelay]
  ∧ Monolith.outcomes "1" (since empty_world w') = [Failed]
  ∧ upserts (since empty_world w') = []
  ∧ descriptionHashes w' = ∅
  ∧ savedCount w' = 0.
Proof.
  intros env.
  apply (monolith_retried_key_fails_after_four_requests digest env "1"
           empty_world).
  intros n. simpl. by destruct (n <? 2)%nat.
Defined.

(** X23.  A key whose document the single-file program cannot use (the body
    does not parse, or the description is missing or is not a text) is asked
    for once and given up: no retry, no call to the collection, and the
    counter stays as it was. *)
Theorem monolith_unusable_document_is_given_up_at_once
  (md5Hash : string → string) (env : Env) (k : string)
  (w : World Monolith.Msg) :
  monolith_unusable (fetchDetail env k (attempts k (trace w))) = true →
  let w' := (interp env (Monolith.worker md5Hash k) w).2 in
  fetches (since w w') = [k]
  ∧ sleeps (since w w') = []
  ∧ Monolith.outcomes k (since w w') = [SkippedInvalid]
  ∧ upserts (since w w') = []
  ∧ descriptionHashes w' = descriptionHashes w
  ∧ savedCount w' = savedCount w.
Proof.
  intros Hunusable.
  destruct (monolith_attempt_unusable md5Hash env k w Hunusable)
    as (m & Hm & Hrun).
  cbv zeta. unfold Monolith.worker. cbn [Z.to_nat Monolith.MaxRetries].
  change (Pos.to_nat 3) with 3%nat. cbn [Monolith.retryLoop].
  rewrite interp_bind, Hrun. run_prog. cbn [snd].
  rewrite since_extend. split_and!; try done.
  unfold Monolith.outcomes. simpl. by rewrite Hm.
Qed.

Lemma monolith_unusable_document_is_given_up_at_once_witness :
  let w' :=
    (interp env_no_description (Monolith.worker digest "8")
            (empty_world (Msg := Monolith.Msg))).2 in
  fetches (since empty_world w') = ["8"]
  ∧ sleeps (since empty_world w') = []
  ∧ Monolith.outcomes "8" (since empty_world w') = [SkippedInvalid]
  ∧ upserts (since empty_world w') = []
  ∧ descriptionHashes w' = ∅
  ∧ savedCount w' = 0.
Proof.
  apply (monolith_unusable_document_is_given_up_at_once digest
           env_no_description "8" empty_world).
  done.
Defined.

(** X24.  A key whose document the collection refuses at every call costs the
    single-file program four requests and four calls to the collection, all
    refused, and is then logged as failed; its hash is not added to the set
    and the counter stays as it was. *)
Theorem monolith_refused_write_is_retried
  (md5Hash : string → string) (env : Env) (k : string) (doc : Doc)
  (description : string) (w : World Monolith.Msg) :
  (∀ n, fetchDetail env k n = Response http_StatusOK (BodyJSON doc)) →
  doc !! "description" = Some (JString description) →
  md5Hash description ∉ descriptionHashes w →
  (∀ history data, updateOne env history data = false) →
  let data := <["description_hash" := JString (md5Hash description)]> doc in
  let w' := (interp env (Monolith.worker md5Hash k) w).2 in
  fetches (since w w') = [k; k; k; k]
  ∧ upserts (since w w')
    = [(data, false); (data, false); (data, false); (data, false)]
  ∧ Monolith.outcomes k (since w w') = [Failed]
  ∧ descriptionHashes w' = descriptionHashes w
  ∧ savedCount w' = savedCount w.
Proof.
  intros Hresp Hdesc Hnew Hrefuse.
  pose proof (monolith_loop_exhausted md5Hash env k
                (λ w0 : World Monolith.Msg,
                   md5Hash description ∉ descriptionHashes w0)
                [(<["description_hash" := JString (md5Hash description)]> doc,
                  false)]) as Hloop.
  destruct Hloop with (fuel := S (Z.to_nat Monolith.MaxRetries))
                      (retries := 0) (w := w)
    as (t & Hrun & Hf & Hs & Ho & Hu);
    [by intros | |done|by vm_compute|vm_compute; lia|].
  { intros w0 Hw0.
    rewrite (monolith_attempt_refused md5Hash env k doc description w0
               (Hresp _) Hdesc Hw0 (Hrefuse _ _)).
    eexists. split; [reflexivity|]. by split_and!. }
  cbv zeta. unfold Monolith.worker. rewrite Hrun. cbn [snd].
  rewrite since_extend. by split_and!.
Qed.

Lemma monolith_refused_write_is_retried_witness :
  let env := mkEnv (λ _, TransportError)
                   (λ k _, Response 200 (BodyJSON (vacancy k "hello")))
                   (λ _ _, false) in
  let data := <["description_hash" := JString (digest "hello")]>
                (vacancy "1" "hello") in
  let w' :=
    (interp env (Monolith.worker digest "1") (empty_world (Msg := Monolith.Msg))).2
  in
  fetches (since empty_world w') = ["1"; "1"; "1"; "1"]
  ∧ upserts (since empty_world w')
    = [(data, false); (data, false); (data, false); (data, false)]
  ∧ Monolith.outcomes "1" (since empty_world w') = [Failed]
  ∧ descriptionHashes w' = ∅
  ∧ savedCount w' = 0.
Proof.
  intros env.
  apply (monolith_refused_write_is_retried digest env "1" (vacancy "1" "hello")
           "hello" empty_world); done.
Defined.

Section ModularScenarios.

Import Modular.

Variable MD5Hash : string → string.
Variable env : Env.

Implicit Types (w : World Msg) (k : string).

Lemma modular_attempt_retried k w :
  modular_retried (fetchDetail env k (attempts k (trace w))) = true →
  ∃ err, interp env (processVacancy MD5Hash k) w = (Some err, extend w [EvFetch k]).
Proof.
  intros H. unfold processVacancy. run_prog.
  destruct (fetchDetail env k (attempts k (trace w))) as [| |status body];
    simpl in H; run_prog; simpl (errors_Is _ _); run_prog.
  - done.
  - eexists. by flat_world.
  - destruct (status =? http_StatusOK).
    + destruct body as [| |data]; run_prog; simpl (errors_Is _ _); run_prog;
        try (eexists; by flat_world).
      destruct (data !! "description") as [[| | |description|]|]; run_prog;
        try (eexists; by flat_world).
      apply bool_decide_eq_true in H. rewrite decide_True by done.
      eexists. by flat_world.
    + destruct (status =? http_StatusNotFound); [done|].
      destruct (_ || _); run_prog; simpl (errors_Is _ _); run_prog;
        eexists; by flat_world.
Qed.

Lemma modular_attempt_refused k doc description w :
  fetchDetail env k (attempts k (trace w)) = Response http_StatusOK (BodyJSON doc) →
  doc !! "description" = Some (JString description) →
  description ≠ "" →
  MD5Hash description ∉ descriptionHashes w →
  updateOne env (upserts (trace w))
            (<["description_hash" := JString (MD5Hash description)]> doc) = false →
  interp env (processVacancy MD5Hash k) w
  = (Some (Wrap TInsertion ErrForeign),
     extend w [EvFetch k;
               EvExists (MD5Hash description) false;
               EvUpsert (<["description_hash" := JString (MD5Hash description)]>
                           doc) false]).
Proof.
  intros Hresp Hdesc Hne Hnew Hok. unfold processVacancy. run_prog.
  rewrite Hresp. simpl (_ =? _). run_prog. rewrite Hdesc.
  rewrite decide_False by done. run_prog.
  rewrite bool_decide_eq_false_2 by done. run_prog.
  rewrite !upserts_snoc, !app_nil_r, Hok. run_prog.
  by flat_world.
Qed.

(** The loop, when every call of [processVacancy] comes back with an
    error, has made the same calls to the collection, and has left the
    set of hashes and the counter as they were. *)
Lemma modular_loop_exhausted maxRetries retryDelay k (I : World Msg → Prop)
  (u : list (Doc * bool)) :
  maxRetries + 1 < 2 ^ 63 →
  (∀ w t, I w → I (extend w t)) →
  (∀ w, I w →
        ∃ err t, interp env (processVacancy MD5Hash k) w
                 = (Some err, extend w (EvFetch k :: t))
                 ∧ fetches t = [] ∧ sleeps t = [] ∧ outcomes k t = []
                 ∧ upserts t = u) →
  ∀ fuel retries w,
    I w →
    0 <= retries <= maxRetries →
    (Z.to_nat (maxRetries + 1 - retries) < fuel)%nat →
    ∃ t,
      interp env (retryLoop MD5Hash fuel maxRetries retryDelay k retries) w
      = (Some tt, extend w t)
      ∧ fetches t = replicate (Z.to_nat (maxRetries - retries) + 1) k
      ∧ sleeps t = replicate (Z.to_nat (maxRetries - retries)) retryDelay
      ∧ outcomes k t = [Failed]
      ∧ upserts t = concat (replicate (Z.to_nat (maxRetries - retries) + 1) u).
Proof.
  intros Hfits HI Hattempt.
  induction fuel as [|fuel IH]; intros retries w Hw Hr Hfuel; [lia|].
  cbn [retryLoop].
  assert (Hle : (retries <=? maxRetries) = true) by (apply Z.leb_le; lia).
  rewrite Hle, interp_bind.
  destruct (Hattempt w Hw) as (err & t1 & -> & Hf1 & Hs1 & Ho1 & Hu1).
  cbv iota beta.
  rewrite wrap64_small by (unfold in_int64; lia).
  destruct (retries <? maxRetries) eqn:Hlt.
  - apply Z.ltb_lt in Hlt. run_prog.
    set (t2 := [EvFetch k] ++ t1
               ++ [EvLog (MsgRetrying k (retries + 1) maxRetries err);
                   EvSleep retryDelay]).
    match goal with
    | |- context [interp env _ ?w2] =>
        assert (Hw2 : w2 = extend w t2)
          by (unfold t2, extend, emit; simpl; f_equal;
              by rewrite <- !app_assoc)
    end.
    rewrite Hw2.
    destruct (IH (retries + 1) (extend w t2) (HI _ _ Hw) ltac:(lia) ltac:(lia))
      as (t & -> & Hf & Hs & Ho & Hu).
    exists (t2 ++ t). rewrite extend_extend.
    replace (Z.to_nat (maxRetries - retries))
      with (S (Z.to_nat (maxRetries - (retries + 1)))) by lia.
    unfold t2.
    split_and!; [done | ..]; use_tallies; rewrite ?upserts_app, ?Hu1, ?Hu;
      try done.
    simpl. by rewrite app_nil_r.
  - apply Z.ltb_ge in Hlt. run_prog.
    destruct fuel as [|fuel]; [lia|]. cbn [retryLoop].
    assert (Hgt : (retries + 1 <=? maxRetries) = false) by (apply Z.leb_gt; lia).
    rewrite Hgt. run_prog.
    replace (Z.to_nat (maxRetries - retries)) with 0%nat by lia.
    exists ([EvFetch k] ++ t1 ++ [EvLog (MsgFailed k maxRetries err)]).
    split_and!; use_tallies; rewrite ?upserts_app, ?Hu1; try done.
    + unfold extend, emit. simpl. f_equal. f_equal. by rewrite <- !app_assoc.
    + by tally.
Qed.

End ModularScenarios.

(** X25.  A key for which every request of the refactored program brings
    anything but a 404 and but a document with a description that is a text
    and not empty (no response, an unreadable or malformed body, another
    status, 403 and 429 among them, a description that is missing, not a text,
    or empty) is asked for [maxRetries + 1] times, with [retryDelay] in
    between, and then logged as failed; the collection is not called, and the
    set of hashes and the counter stay as they were. *)
Theorem modular_retried_key_fails_after_all_retries
  (MD5Hash : string → string) (env : Env) (maxRetries retryDelay : Z)
  (k : string) (w : World Modular.Msg) :
  0 <= maxRetries →
  maxRetries + 1 < 2 ^ 63 →
  (∀ n, modular_retried (fetchDetail env k n) = true) →
  let w' := (interp env (Modular.worker MD5Hash maxRetries retryDelay k) w).2 in
  fetches (since w w') = replicate (Z.to_nat maxRetries + 1) k
  ∧ sleeps (since w w') = replicate (Z.to_nat maxRetries) retryDelay
  ∧ Modular.outcomes k (since w w') = [Failed]
  ∧ upserts (since w w') = []
  ∧ descriptionHashes w' = descriptionHashes w
  ∧ savedCount w' = savedCount w.
Proof.
  intros Hpos Hfits Hretried.
  pose proof (modular_loop_exhausted MD5Hash env maxRetries retryDelay k
                (λ _, True) [] Hfits) as Hloop.
  destruct Hloop with (fuel := (Z.to_nat maxRetries + 2)%nat)
                      (retries := 0) (w := w)
    as (t & Hrun & Hf & Hs & Ho & Hu); [done| |done|lia|lia|].
  { intros w0 _.
    destruct (modular_attempt_retried MD5Hash env k w0 (Hretried _))
      as (err & ->).
    exists err, []. by split_and!. }
  cbv zeta. unfold Modular.worker. rewrite Hrun. cbn [snd].
  rewrite since_extend. rewrite Z.sub_0_r in *.
  split_and!; try done.
  rewrite Hu. clear. induction (Z.to_nat maxRetries + 1)%nat; simpl; done.
Qed.

Lemma modular_retried_key_fails_after_all_retries_witness :
  let w' :=
    (interp env_empty_description (Modular.worker digest 3 10000000000 "7")
            (empty_world (Msg := Modular.Msg))).2 in
  fetches (since empty_world w') = replicate (Z.to_nat 3 + 1) "7"
  ∧ sleeps (since empty_world w') = replicate (Z.to_nat 3) 10000000000
  ∧ Modular.outcomes "7" (since empty_world w') = [Failed]
  ∧ upserts (since empty_world w') = []
  ∧ descriptionHashes w' = ∅
  ∧ savedCount w' = 0.
Proof.
  apply (modular_retried_key_fails_after_all_retries digest
           env_empty_description 3 10000000000 "7" empty_world);
    [lia | lia | done].
Defined.

(** X26.  A key whose document the collection refuses at every call costs the
    refactored program [maxRetries + 1] requests and as many calls to the
    collection, all refused, and is then logged as failed; its hash is not
    added to the set and the counter stays as it was. *)
Theorem modular_refused_write_is_retried
  (MD5Hash : string → string) (env : Env) (maxRetries retryDelay : Z)
  (k : string) (doc : Doc) (description : string) (w : World Modular.Msg) :
  0 <= maxRetries →
  maxRetries + 1 < 2 ^ 63 →
  (∀ n, fetchDetail env k n = Response http_StatusOK (BodyJSON doc)) →
  doc !! "description" = Some (JString description) →
  description ≠ "" →
  MD5Hash description ∉ descriptionHashes w →
  (∀ history data, updateOne env history data = false) →
  let data := <["description_hash" := JString (MD5Hash description)]> doc in
  let w' := (interp env (Modular.worker MD5Hash maxRetries retryDelay k) w).2 in
  fetches (since w w') = replicate (Z.to_nat maxRetries + 1) k
  ∧ upserts (since w w') = replicate (Z.to_nat maxRetries + 1) (data, false)
  ∧ Modular.outcomes k (since w w') = [Failed]
  ∧ descriptionHashes w' = descriptionHashes w
  ∧ savedCount w' = savedCount w.
Proof.
  intros Hpos Hfits Hresp Hdesc Hne Hnew Hrefuse.
  pose proof (modular_loop_exhausted MD5Hash env maxRetries retryDelay k
                (λ w0 : World Modular.Msg,
                   MD5Hash description ∉ descriptionHashes w0)
                [(<["description_hash" := JString (MD5Hash description)]> doc,
                  false)] Hfits) as Hloop.
  destruct Hloop with (fuel := (Z.to_nat maxRetries + 2)%nat)
                      (retries := 0) (w := w)
    as (t & Hrun & Hf & Hs & Ho & Hu); [by intros| |done|lia|lia|].
  { intros w0 Hw0.
    rewrite (modular_attempt_refused MD5Hash env k doc description w0
               (Hresp _) Hdesc Hne Hw0 (Hrefuse _ _)).
    eexists _, _. split; [reflexivity|]. by split_and!. }
  cbv zeta. unfold Modular.worker. rewrite Hrun. cbn [snd].
  rewrite since_extend. rewrite Z.sub_0_r in *.
  split_and!; try done.
  rewrite Hu. clear. induction (Z.to_nat maxRetries + 1)%nat as [|n IH];
    simpl; [done | by rewrite IH].
Qed.

Lemma modular_refused_write_is_retried_witness :
  let env := mkEnv (λ _, TransportError)
                   (λ k _, Response 200 (BodyJSON (vacancy k "hello")))
                   (λ _ _, false) in
  let data := <["description_hash" := JString (digest "hello")]>
                (vacancy "1" "hello") in
  let w' :=
    (interp env (Modular.worker digest 3 10000000000 "1")
            (empty_world (Msg := Modular.Msg))).2 in
  fetches (since empty_world w') = replicate (Z.to_nat 3 + 1) "1"
  ∧ upserts (since empty_world w') = replicate (Z.to_nat 3 + 1) (data, false)
  ∧ Modular.outcomes "1" (since empty_world w') = [Failed]
  ∧ descriptionHashes w' = ∅
  ∧ savedCount w' = 0.
Proof.
  intros env.
  apply (modular_refused_write_is_retried digest env 3 10000000000 "1"
           (vacancy "1" "hello") "hello" empty_world); try done; lia.
Defined.

(** * The worker pools cannot get stuck *)

Section MonolithProgress.

Import Monolith.

Variable md5Hash : string → string.
Variable env : Env.

Implicit Types (s : PoolState) (i : nat).

Local Abbreviation run := (pool_run md5Hash env).

Lemma monolith_go_loop s i (t : Thread Msg (option unit)) :
  goroutines s !! i = Some (GLoop t) →
  match t with Running (Ret _) => False | _ => True end →
  go_step md5Hash env i s
  = mkPool (thread_step env t (world s)).2 (sem s) (wg s) (todo s)
           (<[i := GLoop (thread_step env t (world s)).1]> (goroutines s))
           (returned s).
Proof.
  intros Hi Ht. unfold go_step. rewrite Hi.
  destruct t as [[a|X act k]|resp k]; [done| |];
    by destruct (thread_step env _ (world s)).
Qed.

Lemma monolith_go_ret s i (a : option unit) :
  goroutines s !! i = Some (GLoop (Running (Ret a))) →
  go_step md5Hash env i s
  = mkPool (world s) (pred (sem s)) (wg s) (todo s)
           (<[i := GDone]> (goroutines s)) (returned s).
Proof. intros Hi. unfold go_step. by rewrite Hi. Qed.

Lemma monolith_go_done s i :
  goroutines s !! i = Some GDone →
  go_step md5Hash env i s
  = mkPool (world s) (sem s) (pred (wg s)) (todo s)
           (<[i := GExit]> (goroutines s)) (returned s).
Proof. intros Hi. unfold go_step. by rewrite Hi. Qed.

Lemma monolith_thread_finishes (p : Prog Msg (option unit)) :
  ∀ s i,
    goroutines s !! i = Some (GLoop (Running p)) →
    ∃ schedule a,
      monolith_same_call s (run schedule s)
      ∧ sem (run schedule s) = sem s
      ∧ wg (run schedule s) = wg s
      ∧ goroutines (run schedule s)
        = <[i := GLoop (Running (Ret a))]> (goroutines s).
Proof.
  induction p as [a|X act k IH]; intros s i Hi.
  - exists [], a. split_and!; try done. by rewrite list_insert_id.
  - assert (Hlt : (i < length (goroutines s))%nat) by (by eapply lookup_lt_Some).
    assert (Hnext : ∀ (x : X) w',
              ∃ schedule a,
                let s1 := mkPool w' (sem s) (wg s) (todo s)
                            (<[i := GLoop (Running (k x))]> (goroutines s))
                            (returned s) in
                monolith_same_call s (run schedule s1)
                ∧ sem (run schedule s1) = sem s
                ∧ wg (run schedule s1) = wg s
                ∧ goroutines (run schedule s1)
                  = <[i := GLoop (Running (Ret a))]> (goroutines s)).
    { intros x w'.
      destruct (IH x (mkPool w' (sem s) (wg s) (todo s)
                        (<[i := GLoop (Running (k x))]> (goroutines s))
                        (returned s)) i)
        as (schedule & a & Hsame & Hsem & Hwg & Hgs).
      { simpl. by apply list_lookup_insert_eq. }
      exists schedule, a. cbv zeta. split_and!; try done.
      rewrite Hgs. simpl. by rewrite list_insert_insert_eq. }
    pose proof (monolith_go_loop s i _ Hi I) as Hgo.
    destruct act as [page|id|h|h|data| |d|m];
      cbn [thread_step perform fst snd] in Hgo.
    all: try (edestruct Hnext as (schedule & a & Hrun);
              exists (Go i :: schedule), a;
              rewrite monolith_run_cons; cbn [pool_step]; rewrite Hgo;
              exact Hrun).
    (* the detail request takes two moves *)
    edestruct Hnext as (schedule & a & Hrun).
    exists (Go i :: Go i :: schedule), a.
    rewrite !monolith_run_cons. cbn [pool_step]. rewrite Hgo.
    erewrite monolith_go_loop;
      [|cbn [goroutines]; by apply list_lookup_insert_eq | done].
    cbn [thread_step world sem wg todo goroutines returned fst snd].
    rewrite list_insert_insert_eq. exact Hrun.
Qed.

(** A goroutine that is in the loop, or past it, can run to its end
    whatever the others do. *)
Lemma monolith_goroutine_finishes s i g :
  goroutines s !! i = Some g →
  monolith_settle g = GExit →
  ∃ schedule,
    monolith_same_call s (run schedule s)
    ∧ goroutines (run schedule s) = <[i := GExit]> (goroutines s).
Proof.
  intros Hi Hg.
  assert (Hlt : (i < length (goroutines s))%nat) by (by eapply lookup_lt_Some).
  assert (Hdone : ∀ s', goroutines s' !! i = Some GDone →
            monolith_same_call s' (run [Go i] s')
            ∧ goroutines (run [Go i] s') = <[i := GExit]> (goroutines s')).
  { intros s' Hi'. cbn [pool_run foldl pool_step].
    rewrite (monolith_go_done s' i Hi'). by split. }
  assert (Hret : ∀ s' a, goroutines s' !! i = Some (GLoop (Running (Ret a))) →
            monolith_same_call s' (run [Go i; Go i] s')
            ∧ goroutines (run [Go i; Go i] s') = <[i := GExit]> (goroutines s')).
  { intros s' a Hi'.
    assert (Hlt' : (i < length (goroutines s'))%nat)
      by (by eapply lookup_lt_Some).
    rewrite monolith_run_cons. cbn [pool_step].
    rewrite (monolith_go_ret s' i a Hi').
    destruct (Hdone (mkPool (world s') (pred (sem s')) (wg s') (todo s')
                       (<[i := GDone]> (goroutines s')) (returned s')))
      as [Hsame Hgs].
    { simpl. by apply list_lookup_insert_eq. }
    split; [exact Hsame|]. rewrite Hgs. simpl. by rewrite list_insert_insert_eq. }
  assert (Hrunning : ∀ s' p, goroutines s' !! i = Some (GLoop (Running p)) →
            ∃ schedule,
              monolith_same_call s' (run schedule s')
              ∧ goroutines (run schedule s') = <[i := GExit]> (goroutines s')).
  { intros s' p Hi'.
    assert (Hlt' : (i < length (goroutines s'))%nat)
      by (by eapply lookup_lt_Some).
    destruct (monolith_thread_finishes p s' i Hi')
      as (schedule & a & [Ht Hr] & _ & _ & Hgs).
    destruct (Hret (run schedule s') a) as [[Ht' Hr'] Hgs'].
    { rewrite Hgs. by apply list_lookup_insert_eq. }
    exists (schedule ++ [Go i; Go i]). rewrite monolith_run_app.
    split; [split; congruence|].
    rewrite Hgs', Hgs. by rewrite list_insert_insert_eq. }
  destruct g as [k|[p|resp k]| |]; [done| | | |].
  - by eapply Hrunning.
  - destruct (Hrunning (go_step md5Hash env i s) (k resp))
      as (schedule & [Ht Hr] & Hgs).
    { rewrite (monolith_go_loop s i _ Hi I). simpl.
      by apply list_lookup_insert_eq. }
    exists (Go i :: schedule). rewrite monolith_run_cons. cbn [pool_step].
    rewrite (monolith_go_loop s i _ Hi I) in *. simpl in *.
    split; [by split|]. rewrite Hgs. by rewrite list_insert_insert_eq.
  - exists [Go i]. by apply Hdone.
  - exists []. split; [done|]. simpl. by rewrite list_insert_id.
Qed.

(** A goroutine at [sem <- struct{}{}] can run to its end as soon as a
    slot is free. *)
Lemma monolith_waiting_goroutine_finishes s i k :
  goroutines s !! i = Some (GSend k) →
  (sem s < MaxConcurrency)%nat →
  ∃ schedule,
    monolith_same_call s (run schedule s)
    ∧ goroutines (run schedule s) = <[i := GExit]> (goroutines s).
Proof.
  intros Hi Hroom.
  assert (Hlt : (i < length (goroutines s))%nat) by (by eapply lookup_lt_Some).
  assert (Hgo : go_step md5Hash env i s
                = mkPool (world s) (S (sem s)) (wg s) (todo s)
                         (<[i := GLoop (Running (worker md5Hash k))]>
                            (goroutines s))
                         (returned s)).
  { unfold go_step. rewrite Hi. by rewrite decide_True. }
  destruct (monolith_goroutine_finishes (go_step md5Hash env i s) i
              (GLoop (Running (worker md5Hash k))))
    as (schedule & [Ht Hr] & Hgs); [|done|].
  { rewrite Hgo. simpl. by apply list_lookup_insert_eq. }
  exists (Go i :: schedule). rewrite monolith_run_cons. cbn [pool_step].
  rewrite Hgo in *. simpl in *.
  split; [by split|]. rewrite Hgs. by rewrite list_insert_insert_eq.
Qed.

(** One goroutine after the other. *)
Lemma monolith_one_by_one (P : PoolState → Prop)
  (f : Goroutine → Goroutine) :
  (∀ s pre g post,
     P s → goroutines s = pre ++ g :: post →
     ∃ schedule,
       P (run schedule s)
       ∧ goroutines (run schedule s) = pre ++ f g :: post) →
  ∀ post pre s,
    P s → goroutines s = pre ++ post →
    ∃ schedule,
      P (run schedule s) ∧ goroutines (run schedule s) = pre ++ (f <$> post).
Proof.
  intros Hone. induction post as [|g post IH]; intros pre s HP Hgs.
  - exists []. by split.
  - destruct (Hone s pre g post HP Hgs) as (sched1 & HP1 & Hgs1).
    destruct (IH (pre ++ [f g]) (run sched1 s) HP1) as (sched2 & HP2 & Hgs2).
    { by rewrite Hgs1, <- app_assoc. }
    exists (sched1 ++ sched2). rewrite monolith_run_app.
    split; [done|]. rewrite Hgs2. by rewrite <- app_assoc.
Qed.

Lemma monolith_holders_settled (gs : list Goroutine) :
  Forall (λ g, holds_slot g = false) gs →
  length (filter (λ g, holds_slot g = true) gs) = 0%nat.
Proof.
  induction 1 as [|g gs Hg _ IH]; [done|].
  rewrite filter_cons, decide_False by congruence. done.
Qed.

(** The [range] loop can come to its end. *)
Lemma monolith_loop_can_end s :
  returned s = false →
  ∃ schedule, todo (run schedule s) = [] ∧ returned (run schedule s) = false.
Proof.
  remember (todo s) as keys eqn:Hkeys. revert s Hkeys.
  induction keys as [|k keys IH]; intros s Hkeys Hr.
  - exists []. by split.
  - destruct (IH (main_step s)) as (schedule & Ht & Hr').
    + unfold main_step. rewrite <- Hkeys. done.
    + unfold main_step. rewrite <- Hkeys. done.
    + exists (Main :: schedule). by rewrite monolith_run_cons.
Qed.

End MonolithProgress.

(** X27.  The worker pool of the single-file program cannot get stuck: from
    every state that a schedule can bring it to, some further schedule lets
    [fetchVacancyDetails] return.  Neither the semaphore nor the WaitGroup can
    block it for good. *)
Theorem monolith_pool_can_always_finish
  (md5Hash : string → string) (env : Env) (schedule : list Monolith.Tick)
  (ids : list string) (w : World Monolith.Msg) :
  ∃ rest,
    Monolith.returned
      (Monolith.pool_run md5Hash env (schedule ++ rest)
                         (Monolith.pool_start ids w))
    = true.
Proof.
  assert (Hinv : ∀ sched,
            monolith_pool_inv
              (Monolith.pool_run md5Hash env sched (Monolith.pool_start ids w))
            ∧ monolith_wait_inv (length ids)
                (Monolith.pool_run md5Hash env sched
                                   (Monolith.pool_start ids w))).
  { intros sched. split.
    - apply monolith_inv_run, monolith_inv_start.
    - apply monolith_wait_run. by split_and!. }
  set (s := Monolith.pool_run md5Hash env schedule (Monolith.pool_start ids w)).
  destruct (Monolith.returned s) eqn:Hr.
  { exists []. by rewrite app_nil_r. }
  (* the loop comes to its end *)
  destruct (monolith_loop_can_end md5Hash env s Hr) as (sched1 & Ht1 & Hr1).
  set (s1 := Monolith.pool_run md5Hash env sched1 s) in *.
  (* the goroutines in the loop run to their end *)
  destruct (monolith_one_by_one md5Hash env
              (λ s, Monolith.todo s = [] ∧ Monolith.returned s = false)
              monolith_settle) with (post := Monolith.goroutines s1)
                                    (pre := @nil Monolith.Goroutine) (s := s1)
    as (sched2 & [Ht2 Hr2] & Hgs2); [|done|done|].
  { intros s' pre g post [Ht Hr'] Hgs.
    assert (Hi : Monolith.goroutines s' !! length pre = Some g)
      by (rewrite Hgs; by apply list_lookup_middle).
    assert (Hcase : monolith_settle g = Monolith.GExit
                    ∨ monolith_settle g = g)
      by (destruct g; first [by left | by right]).
    destruct Hcase as [Hg|Hg].
    - destruct (monolith_goroutine_finishes md5Hash env s' (length pre) g Hi Hg)
        as (sched & [Ht' Hr''] & Hgs').
      exists sched. split; [split; congruence|].
      rewrite Hgs', Hgs, Hg.
      by rewrite insert_app_r_alt, Nat.sub_diag.
    - exists []. split; [done|]. simpl. by rewrite Hgs, Hg. }
  set (s2 := Monolith.pool_run md5Hash env sched2 s1) in *.
  simpl in Hgs2.
  (* the goroutines that wait for a slot take it in turn *)
  destruct (monolith_one_by_one md5Hash env
              (λ s, (Monolith.todo s = [] ∧ Monolith.returned s = false)
                    ∧ monolith_pool_inv s
                    ∧ Forall (λ g, Monolith.holds_slot g = false)
                             (Monolith.goroutines s))
              (λ _, Monolith.GExit)) with (post := Monolith.goroutines s2)
                                         (pre := @nil Monolith.Goroutine)
                                         (s := s2)
    as (sched3 & ([Ht3 Hr3] & _) & Hgs3); [| |done|].
  { intros s' pre g post ([Ht Hr'] & [Hholders Hcap] & Hsettled) Hgs.
    assert (Hi : Monolith.goroutines s' !! length pre = Some g)
      by (rewrite Hgs; by apply list_lookup_middle).
    assert (Hfinish : ∃ sched,
              monolith_same_call s' (Monolith.pool_run md5Hash env sched s')
              ∧ Monolith.goroutines (Monolith.pool_run md5Hash env sched s')
                = <[length pre := Monolith.GExit]> (Monolith.goroutines s')).
    { destruct g as [k| | |] eqn:Hg.
      - apply (monolith_waiting_goroutine_finishes md5Hash env s' _ k Hi).
        rewrite <- Hholders. unfold Monolith.holders.
        rewrite monolith_holders_settled by done.
        unfold Monolith.MaxConcurrency. lia.
      - by apply (monolith_goroutine_finishes md5Hash env s' _ _ Hi).
      - by apply (monolith_goroutine_finishes md5Hash env s' _ _ Hi).
      - by apply (monolith_goroutine_finishes md5Hash env s' _ _ Hi). }
    destruct Hfinish as (sched & [Ht' Hr''] & Hgs').
    assert (Hnew : Monolith.goroutines (Monolith.pool_run md5Hash env sched s')
                   = pre ++ Monolith.GExit :: post).
    { rewrite Hgs', Hgs. by rewrite insert_app_r_alt, Nat.sub_diag. }
    exists sched. split; [|done]. split_and!; try congruence.
    - by apply monolith_inv_run.
    - rewrite Hnew. rewrite Hgs in Hsettled.
      apply Forall_app in Hsettled as [Hpre Hpost].
      apply Forall_cons in Hpost as [_ Hpost].
      apply Forall_app. split; [done|]. by constructor. }
  { split_and!; try done.
    - unfold s2, s1, s.
      rewrite <- !monolith_run_app. apply Hinv.
    - rewrite Hgs2. apply Forall_fmap, Forall_forall. by intros [ | | | ]. }
  set (s3 := Monolith.pool_run md5Hash env sched3 s2) in *.
  simpl in Hgs3.
  (* nothing is left to wait for *)
  exists (sched1 ++ sched2 ++ sched3 ++ [Monolith.Main]).
  rewrite !monolith_run_app. fold s s1 s2 s3.
  cbn [Monolith.pool_run foldl Monolith.pool_step].
  unfold Monolith.main_step. rewrite Ht3.
  assert (Hwg : Monolith.wg s3 = 0%nat).
  { destruct (Hinv (schedule ++ sched1 ++ sched2 ++ sched3)) as [_ (Hwg & _)].
    rewrite !monolith_run_app in Hwg. fold s s1 s2 s3 in Hwg.
    rewrite Hwg, Hgs3. clear.
    induction (Monolith.goroutines s2) as [|g gs IH]; [done|].
    simpl. rewrite filter_cons, decide_False by done. exact IH. }
  by rewrite decide_True.
Qed.

Section Ends.

Context {Msg : Type}.

Lemma ends_bind {A B : Type} (p : Prog Msg B) (f : B → Prog Msg (option A)) :
  (∀ b, ends (f b)) → ends (bind p f).
Proof.
  intros Hf. induction p as [b|X act k IH]; cbn [bind ends]; [apply Hf|].
  intros x. apply IH.
Qed.

Lemma thread_step_ends {A : Type} (env : Env) (t : Thread Msg (option A))
  (w : World Msg) :
  thread_ends t → thread_ends (thread_step env t w).1.
Proof.
  destruct t as [[a|X act k]|resp k]; cbn [thread_ends ends]; intros H.
  - done.
  - destruct act; cbn [thread_step perform fst thread_ends]; apply H.
  - apply H.
Qed.

End Ends.

Section ModularProgress.

Import Modular.

Variable MD5Hash : string → string.
Variable env : Env.
Variables maxRetries retryDelay : Z.

(** The number of retries leaves room for one more in an [int]: the loops
    of the goroutines come to their end. *)
Hypothesis retries_fit : maxRetries + 1 < 2 ^ 63.

Implicit Types (s : PoolState) (i : nat).

Local Abbreviation run := (pool_run MD5Hash env maxRetries retryDelay).

Lemma modular_retryLoop_ends fuel k retries :
  0 <= retries →
  (Z.to_nat (maxRetries + 1 - retries) < fuel)%nat →
  ends (retryLoop MD5Hash fuel maxRetries retryDelay k retries).
Proof.
  revert retries. induction fuel as [|fuel IH]; intros retries Hr Hfuel; [lia|].
  cbn [retryLoop].
  destruct (retries <=? maxRetries) eqn:Hle; [|by eexists].
  apply Z.leb_le in Hle. apply ends_bind. intros [err|]; [|by eexists].
  assert (Hnext : ends (retryLoop MD5Hash fuel maxRetries retryDelay k
                                  (wrap64 (retries + 1)))).
  { rewrite wrap64_small by (unfold in_int64; lia). apply IH; lia. }
  destruct (retries <? maxRetries); cbn [bind log call ends]; by intros.
Qed.

Lemma modular_worker_ends k : ends (worker MD5Hash maxRetries retryDelay k).
Proof. apply modular_retryLoop_ends; lia. Qed.

(** No step of the pool brings a goroutine to a loop that does not end. *)
Lemma modular_ends_step tick s :
  Forall modular_goroutine_ends (goroutines s) →
  Forall modular_goroutine_ends
         (goroutines (pool_step MD5Hash env maxRetries retryDelay tick s)).
Proof.
  intros Hgs. destruct tick as [| | |i]; cbn [pool_step].
  - done.
  - unfold done_step.
    by destruct (returned s), (todo s), (cancelled s).
  - unfold main_step. destruct (returned s); [done|].
    destruct (todo s) as [|k rest]; [by case_decide|].
    case_decide; [|done]. simpl.
    apply Forall_app. split; [done|].
    apply Forall_cons. split; [apply modular_worker_ends | apply Forall_nil_2].
  - unfold go_step. destruct (goroutines s !! i) as [g|] eqn:Hi; [|done].
    pose proof (Forall_lookup_1 _ _ _ _ Hgs Hi) as Hg.
    destruct g as [t| |].
    + pose proof (thread_step_ends env t (world s) Hg) as Ht.
      destruct t as [[[a|]|X act k]|resp k].
      * simpl. by apply Forall_insert.
      * done.
      * destruct (thread_step env _ (world s)) as [t' w'].
        simpl. by apply Forall_insert.
      * destruct (thread_step env _ (world s)) as [t' w'].
        simpl. by apply Forall_insert.
    + simpl. by apply Forall_insert.
    + done.
Qed.

Lemma modular_ends_run schedule s :
  Forall modular_goroutine_ends (goroutines s) →
  Forall modular_goroutine_ends (goroutines (run schedule s)).
Proof.
  revert s. induction schedule as [|tick schedule IH]; intros s Hgs; [done|].
  simpl. by apply IH, modular_ends_step.
Qed.

Lemma modular_go_loop s i (t : Thread Msg (option unit)) :
  goroutines s !! i = Some (GLoop t) →
  match t with Running (Ret _) => False | _ => True end →
  go_step env i s
  = mkPool (thread_step env t (world s)).2 (sem s) (wg s) (todo s)
           (<[i := GLoop (thread_step env t (world s)).1]> (goroutines s))
           (cancelled s) (returned s).
Proof.
  intros Hi Ht. unfold go_step. rewrite Hi.
  destruct t as [[a|X act k]|resp k]; [done| |];
    by destruct (thread_step env _ (world s)).
Qed.

Lemma modular_go_ret s i (a : unit) :
  goroutines s !! i = Some (GLoop (Running (Ret (Some a)))) →
  go_step env i s
  = mkPool (world s) (pred (sem s)) (wg s) (todo s)
           (<[i := GDone]> (goroutines s)) (cancelled s) (returned s).
Proof. intros Hi. unfold go_step. by rewrite Hi. Qed.

Lemma modular_go_done s i :
  goroutines s !! i = Some GDone →
  go_step env i s
  = mkPool (world s) (sem s) (pred (wg s)) (todo s)
           (<[i := GExit]> (goroutines s)) (cancelled s) (returned s).
Proof. intros Hi. unfold go_step. by rewrite Hi. Qed.

Lemma modular_thread_finishes (p : Prog Msg (option unit)) :
  ends p →
  ∀ s i,
    goroutines s !! i = Some (GLoop (Running p)) →
    ∃ schedule a,
      modular_same_call s (run schedule s)
      ∧ goroutines (run schedule s)
        = <[i := GLoop (Running (Ret (Some a)))]> (goroutines s).
Proof.
  induction p as [a|X act k IH]; intros Hends s i Hi.
  - destruct Hends as [a' ->].
    exists [], a'. split_and!; try done. by rewrite list_insert_id.
  - assert (Hlt : (i < length (goroutines s))%nat) by (by eapply lookup_lt_Some).
    assert (Hnext : ∀ (x : X) w',
              ∃ schedule a,
                let s1 := mkPool w' (sem s) (wg s) (todo s)
                            (<[i := GLoop (Running (k x))]> (goroutines s))
                            (cancelled s) (returned s) in
                modular_same_call s (run schedule s1)
                ∧ goroutines (run schedule s1)
                  = <[i := GLoop (Running (Ret (Some a)))]> (goroutines s)).
    { intros x w'.
      destruct (IH x (Hends x)
                   (mkPool w' (sem s) (wg s) (todo s)
                        (<[i := GLoop (Running (k x))]> (goroutines s))
                        (cancelled s) (returned s)) i)
        as (schedule & a & Hsame & Hgs).
      { simpl. by apply list_lookup_insert_eq. }
      exists schedule, a. cbv zeta. split_and!; try done.
      rewrite Hgs. simpl. by rewrite list_insert_insert_eq. }
    pose proof (modular_go_loop s i _ Hi I) as Hgo.
    destruct act as [page|id|h|h|data| |d|m];
      cbn [thread_step perform fst snd] in Hgo.
    all: try (edestruct Hnext as (schedule & a & Hrun);
              exists (Go i :: schedule), a;
              rewrite modular_run_cons; cbn [pool_step]; rewrite Hgo;
              exact Hrun).
    (* the detail request takes two moves *)
    edestruct Hnext as (schedule & a & Hrun).
    exists (Go i :: Go i :: schedule), a.
    rewrite !modular_run_cons. cbn [pool_step]. rewrite Hgo.
    erewrite modular_go_loop;
      [|cbn [goroutines]; by apply list_lookup_insert_eq | done].
    cbn [thread_step world sem wg todo goroutines cancelled returned fst snd].
    rewrite list_insert_insert_eq. exact Hrun.
Qed.

(** A goroutine can run to its end whatever the others do. *)
Lemma modular_goroutine_finishes s i g :
  goroutines s !! i = Some g →
  modular_goroutine_ends g →
  ∃ schedule,
    modular_same_call s (run schedule s)
    ∧ goroutines (run schedule s) = <[i := GExit]> (goroutines s).
Proof.
  intros Hi Hg.
  assert (Hlt : (i < length (goroutines s))%nat) by (by eapply lookup_lt_Some).
  assert (Hdone : ∀ s', goroutines s' !! i = Some GDone →
            modular_same_call s' (run [Go i] s')
            ∧ goroutines (run [Go i] s') = <[i := GExit]> (goroutines s')).
  { intros s' Hi'. cbn [pool_run foldl pool_step].
    rewrite (modular_go_done s' i Hi'). by split. }
  assert (Hret : ∀ s' a,
            goroutines s' !! i = Some (GLoop (Running (Ret (Some a)))) →
            modular_same_call s' (run [Go i; Go i] s')
            ∧ goroutines (run [Go i; Go i] s') = <[i := GExit]> (goroutines s')).
  { intros s' a Hi'.
    assert (Hlt' : (i < length (goroutines s'))%nat)
      by (by eapply lookup_lt_Some).
    rewrite modular_run_cons. cbn [pool_step].
    rewrite (modular_go_ret s' i a Hi').
    destruct (Hdone (mkPool (world s') (pred (sem s')) (wg s') (todo s')
                       (<[i := GDone]> (goroutines s')) (cancelled s')
                       (returned s')))
      as [Hsame Hgs].
    { simpl. by apply list_lookup_insert_eq. }
    split; [exact Hsame|]. rewrite Hgs. simpl. by rewrite list_insert_insert_eq. }
  assert (Hrunning : ∀ s' p,
            ends p →
            goroutines s' !! i = Some (GLoop (Running p)) →
            ∃ schedule,
              modular_same_call s' (run schedule s')
              ∧ goroutines (run schedule s') = <[i := GExit]> (goroutines s')).
  { intros s' p Hp Hi'.
    assert (Hlt' : (i < length (goroutines s'))%nat)
      by (by eapply lookup_lt_Some).
    destruct (modular_thread_finishes p Hp s' i Hi')
      as (schedule & a & [Ht Hr] & Hgs).
    destruct (Hret (run schedule s') a) as [[Ht' Hr'] Hgs'].
    { rewrite Hgs. by apply list_lookup_insert_eq. }
    exists (schedule ++ [Go i; Go i]). rewrite modular_run_app.
    split; [split; congruence|].
    rewrite Hgs', Hgs. by rewrite list_insert_insert_eq. }
  destruct g as [[p|resp k]| |].
  - by eapply Hrunning.
  - destruct (Hrunning (go_step env i s) (k resp))
      as (schedule & [Ht Hr] & Hgs).
    { apply Hg. }
    { rewrite (modular_go_loop s i _ Hi I). simpl.
      by apply list_lookup_insert_eq. }
    exists (Go i :: schedule). rewrite modular_run_cons. cbn [pool_step].
    rewrite (modular_go_loop s i _ Hi I) in *. simpl in *.
    split; [by split|]. rewrite Hgs. by rewrite list_insert_insert_eq.
  - exists [Go i]. by apply Hdone.
  - exists []. split; [done|]. simpl. by rewrite list_insert_id.
Qed.

(** One goroutine after the other. *)
Lemma modular_one_by_one s :
  ∀ post pre,
    goroutines s = pre ++ post →
    Forall modular_goroutine_ends post →
    ∃ schedule,
      modular_same_call s (run schedule s)
      ∧ goroutines (run schedule s) = pre ++ ((λ _, GExit) <$> post).
Proof.
  intros post. revert s.
  induction post as [|g post IH]; intros s pre Hgs Hends.
  - exists []. by split.
  - apply Forall_cons in Hends as [Hg Hends].
    assert (Hi : goroutines s !! length pre = Some g)
      by (rewrite Hgs; by apply list_lookup_middle).
    destruct (modular_goroutine_finishes s (length pre) g Hi Hg)
      as (sched1 & [Ht1 Hr1] & Hgs1).
    rewrite Hgs, insert_app_r_alt, Nat.sub_diag in Hgs1 by done.
    simpl in Hgs1.
    destruct (IH (run sched1 s) (pre ++ [GExit])) as (sched2 & [Ht2 Hr2] & Hgs2).
    { by rewrite Hgs1, <- app_assoc. }
    { done. }
    exists (sched1 ++ sched2). rewrite modular_run_app.
    split; [split; congruence|]. rewrite Hgs2. by rewrite <- app_assoc.
Qed.

Lemma modular_all_finish s :
  Forall modular_goroutine_ends (goroutines s) →
  ∃ schedule,
    modular_same_call s (run schedule s)
    ∧ Forall (λ g, g = GExit) (goroutines (run schedule s)).
Proof.
  intros Hends.
  destruct (modular_one_by_one s (goroutines s) []) as (schedule & Hsame & Hgs);
    [done|done|].
  exists schedule. split; [done|]. rewrite Hgs. simpl.
  apply Forall_fmap, Forall_forall. done.
Qed.

End ModularProgress.

(** X28.  The worker pool of the refactored program cannot get stuck, for
    every number of retries that leaves room for one more in an [int]
    (the program has 3): from every state that a schedule can bring the
    pool to, the context cancelled or not, some further schedule lets
    [fetchAndProcessVacancies] return.  Neither the semaphore nor the
    WaitGroup can block it for good. *)
Theorem modular_pool_can_always_finish
  (MD5Hash : string → string) (env : Env) (maxRetries retryDelay : Z)
  (schedule : list Modular.Tick) (ids : list string) (w : World Modular.Msg) :
  maxRetries + 1 < 2 ^ 63 →
  ∃ rest,
    is_Some
      (Modular.returned
         (Modular.pool_run MD5Hash env maxRetries retryDelay (schedule ++ rest)
                           (Modular.pool_start ids w))).
Proof.
  intros Hfit.
  set (start := Modular.pool_start ids w).
  assert (Hinv : ∀ sched,
            modular_pool_inv
              (Modular.pool_run MD5Hash env maxRetries retryDelay sched start)
            ∧ modular_wait_inv (length ids)
                (Modular.pool_run MD5Hash env maxRetries retryDelay sched start)).
  { intros sched. split.
    - apply modular_inv_run, modular_inv_start.
    - apply modular_wait_run. by split_and!. }
  assert (Hends : ∀ sched,
            Forall modular_goroutine_ends
                   (Modular.goroutines
                      (Modular.pool_run MD5Hash env maxRetries retryDelay sched
                                        start))).
  { intros sched. apply modular_ends_run; [done|]. apply Forall_nil_2. }
  assert (Hsettled : ∀ gs : list Modular.Goroutine,
            Forall (λ g, g = Modular.GExit) gs →
            length (filter (λ g, Modular.holds_slot g = true) gs) = 0%nat
            ∧ length (filter (λ g, modular_active g = true) gs) = 0%nat).
  { induction 1 as [|g gs -> _ [IH1 IH2]]; [done|].
    rewrite !filter_cons, !decide_False by done. done. }
  assert (Hgo : ∀ keys sched,
            let s := Modular.pool_run MD5Hash env maxRetries retryDelay sched
                                      start in
            Modular.todo s = keys →
            Modular.returned s = None →
            ∃ rest,
              Modular.returned
                (Modular.pool_run MD5Hash env maxRetries retryDelay rest s)
              = Some None).
  { induction keys as [|k keys IH]; intros sched s Ht Hr.
    - destruct (modular_all_finish MD5Hash env maxRetries retryDelay s)
        as (sched1 & [Ht1 Hr1] & Hall); [apply Hends|].
      exists (sched1 ++ [Modular.Main]). rewrite modular_run_app.
      set (s1 := Modular.pool_run MD5Hash env maxRetries retryDelay sched1 s)
        in *.
      cbn [Modular.pool_run foldl Modular.pool_step].
      unfold Modular.main_step. rewrite Hr1, Hr, Ht1, Ht.
      destruct (Hinv (sched ++ sched1)) as [_ (Hwg & _)].
      rewrite modular_run_app in Hwg. fold s s1 in Hwg.
      destruct (Hsettled _ Hall) as [_ Hzero].
      rewrite Hzero in Hwg. by rewrite decide_True.
    - destruct (modular_all_finish MD5Hash env maxRetries retryDelay s)
        as (sched1 & [Ht1 Hr1] & Hall); [apply Hends|].
      set (s1 := Modular.pool_run MD5Hash env maxRetries retryDelay sched1 s)
        in *.
      destruct (Hinv (sched ++ sched1)) as [[Hholders _] _].
      rewrite modular_run_app in Hholders. fold s s1 in Hholders.
      destruct (Hsettled _ Hall) as [Hzero _].
      unfold Modular.holders in Hholders. rewrite Hzero in Hholders.
      destruct (IH (sched ++ sched1 ++ [Modular.Main])) as (rest & Hrest).
      + rewrite !modular_run_app. fold s s1.
        cbn [Modular.pool_run foldl Modular.pool_step].
        unfold Modular.main_step. rewrite Hr1, Hr, Ht1, Ht.
        rewrite decide_True by lia. done.
      + rewrite !modular_run_app. fold s s1.
        cbn [Modular.pool_run foldl Modular.pool_step].
        unfold Modular.main_step. rewrite Hr1, Hr, Ht1, Ht.
        rewrite decide_True by lia. done.
      + exists (sched1 ++ [Modular.Main] ++ rest).
        rewrite !modular_run_app in Hrest. rewrite !modular_run_app.
        exact Hrest. }
  destruct (Modular.returned
              (Modular.pool_run MD5Hash env maxRetries retryDelay schedule start))
    as [r|] eqn:Hr.
  - exists []. rewrite app_nil_r, Hr. by eexists.
  - destruct (Hgo _ schedule eq_refl Hr) as (rest & Hrest).
    exists rest. rewrite modular_run_app, Hrest. by eexists.
Qed.

Lemma modular_pool_can_always_finish_witness :
  3 + 1 < 2 ^ 63
  ∧ ∃ rest,
      is_Some
        (Modular.returned
           (Modular.pool_run digest env_third_time 3 10000000000
              ([Modular.Main; Modular.Main; Modular.Go 1; Modular.Go 0] ++ rest)
              (Modular.pool_start ["1"; "2"] empty_world))).
Proof.
  split; [lia|].
  apply (modular_pool_can_always_finish digest env_third_time 3 10000000000
           [Modular.Main; Modular.Main; Modular.Go 1; Modular.Go 0]
           ["1"; "2"] empty_world).
  lia.
Defined.

(** * The order of the pages *)

Section PageOrder.

Variable env : Env.

(** One round of the loop of the single-file program: a request for the
    page, and then either the end of the loop or the next page. *)
Lemma monolith_round
  (details : list string → World Monolith.Msg → World Monolith.Msg)
  fuel page totalPages (w : World Monolith.Msg) :
  (∀ ids w, pool_effect w (details ids w)) →
  ∃ w1 totalPages',
    pool_effect (emit (EvSearch page) w) w1
    ∧ (Monolith.pageLoop env details (S fuel) page totalPages w = (Some None, w1)
       ∨ Monolith.pageLoop env details (S fuel) page totalPages w
         = Monolith.pageLoop env details fuel (wrap64 (page + 1)) totalPages' w1).
Proof.
  intros Hd.
  destruct (page_lost (searchPage env page)) eqn:Hlost.
  { destruct (monolith_page_lost env details fuel page totalPages w Hlost)
      as (w1 & He & Hrun).
    exists w1, totalPages. split; [done|]. by right. }
  destruct (page_refused (searchPage env page)) eqn:Href.
  { destruct (monolith_page_refused env details fuel page totalPages w Href)
      as (w1 & He & Hrun).
    exists w1, totalPages. split; [done|]. rewrite Hrun.
    destruct (page >=? wrap64 (totalPages - 1)); [by left | by right]. }
  destruct (searchPage env page) as [| |status [| |sp]] eqn:Hresp; try done;
    simpl in Hlost, Href; apply negb_false_iff in Href; try congruence.
  apply Z.eqb_eq in Href. subst status.
  destruct (monolith_page_ok env details Hd fuel page totalPages sp w Hresp)
    as (w1 & He & Hrun).
  exists w1, (if page =? 0 then Pages sp else totalPages).
  split; [done|]. rewrite Hrun. cbv zeta.
  destruct (page >=? wrap64 _); [by left | by right].
Qed.

Lemma monolith_pages_in_order
  (details : list string → World Monolith.Msg → World Monolith.Msg) :
  (∀ ids w, pool_effect w (details ids w)) →
  ∀ fuel (q : nat) totalPages (w : World Monolith.Msg),
    Z.of_nat (q + fuel) < 2 ^ 63 →
    ∃ n : nat,
      (n ≤ fuel)%nat
      ∧ searches (trace (Monolith.pageLoop env details fuel (Z.of_nat q)
                                           totalPages w).2)
        = searches (trace w) ++ (Z.of_nat <$> seq q n)
      ∧ ((Monolith.pageLoop env details fuel (Z.of_nat q) totalPages w).1 = None
         → n = fuel).
Proof.
  intros Hd. induction fuel as [|fuel IH]; intros q totalPages w Hfits.
  - exists 0%nat. split_and!; [done | by rewrite app_nil_r | done].
  - destruct (monolith_round details fuel (Z.of_nat q) totalPages w Hd)
      as (w1 & tp' & He & [Hrun|Hrun]); rewrite Hrun;
      apply pool_effect_searches in He.
    + exists 1%nat. cbn [fst snd]. split_and!; [lia | by rewrite He | done].
    + rewrite wrap64_succ by lia.
      destruct (IH (S q) tp' w1) as (n & Hn & Hs & Hnone); [lia|].
      exists (S n). split_and!; [lia | | intros H; by rewrite Hnone].
      rewrite Hs, He. by rewrite <- app_assoc.
Qed.

(** One round of the loop of the refactored program. *)
Lemma modular_round
  (details : list string → Z → Z → World Modular.Msg
             → option Modular.error * World Modular.Msg)
  cfg fuel page totalPages (w : World Modular.Msg) :
  (∀ ids maxRetries retryDelay w,
     pool_effect w (details ids maxRetries retryDelay w).2) →
  ∃ w1 totalPages',
    pool_effect (emit (EvSearch page) w) w1
    ∧ (Modular.pageLoop env details Modular.Background cfg (S fuel) page
                        totalPages w
       = (Some (savedCount w1, None), w1)
       ∨ Modular.pageLoop env details Modular.Background cfg (S fuel) page
                          totalPages w
         = Modular.pageLoop env details Modular.Background cfg fuel
                            (wrap64 (page + 1)) totalPages' w1).
Proof.
  intros Hd.
  destruct (page_ok (searchPage env page)) eqn:Hok.
  - destruct (searchPage env page) as [| |status [| |sp]] eqn:Hresp; try done.
    simpl in Hok. apply Z.eqb_eq in Hok. subst status.
    destruct (modular_page_ok env details Hd cfg fuel page totalPages sp w Hresp)
      as (w1 & He & Hrun).
    exists w1, (if page =? 0 then Pages sp else totalPages).
    split; [done|]. rewrite Hrun. cbv zeta.
    destruct (page >=? wrap64 _); [by left | by right].
  - destruct (modular_page_failed env details cfg fuel page totalPages w Hok)
      as (w1 & He & Hrun).
    exists w1, totalPages. split; [done|]. by right.
Qed.

Lemma modular_pages_in_order
  (details : list string → Z → Z → World Modular.Msg
             → option Modular.error * World Modular.Msg)
  (cfg : Modular.AppConfig) :
  (∀ ids maxRetries retryDelay w,
     pool_effect w (details ids maxRetries retryDelay w).2) →
  ∀ fuel (q : nat) totalPages (w : World Modular.Msg),
    Z.of_nat (q + fuel) < 2 ^ 63 →
    ∃ n : nat,
      (n ≤ fuel)%nat
      ∧ searches (trace (Modular.pageLoop env details Modular.Background cfg
                                          fuel (Z.of_nat q) totalPages w).2)
        = searches (trace w) ++ (Z.of_nat <$> seq q n)
      ∧ ((Modular.pageLoop env details Modular.Background cfg fuel (Z.of_nat q)
                           totalPages w).1 = None
         → n = fuel).
Proof.
  intros Hd. induction fuel as [|fuel IH]; intros q totalPages w Hfits.
  - exists 0%nat. split_and!; [done | by rewrite app_nil_r | done].
  - destruct (modular_round details cfg fuel (Z.of_nat q) totalPages w Hd)
      as (w1 & tp' & He & [Hrun|Hrun]); rewrite Hrun;
      apply pool_effect_searches in He.
    + exists 1%nat. cbn [fst snd]. split_and!; [lia | by rewrite He | done].
    + rewrite wrap64_succ by lia.
      destruct (IH (S q) tp' w1) as (n & Hn & Hs & Hnone); [lia|].
      exists (S n). split_and!; [lia | | intros H; by rewrite Hnone].
      rewrite Hs, He. by rewrite <- app_assoc.
Qed.

End PageOrder.

(** X29.  When the request for every page can be built, then, whatever
    the API answers and however the goroutines of each page interleave,
    either program asks for the search pages in order, from page 0 on,
    none skipped and none asked for twice: after any number of rounds of
    its loop the pages asked for are 0, 1, ..., n - 1 for some n, and n is
    the number of rounds when the loop has not returned. *)
Theorem pages_are_asked_for_in_order
  (md5Hash : string → string) (env : Env)
  (schedule1 : list string → World Monolith.Msg → list Monolith.Tick)
  (schedule2 : list string → World Modular.Msg → list Modular.Tick)
  (cfg : Modular.AppConfig) (rounds : nat) :
  (∀ page, built (searchPage env page) = true) →
  Z.of_nat rounds < 2 ^ 63 →
  let details1 := λ ids w,
    Monolith.world
      (Monolith.pool_run md5Hash env (schedule1 ids w)
                         (Monolith.pool_start ids w)) in
  let details2 := λ ids maxRetries retryDelay w,
    let s :=
      Modular.pool_run md5Hash env maxRetries retryDelay (schedule2 ids w)
                       (Modular.pool_start ids w) in
    (mjoin (Modular.returned s), Modular.world s) in
  (∀ w,
     let run := Monolith.fetchAndStoreVacancies env details1 rounds w in
     ∃ n : nat,
       (n ≤ rounds)%nat
       ∧ searches (since w run.2) = Z.of_nat <$> seq 0 n
       ∧ (run.1 = None → n = rounds))
  ∧ (∀ w,
       let run :=
         Modular.fetchAndStoreVacancies env details2 Modular.Background cfg
                                        rounds w in
       ∃ n : nat,
         (n ≤ rounds)%nat
         ∧ searches (since w run.2) = Z.of_nat <$> seq 0 n
         ∧ (run.1 = None → n = rounds)).
Proof.
  intros _ Hfits details1 details2.
  assert (Hsince : ∀ (Msg : Type) (w w' : World Msg) l,
            trace w `prefix_of` trace w' →
            searches (trace w') = searches (trace w) ++ l →
            searches (since w w') = l).
  { intros Msg w w' l [t Ht] Hs. rewrite (since_app _ _ _ Ht).
    rewrite Ht, searches_app in Hs. by apply app_inv_head in Hs. }
  split.
  - intros w. cbv zeta. unfold Monolith.fetchAndStoreVacancies.
    assert (Hd : ∀ ids w0, pool_effect w0 (details1 ids w0))
      by (intros; apply monolith_run_effect).
    destruct (monolith_pages_in_order env details1 Hd rounds 0 0 w)
      as (n & Hn & Hs & Hnone); [done|].
    exists n. split_and!; [done | | done].
    apply Hsince; [|done].
    apply (monolith_pageLoop_rel env details1
             (λ w0 w1, trace w0 `prefix_of` trace w1)).
    + intros w0. exists []. by rewrite app_nil_r.
    + intros w1 w2 w3 [t1 H1] [t2 H2]. exists (t1 ++ t2).
      by rewrite H2, H1, app_assoc.
    + intros w0 q. by exists [EvSearch q].
    + intros w0 m _. by exists [EvLog m].
    + intros q sp w0 _. destruct (Hd (filter (λ id, id ∉ vacancyIDs w0)
                                             (Items sp)) w0)
        as (_ & t & Ht & _).
      by exists t.
  - intros w. cbv zeta. unfold Modular.fetchAndStoreVacancies.
    set (w0 := mkWorld _ _ 0 _).
    assert (Hd : ∀ ids maxRetries retryDelay w1,
              pool_effect w1 (details2 ids maxRetries retryDelay w1).2)
      by (intros; apply modular_run_effect).
    destruct (modular_pages_in_order env details2 cfg Hd rounds 0 0 w0)
      as (n & Hn & Hs & Hnone); [done|].
    exists n. split_and!; [done | | done].
    change (since w ?x) with (since w0 x).
    apply Hsince; [|done].
    apply (modular_pageLoop_rel env details2 Modular.Background cfg
             (λ w1 w2, trace w1 `prefix_of` trace w2)).
    + intros w1. exists []. by rewrite app_nil_r.
    + intros w1 w2 w3 [t1 H1] [t2 H2]. exists (t1 ++ t2).
      by rewrite H2, H1, app_assoc.
    + intros w1 q. by exists [EvSearch q].
    + intros w1 m. by exists [EvLog m].
    + intros q sp w1 _.
      destruct (Hd (filter (λ id, Modular.storage.VacancyExists id w1 = false)
                           (Items sp))
                   (Modular.MaxRetries cfg) (Modular.RetryDelay cfg) w1)
        as (_ & t & Ht & _).
      by exists t.
Qed.

Lemma pages_are_asked_for_in_order_witness :
  (∀ page, built (searchPage env_three_pages page) = true)
  ∧ Z.of_nat 4 < 2 ^ 63
  ∧ let run :=
      Monolith.fetchAndStoreVacancies env_three_pages
        (λ ids w,
           Monolith.world
             (Monolith.pool_run digest env_three_pages
                                (repeat Monolith.Main (length ids))
                                (Monolith.pool_start ids w)))
        4 (empty_world (Msg := Monolith.Msg)) in
    ∃ n : nat,
      (n ≤ 4)%nat
      ∧ searches (since empty_world run.2) = Z.of_nat <$> seq 0 n
      ∧ (run.1 = None → n = 4%nat).
Proof.
  split_and!; [done | done |].
  apply (pages_are_asked_for_in_order digest env_three_pages
           (λ ids _, repeat Monolith.Main (length ids)) (λ _ _, [])
           (Modular.LoadConfig "a" "b" "c" "d") 4); done.
Defined.

(** * The set of hashes *)

(** X30.  The set of hashes of either program answers for a hash that was
    added, and adding a hash changes the answer for no other hash. *)
Theorem added_hash_is_found
  (env : Env) (hash other : string) :
  (∀ w : World Monolith.Msg,
     let w' := (interp env (Monolith.SafeMap.Add hash) w).2 in
     (interp env (Monolith.SafeMap.Exists hash) w').1 = true
     ∧ (other ≠ hash
        → (interp env (Monolith.SafeMap.Exists other) w').1
          = (interp env (Monolith.SafeMap.Exists other) w).1))
  ∧ (∀ w : World Modular.Msg,
       let w' := (interp env (Modular.storage.AddDescriptionHash hash) w).2 in
       (interp env (Modular.storage.DescriptionHashExists hash) w').1 = true
       ∧ (other ≠ hash
          → (interp env (Modular.storage.DescriptionHashExists other) w').1
            = (interp env (Modular.storage.DescriptionHashExists other) w).1)).
Proof.
  split; intros w; cbv zeta; run_prog; cbn [fst snd]; run_prog.
  all: split;
    [apply bool_decide_eq_true, elem_of_union; left; by apply elem_of_singleton|].
  all: intros Hne; apply bool_decide_ext;
    rewrite elem_of_union, elem_of_singleton;
    split; [by intros [?|?] | by right].
Qed.
